(** * Live Opportunity Client: the dashboard script

    A shallow embedding of the browser script of the opportunity dashboard,
    [src/frontend/js/app.js], together with the earlier copy of the same
    script kept in [src/unnamed/part_000].  The two copies share most of
    their text; where they differ the definitions below take the copy as a
    parameter of type [script].

    Conventions of the embedding.

    - A number received in a JSON message is a finite IEEE double, hence a
      rational: numbers are values of [Q].  Comparison, [Math.max] and the
      sign of a difference are exact on finite doubles, so they are exact
      here.  The arithmetic that rounds (the quotients and the product of
      the daily earnings, the sum and the quotient of the average) rounds
      here as binary64 does: [JS.round64] is rounding to nearest, ties to
      even, with 53 bits and the least exponent of the format.  Results
      are taken to stay within the range of the finite doubles.
      [dailyEarn64] is the daily-earnings expression on the primitive
      floats, with which [dailyEarn] is compared on sample values.
    - A property that may be absent ([undefined] or [null]) is an [option].
      Rows are typed as the data model has them: [currency] is the key of
      a row and always a string, the rates and fees are numbers or absent,
      [best_loan_source] and [status] strings or absent, [available] a
      boolean or absent.
    - Strings are byte strings; [toUpperCase], [toLowerCase] and [trim] act
      on ASCII, which is what token symbols are made of.
    - The module-level objects [state] and [dom] are records threaded
      through the handlers; what a handler asks of the network, the timers
      or the console is returned as a list of [Effect]s.
    - Host functions whose result depends on the locale
      ([localeCompare], [toLocaleTimeString]) or on the shortest-digits
      printer of numbers ([toFixed] falls back on it from [1e21] on) are
      variables of the section. *)

From Stdlib Require Import ZArith QArith Qabs Qpower Qround Lqa Lia.
From Stdlib Require Import Bool String Ascii List DecimalString.
From Stdlib Require Import Permutation Sorted Floats OrderedTypeEx.
Import ListNotations.

Local Open Scope Q_scope.

(** ** JavaScript operators and built-ins used by the script *)
Module JS.

(** [x || d] on a numeric property: [undefined], [null], [NaN] and [0]
    are falsy. *)
Definition or_num (x : option Q) (d : Q) : Q :=
  match x with
  | Some q => if Qeq_bool q 0 then d else q
  | None => d
  end.

(** [x ?? 0]: only [undefined] and [null] are replaced. *)
Definition nullish (x : option Q) : Q :=
  match x with
  | Some q => q
  | None => 0
  end.

(** [x || d] on a string property: the empty string is falsy. *)
Definition or_str (x : option string) (d : string) : string :=
  match x with
  | Some EmptyString => d
  | Some s => s
  | None => d
  end.

(** [x < y] on numbers. *)
Definition ltb (x y : Q) : bool := negb (Qle_bool y x).

(** *** Strings *)

Definition is_lower (c : ascii) : bool :=
  ((97 <=? nat_of_ascii c) && (nat_of_ascii c <=? 122))%nat.

Definition is_upper (c : ascii) : bool :=
  ((65 <=? nat_of_ascii c) && (nat_of_ascii c <=? 90))%nat.

Definition upper_char (c : ascii) : ascii :=
  if is_lower c then ascii_of_nat (nat_of_ascii c - 32) else c.

Definition lower_char (c : ascii) : ascii :=
  if is_upper c then ascii_of_nat (nat_of_ascii c + 32) else c.

Fixpoint map_string (f : ascii -> ascii) (s : string) : string :=
  match s with
  | EmptyString => EmptyString
  | String c s' => String (f c) (map_string f s')
  end.

Definition toUpperCase : string -> string := map_string upper_char.
Definition toLowerCase : string -> string := map_string lower_char.

(** White space of [String.prototype.trim] within ASCII: TAB, LF, VT, FF,
    CR and SPACE. *)
Definition is_space (c : ascii) : bool :=
  let n := nat_of_ascii c in
  ((9 <=? n) && (n <=? 13) || (n =? 32))%nat.

Fixpoint trimStart (s : string) : string :=
  match s with
  | EmptyString => EmptyString
  | String c s' => if is_space c then trimStart s' else s
  end.

Fixpoint trimEnd (s : string) : string :=
  match s with
  | EmptyString => EmptyString
  | String c s' =>
      match trimEnd s' with
      | EmptyString => if is_space c then EmptyString else String c EmptyString
      | t => String c t
      end
  end.

Definition trim (s : string) : string := trimEnd (trimStart s).

Fixpoint startsWith (s t : string) : bool :=
  match t, s with
  | EmptyString, _ => true
  | String _ _, EmptyString => false
  | String b t', String a s' => Ascii.eqb a b && startsWith s' t'
  end.

(** [s.includes(t)] *)
Fixpoint includes (s t : string) : bool :=
  startsWith s t ||
  match s with
  | EmptyString => false
  | String _ s' => includes s' t
  end.

(** A string in a boolean position: only [''] is falsy. *)
Definition truthy_str (s : string) : bool :=
  match s with
  | EmptyString => false
  | String _ _ => true
  end.

(** *** 32-bit integers *)

(** [x | 0]: the signed 32-bit integer congruent to [x]. *)
Definition toInt32 (x : Z) : Z :=
  ((x + 2 ^ 31) mod 2 ^ 32 - 2 ^ 31)%Z.

(** [a << n] for an [a] that is an int32 already. *)
Definition shl (a n : Z) : Z := toInt32 (Z.shiftl a n).

(** *** Numbers to text *)

Definition digits (n : Z) : string :=
  NilZero.string_of_uint (N.to_uint (Z.to_N n)).

Definition two_digits (n : Z) : string :=
  (digits (n / 10) ++ digits (n mod 10))%string.

(** The integer [n] for which [n / 100 - a] is closest to zero, the
    larger one on a tie (step 10 of [Number.prototype.toFixed]). *)
Definition hundredths (a : Q) : Z :=
  ((2 * 100 * Qnum a + Zpos (Qden a)) / (2 * Zpos (Qden a)))%Z.

(** [Math.max] of a first argument and the remaining ones. *)
Definition max2 (a b : Q) : Q := if Qle_bool a b then b else a.

Definition Math_max (x : Q) (xs : list Q) : Q := fold_left max2 xs x.

(** [Math.min] of two numbers. *)
Definition Math_min (a b : Q) : Q := if Qle_bool a b then a else b.

(** [Math.pow(b, n)] for a natural exponent. *)
Definition Math_pow (b : Q) (n : nat) : Q := b ^ Z.of_nat n.

(** *** [Array.prototype.sort]

    For a consistent comparison function the sorted order is unique: the
    sort is stable since ES2019.  [sort] is the stable insertion of each
    element in front of the sorted remainder; an element moves past
    another one only when the comparison function returns a positive
    number for the pair. *)
Section Sort.
Context {A : Type} (comparefn : A -> A -> Q).

Fixpoint insert (x : A) (l : list A) : list A :=
  match l with
  | [] => [x]
  | y :: l' =>
      if ltb 0 (comparefn x y) then y :: insert x l' else x :: l
  end.

Fixpoint sort (l : list A) : list A :=
  match l with
  | [] => []
  | x :: l' => insert x (sort l')
  end.
End Sort.

(** *** Binary64 arithmetic

    The exponent of the binade of a positive number:
    [2 ^ ilog2 x <= x < 2 ^ (ilog2 x + 1)]. *)
Definition ilog2 (x : Q) : Z :=
  let k := (Z.log2 (Qnum x) - Z.log2 (Zpos (Qden x)))%Z in
  if Qle_bool (2 ^ k) x then k else (k - 1)%Z.

(** The integer nearest to [x], the even one of the two on a tie. *)
Definition nearest_even (x : Q) : Z :=
  let f := Qfloor x in
  match Qcompare (x - inject_Z f) (1 # 2) with
  | Lt => f
  | Eq => if Z.even f then f else (f + 1)%Z
  | Gt => (f + 1)%Z
  end.

(** The double nearest to a number that is not negative: a significand
    of 53 bits at the exponent of the number, which is not below that of
    the subnormal numbers. *)
Definition round64_abs (a : Q) : Q :=
  let e := Z.max (ilog2 a - 52) (-1074) in
  inject_Z (nearest_even (a / 2 ^ e)) * 2 ^ e.

(** The double nearest to [x], the one with the even significand on a
    tie. *)
Definition round64 (x : Q) : Q :=
  Qred (if Qle_bool 0 x then round64_abs x else - round64_abs (- x)).

(** [a + b], [a * b] and [a / b] on numbers, for a divisor other than
    zero. *)
Definition add (a b : Q) : Q := round64 (a + b).
Definition mul (a b : Q) : Q := round64 (a * b).
Definition div (a b : Q) : Q := round64 (a / b).

(** The exact value of a binary64 number; [None] for NaN and the
    infinities. *)
Definition Q_of_float (f : float) : option Q :=
  match Prim2SF f with
  | S754_zero _ => Some 0
  | S754_finite s m e =>
      Some ((if s then - inject_Z (Zpos m) else inject_Z (Zpos m)) * 2 ^ e)
  | S754_infinity _ | S754_nan => None
  end.

End JS.

(** A comparison function is consistent over its arguments when the
    relation "[comparefn a b] is positive" is the converse of "is
    negative" and "not positive" is transitive (the requirements the
    language puts on the function for the sort order to be defined). *)
Record consistent {A : Type} (comparefn : A -> A -> Q) : Prop := {
  cmp_converse : forall a b, 0 < comparefn a b <-> comparefn b a < 0;
  cmp_trans : forall a b c,
      comparefn a b <= 0 -> comparefn b c <= 0 -> comparefn a c <= 0
}.

(** [a] sorts no later than [b]. *)
Definition before {A : Type} (comparefn : A -> A -> Q) (a b : A) : Prop :=
  comparefn a b <= 0.

(** The comparison function returns zero for the pair. *)
Definition same_key {A : Type} (comparefn : A -> A -> Q) (a b : A) : bool :=
  Qeq_bool (comparefn a b) 0.

(** ** Data model *)

(** One element of [msg.data]. *)
Record Opportunity := {
  currency : string;
  gate_apr : option Q;
  okx_loan_rate : option Q;
  binance_loan_rate : option Q;
  net_apr : option Q;
  effective_ev : option Q;
  best_loan_source : option string;
  available : option bool;
  status : option string;
  okx_avail_loan : option Q;
  gate_wd_fee_usd : option Q
}.

(** The message handed to [handleDataUpdate]: a [data_update] frame of the
    stream or the body of [GET /api/opportunities]. *)
Record Msg := {
  msg_data : option (list Opportunity);
  msg_timestamp : option string
}.

(** The sortable header cells ([th.dataset.col]): the textual column and
    the numeric ones; [col_other] is a name no row has a property for. *)
Inductive Column :=
| col_currency
| col_gate_apr
| col_okx_loan_rate
| col_binance_loan_rate
| col_net_apr
| col_effective_ev
| col_okx_avail_loan
| col_gate_wd_fee_usd
| col_other (name : string).

(** The two copies of the script. *)
Inductive script := app_js | part_000.

(** One [<tr>] built by [renderTable]: the values its cells are printed
    from. *)
Record Row := {
  row_token : string;
  row_label : string;
  row_sigIndex : Z;
  row_gateApr : Q;
  row_borrowRate : Q;
  row_gateWd : Q;
  row_netApr : Q;
  row_dailyEarn : Q;
  row_effEv : Q;
  row_source : string;
  row_maxLoan : Q;
  row_isAvailable : bool
}.

(** The [<tr>] of [part_000], which has a cell per lender and neither
    signal, daily earnings nor expected value. *)
Record Row0 := {
  row0_token : string;
  row0_label : string;
  row0_gateApr : Q;
  row0_okxRate : Q;
  row0_binanceRate : Q;
  row0_netApr : Q;
  row0_source : string;
  row0_maxLoan : Q;
  row0_isAvailable : bool
}.

(** Content of [#opp-tbody]: the markup the page ships with, the
    placeholder row, or the rendered rows. *)
Inductive Tbody :=
| tb_static
| tb_no_match
| tb_rows (rows : list Row)
| tb_rows0 (rows : list Row0).

Inductive WsPill := pill_static | pill_connecting | pill_live | pill_disconnected | pill_error.

(** [#data-status]: the token count shown and the [flash-update] class. *)
Record DataPill := {
  pill_tokens : option nat;
  pill_flash : bool
}.

(** The filter controls.  [filterApr] and [filterLoanSize] hold what
    [parseFloat] returns for the control's text, [None] being [NaN]. *)
Record Filters := {
  filterSource : string;
  filterApr : option Q;
  filterLoanSize : option Q;
  filterSearch : string;
  filterAvailable : string
}.

(** Text of the KPI elements: [kpiBestApr] to [kpiLastUpdate] are the ones
    of [app.js], [kpiTotal] to [kpiDbRows] the ones of [part_000]. *)
Record Kpi := {
  kpiBestApr : string;
  kpiOppsCount : string;
  kpiTrendCount : string;
  kpiLastUpdate : string;
  kpiTotal : string;
  kpiTopApr : string;
  kpiAvgApr : string;
  kpiHigh : string;
  kpiTime : string;
  kpiDbRows : string
}.

Record RefreshButton := {
  btn_disabled : bool;
  btn_text : string
}.

Record Dom := {
  wsStatus : WsPill;
  dataStatus : DataPill;
  btnRefresh : RefreshButton;
  kpi : Kpi;
  filters : Filters;
  filteredCount : string;
  tbody : Tbody
}.

Inductive ReadyState := CONNECTING | OPEN | CLOSING | CLOSED.

(** The [state] object.  [wsRetries] and [maxWsRetries] are [None] while
    the object has no such property; [pingInterval] tells whether an
    interval id has been stored. *)
Record State := {
  data : list Opportunity;
  filtered : list Opportunity;
  sortCol : Column;
  sortAsc : bool;
  ws : option ReadyState;
  wsRetries : option nat;
  maxWsRetries : option nat;
  pingInterval : bool;
  lastUpdate : option string
}.

(** The debounced listeners of [initFilters]: whether the timer of each
    is armed. *)
Record Debounce := {
  timer_apr : bool;
  timer_loan : bool;
  timer_search : bool
}.

(** The page: [state], [dom] and the armed debounce timers. *)
Record Page := {
  state : State;
  dom : Dom;
  debounce : Debounce
}.

Inductive Callback :=
| cb_connectWebSocket
| cb_unflash
| cb_enableRefresh.

(** What a handler asks of its environment. *)
Inductive Effect :=
| NewWebSocket (path : string)
| WsSend (payload : string)
| Fetch (method url : string)
| SetTimeout (callback : Callback) (delay : Q)
| SetInterval (payload : string) (period : Q)
| ClearInterval
| ConsoleLog (text : string)
| ConsoleError (text : string)
| Alert (text : string).

(** *** Field updates *)

Definition set_data (l : list Opportunity) (t : option string) (s : State) : State :=
  {| data := l; filtered := filtered s; sortCol := sortCol s; sortAsc := sortAsc s;
     ws := ws s; wsRetries := wsRetries s; maxWsRetries := maxWsRetries s;
     pingInterval := pingInterval s; lastUpdate := t |}.

Definition set_filtered (l : list Opportunity) (s : State) : State :=
  {| data := data s; filtered := l; sortCol := sortCol s; sortAsc := sortAsc s;
     ws := ws s; wsRetries := wsRetries s; maxWsRetries := maxWsRetries s;
     pingInterval := pingInterval s; lastUpdate := lastUpdate s |}.

Definition set_sort (c : Column) (asc : bool) (s : State) : State :=
  {| data := data s; filtered := filtered s; sortCol := c; sortAsc := asc;
     ws := ws s; wsRetries := wsRetries s; maxWsRetries := maxWsRetries s;
     pingInterval := pingInterval s; lastUpdate := lastUpdate s |}.

Definition set_ws (sock : option ReadyState) (retries : option nat) (ping : bool)
    (s : State) : State :=
  {| data := data s; filtered := filtered s; sortCol := sortCol s; sortAsc := sortAsc s;
     ws := sock; wsRetries := retries; maxWsRetries := maxWsRetries s;
     pingInterval := ping; lastUpdate := lastUpdate s |}.

Definition set_wsStatus (p : WsPill) (d : Dom) : Dom :=
  {| wsStatus := p; dataStatus := dataStatus d; btnRefresh := btnRefresh d;
     kpi := kpi d; filters := filters d; filteredCount := filteredCount d;
     tbody := tbody d |}.

Definition set_dataStatus (p : DataPill) (d : Dom) : Dom :=
  {| wsStatus := wsStatus d; dataStatus := p; btnRefresh := btnRefresh d;
     kpi := kpi d; filters := filters d; filteredCount := filteredCount d;
     tbody := tbody d |}.

Definition set_btnRefresh (b : RefreshButton) (d : Dom) : Dom :=
  {| wsStatus := wsStatus d; dataStatus := dataStatus d; btnRefresh := b;
     kpi := kpi d; filters := filters d; filteredCount := filteredCount d;
     tbody := tbody d |}.

Definition set_kpi (k : Kpi) (d : Dom) : Dom :=
  {| wsStatus := wsStatus d; dataStatus := dataStatus d; btnRefresh := btnRefresh d;
     kpi := k; filters := filters d; filteredCount := filteredCount d;
     tbody := tbody d |}.

Definition set_filters (f : Filters) (d : Dom) : Dom :=
  {| wsStatus := wsStatus d; dataStatus := dataStatus d; btnRefresh := btnRefresh d;
     kpi := kpi d; filters := f; filteredCount := filteredCount d;
     tbody := tbody d |}.

Definition set_table (n : string) (t : Tbody) (d : Dom) : Dom :=
  {| wsStatus := wsStatus d; dataStatus := dataStatus d; btnRefresh := btnRefresh d;
     kpi := kpi d; filters := filters d; filteredCount := n;
     tbody := t |}.

Definition with_state (f : State -> State) (p : Page) : Page :=
  {| state := f (state p); dom := dom p; debounce := debounce p |}.

Definition with_dom (f : Dom -> Dom) (p : Page) : Page :=
  {| state := state p; dom := f (dom p); debounce := debounce p |}.

Definition with_debounce (f : Debounce -> Debounce) (p : Page) : Page :=
  {| state := state p; dom := dom p; debounce := f (debounce p) |}.

(** A frame of [/ws/live] as [ws.onmessage] sees it after [JSON.parse]. *)
Inductive Frame :=
| frame_data_update (m : Msg)
| frame_pong
| frame_other
| frame_malformed.

(** Outcome of an awaited [fetch(...)] followed by [res.json()]. *)
Inductive Response (A : Type) :=
| resp_json (body : A)
| resp_rejected.
Arguments resp_json {A} body.
Arguments resp_rejected {A}.

Inductive TimerKind := tk_apr | tk_loan | tk_search.

(** What the page reacts to. *)
Inductive Event :=
| ev_open
| ev_message (f : Frame)
| ev_close
| ev_error
| ev_rest (r : Response Msg)
| ev_sort (col : Column)
| ev_source (v : string)
| ev_available (v : string)
| ev_apr (v : option Q)
| ev_loan (v : option Q)
| ev_search (v : string)
| ev_timer (k : TimerKind).

(** Body of [GET /api/history/<token>]. *)
Record Point := {
  pt_timestamp : Z;
  pt_net_apr : option Q;
  pt_gate_apr : option Q;
  pt_borrow_rate : option Q
}.

Record Trend := {
  trend_dir : string;
  trend_strength : string
}.

Inductive History :=
| hist_null
| hist_array (points : list Point)
| hist_object (points : option (list Point)) (trend : option Trend).

(** A [Chart] drawn on the canvas: the series it was built from. *)
Record Chart := {
  chart_token : string;
  chart_points : list Point
}.

(** The chart modal: its visibility, the token, trend badge and error
    mark of its title, the [chartInstance] variable, and how many [Chart]
    objects have been created and not destroyed. *)
Record Modal := {
  modal_visible : bool;
  modal_title : string;
  modal_trend : option Trend;
  modal_error : bool;
  chartInstance : option Chart;
  live_charts : nat
}.

Local Open Scope string_scope.

(** ** The page as it is loaded *)

(** The [state] object as each copy declares it: [app.js] declares
    neither [wsRetries] nor [maxWsRetries]. *)
Definition state0 (sc : script) : State :=
  {| data := []; filtered := [];
     sortCol := col_net_apr; sortAsc := false;
     ws := None;
     wsRetries := match sc with app_js => None | part_000 => Some 0%nat end;
     maxWsRetries := match sc with app_js => None | part_000 => Some 50%nat end;
     pingInterval := false;
     lastUpdate := None |}.

(** Controls at their no-constraint values. *)
Definition filters0 : Filters :=
  {| filterSource := "all"; filterApr := None; filterLoanSize := None;
     filterSearch := ""; filterAvailable := "all" |}.

Definition kpi0 : Kpi :=
  {| kpiBestApr := "--"; kpiOppsCount := "--"; kpiTrendCount := "--";
     kpiLastUpdate := "--"; kpiTotal := "--"; kpiTopApr := "--";
     kpiAvgApr := "--"; kpiHigh := "--"; kpiTime := "--"; kpiDbRows := "--" |}.

Definition dom0 : Dom :=
  {| wsStatus := pill_static;
     dataStatus := {| pill_tokens := None; pill_flash := false |};
     btnRefresh := {| btn_disabled := false; btn_text := "🔄" |};
     kpi := kpi0;
     filters := filters0;
     filteredCount := "0";
     tbody := tb_static |}.

Definition page0 (sc : script) : Page :=
  {| state := state0 sc; dom := dom0;
     debounce := {| timer_apr := false; timer_loan := false; timer_search := false |} |}.

Definition modal0 : Modal :=
  {| modal_visible := false; modal_title := ""; modal_trend := None;
     modal_error := false; chartInstance := None; live_charts := 0 |}.

(** ** Sample values *)

Definition token (name : string) : Opportunity :=
  {| currency := name; gate_apr := None; okx_loan_rate := None;
     binance_loan_rate := None; net_apr := None; effective_ev := None;
     best_loan_source := None; available := None; status := None;
     okx_avail_loan := None; gate_wd_fee_usd := None |}.

Definition ETH : Opportunity :=
  {| currency := "ETH"; gate_apr := Some 55; okx_loan_rate := None;
     binance_loan_rate := None; net_apr := Some 60; effective_ev := None;
     best_loan_source := None; available := Some true; status := None;
     okx_avail_loan := None; gate_wd_fee_usd := None |}.

Definition BTC : Opportunity :=
  {| currency := "BTC"; gate_apr := None; okx_loan_rate := None;
     binance_loan_rate := None; net_apr := Some 10; effective_ev := None;
     best_loan_source := None; available := Some false; status := None;
     okx_avail_loan := None; gate_wd_fee_usd := None |}.

Definition snapshot : Msg :=
  {| msg_data := Some [ETH; BTC]; msg_timestamp := Some "2024-01-01T00:00:00Z" |}.

Definition empty_snapshot : Msg :=
  {| msg_data := Some []; msg_timestamp := Some "2024-01-01T00:01:00Z" |}.


(** Stand-ins for the host functions, for evaluating the script on the
    sample values: comparison by code units, and printers that return a
    fixed text. *)
Definition byteCompare (a b : string) : Z :=
  match String.compare a b with
  | Lt => (-1)%Z
  | Eq => 0%Z
  | Gt => 1%Z
  end.

Definition noString (x : Q) : string := "1e+21".
Definition noTime (t : string) : string := "00:00:00".

(** ** The script *)
Section Dashboard.

(** [a.localeCompare(b)] *)
Variable localeCompare : string -> string -> Z.
(** [String(x)], which [toFixed] returns for [x >= 1e21]. *)
Variable NumberToString : Q -> string.
(** [new Date(t).toLocaleTimeString()] *)
Variable toLocaleTimeString : string -> string.

(** *** Helpers *)

(** [num.toFixed(2)] *)
Definition toFixed2 (x : Q) : string :=
  let s := if JS.ltb x 0 then "-" else "" in
  let a := Qabs x in
  let m :=
    if Qle_bool (inject_Z (10 ^ 21)) a then NumberToString a
    else
      let n := JS.hundredths a in
      JS.digits (n / 100) ++ "." ++ JS.two_digits (n mod 100)
  in
  s ++ m.

(** [window.fmt] *)
Definition fmt (val : option Q) : string :=
  match val with
  | None => "—"
  | Some num => toFixed2 num
  end.

Definition esc_char (c : ascii) : string :=
  if Ascii.eqb c "&" then "&amp;"
  else if Ascii.eqb c "<" then "&lt;"
  else if Ascii.eqb c ">" then "&gt;"
  else if Ascii.eqb c "034" then "&quot;"
  else if Ascii.eqb c "'" then "&#039;"
  else String c "".

(** [window.esc] *)
Fixpoint esc (str : string) : string :=
  match str with
  | EmptyString => ""
  | String c s => esc_char c ++ esc s
  end.

(** [x === 'lit'] for a property that may be absent. *)
Definition is_str (x : option string) (lit : string) : bool :=
  match x with
  | Some s => String.eqb s lit
  | None => false
  end.

(** [x === b] for a property that may be absent. *)
Definition is_bool (x : option bool) (b : bool) : bool :=
  match x with
  | Some v => Bool.eqb v b
  | None => false
  end.

(** *** [applyFiltersAndRender]: the filters *)

(** [d.net_apr || 0] *)
Definition net_apr_or0 (d : Opportunity) : Q := JS.or_num (net_apr d) 0.

(** Source filter. *)
Definition bySource (sc : script) (source : string)
    (data : list Opportunity) : list Opportunity :=
  if source =? "okx" then
    match sc with
    | app_js => filter (fun d => is_str (best_loan_source d) "OKX") data
    | part_000 => filter (fun d => JS.ltb 0 (JS.or_num (okx_loan_rate d) 0)) data
    end
  else if source =? "binance" then
    match sc with
    | app_js => filter (fun d => is_str (best_loan_source d) "Binance") data
    | part_000 => filter (fun d => JS.ltb 0 (JS.or_num (binance_loan_rate d) 0)) data
    end
  else data.

(** APR filter. *)
Definition byApr (value : option Q) (data : list Opportunity) : list Opportunity :=
  let minApr := JS.or_num value 0 in
  if negb (Qeq_bool minApr 0) then
    filter (fun d => Qle_bool minApr (net_apr_or0 d)) data
  else data.

(** Search filter. *)
Definition bySearch (value : string) (data : list Opportunity) : list Opportunity :=
  let search := JS.toUpperCase (JS.trim value) in
  if JS.truthy_str search then
    filter (fun d =>
              JS.includes (JS.toUpperCase (JS.or_str (Some (currency d)) "")) search)
           data
  else data.

Definition AVAILABLE : string := "✅ AVAILABLE".
Definition NOT_AVAILABLE : string := "❌ NOT AVAILABLE".

(** Available filter. *)
Definition byAvailable (avail : string) (data : list Opportunity) : list Opportunity :=
  if avail =? "available" then
    filter (fun d => is_bool (available d) true || is_str (status d) AVAILABLE) data
  else if avail =? "unavailable" then
    filter (fun d => is_bool (available d) false || is_str (status d) NOT_AVAILABLE) data
  else data.

(** *** [applyFiltersAndRender]: the sort *)

(** [a[col]] for a numeric column. *)
Definition num_prop (col : Column) (a : Opportunity) : option Q :=
  match col with
  | col_currency => None
  | col_gate_apr => gate_apr a
  | col_okx_loan_rate => okx_loan_rate a
  | col_binance_loan_rate => binance_loan_rate a
  | col_net_apr => net_apr a
  | col_effective_ev => effective_ev a
  | col_okx_avail_loan => okx_avail_loan a
  | col_gate_wd_fee_usd => gate_wd_fee_usd a
  | col_other _ => None
  end.

(** The comparison function handed to [data.sort].  [typeof va] is
    ['string'] exactly in the textual column, where both values are
    strings.  (A row without [currency], which the data model excludes,
    would bring the number of [?? 0] into the string branch.) *)
Definition sortCompare (col : Column) (asc : bool) (a b : Opportunity) : Q :=
  match col with
  | col_currency =>
      let va := currency a in
      let vb := currency b in
      inject_Z (if asc then localeCompare va vb else localeCompare vb va)
  | _ =>
      let va := JS.nullish (num_prop col a) in
      let vb := JS.nullish (num_prop col b) in
      if asc then va - vb else vb - va
  end.

(** *** [renderTable] *)

(** The demo signal: [hash] of the token name. *)
Definition hash (token : string) : Z :=
  fold_left
    (fun a b => JS.toInt32 (JS.shl a 5 - a + Z.of_nat (nat_of_ascii b)))
    (list_ascii_of_string token) 0%Z.

Definition isAvailable (d : Opportunity) : bool :=
  is_bool (available d) true || is_str (status d) AVAILABLE.

(** [(netApr / 100 / 365) * loanSize] *)
Definition dailyEarn (netApr loanSize : Q) : Q :=
  JS.mul (JS.div (JS.div netApr 100) 365) loanSize.

(** The same expression on the primitive floats. *)
Definition dailyEarn64 (netApr loanSize : float) : float :=
  ((netApr / 100 / 365) * loanSize)%float.

(** The body of the [data.map] callback of [app.js]. *)
Definition renderRow (loanSizeValue : option Q) (d : Opportunity) : Row :=
  let netApr := JS.or_num (net_apr d) 0 in
  let gateApr := JS.or_num (gate_apr d) 0 in
  let okxRate := JS.or_num (okx_loan_rate d) 0 in
  let binanceRate := JS.or_num (binance_loan_rate d) 0 in
  let maxLoan := JS.or_num (okx_avail_loan d) 0 in
  let source := JS.or_str (best_loan_source d) "None" in
  let effEv := JS.or_num (effective_ev d) 0 in
  let gateWd := JS.or_num (gate_wd_fee_usd d) 0 in
  let borrowRate :=
    if JS.includes (JS.toLowerCase source) "okx" then okxRate
    else if JS.includes (JS.toLowerCase source) "binance" then binanceRate
    else 0%Q in
  let loanSize := JS.or_num loanSizeValue 1000 in
  let sigIndex := (Z.abs (hash (currency d)) mod 4)%Z in
  {| row_token := currency d;
     row_label := esc (JS.or_str (Some (currency d)) "—");
     row_sigIndex := sigIndex;
     row_gateApr := gateApr;
     row_borrowRate := borrowRate;
     row_gateWd := gateWd;
     row_netApr := netApr;
     row_dailyEarn := dailyEarn netApr loanSize;
     row_effEv := effEv;
     row_source := source;
     row_maxLoan := maxLoan;
     row_isAvailable := isAvailable d |}.

(** The body of the [data.map] callback of [part_000]. *)
Definition renderRow0 (d : Opportunity) : Row0 :=
  {| row0_token := currency d;
     row0_label := esc (JS.or_str (Some (currency d)) "—");
     row0_gateApr := JS.or_num (gate_apr d) 0;
     row0_okxRate := JS.or_num (okx_loan_rate d) 0;
     row0_binanceRate := JS.or_num (binance_loan_rate d) 0;
     row0_netApr := JS.or_num (net_apr d) 0;
     row0_source := JS.or_str (best_loan_source d) "None";
     row0_maxLoan := JS.or_num (okx_avail_loan d) 0;
     row0_isAvailable := isAvailable d |}.

(** [renderTable].  The [catch] branch is not reached on rows of type
    [Opportunity]: no step of the callback throws on them. *)
Definition renderTable (sc : script) (loanSizeValue : option Q)
    (data : list Opportunity) : Tbody :=
  match data with
  | [] => tb_no_match
  | _ :: _ =>
      match sc with
      | app_js => tb_rows (map (renderRow loanSizeValue) data)
      | part_000 => tb_rows0 (map renderRow0 data)
      end
  end.

(** *** [applyFiltersAndRender] *)

Definition count_text (n : nat) : string := JS.digits (Z.of_nat n).

Definition applyFiltersAndRender (sc : script) (p : Page) : Page :=
  let data := data (state p) in
  let data := bySource sc (filterSource (filters (dom p))) data in
  let data := byApr (filterApr (filters (dom p))) data in
  let data := bySearch (filterSearch (filters (dom p))) data in
  let data := byAvailable (filterAvailable (filters (dom p))) data in
  let data := JS.sort (sortCompare (sortCol (state p)) (sortAsc (state p))) data in
  let p := with_state (set_filtered data) p in
  with_dom
    (set_table (count_text (length data))
               (renderTable sc (filterLoanSize (filters (dom p))) data))
    p.


(** *** [updateKPIs] *)

Definition set_kpi_app_js (count best : string) (time : option string) (k : Kpi) : Kpi :=
  {| kpiBestApr := best;
     kpiOppsCount := count;
     kpiTrendCount := kpiTrendCount k;
     kpiLastUpdate := match time with Some t => t | None => kpiLastUpdate k end;
     kpiTotal := kpiTotal k; kpiTopApr := kpiTopApr k; kpiAvgApr := kpiAvgApr k;
     kpiHigh := kpiHigh k; kpiTime := kpiTime k; kpiDbRows := kpiDbRows k |}.

Definition set_kpi_part_000 (total top avg high : string) (time : option string)
    (k : Kpi) : Kpi :=
  {| kpiBestApr := kpiBestApr k; kpiOppsCount := kpiOppsCount k;
     kpiTrendCount := kpiTrendCount k; kpiLastUpdate := kpiLastUpdate k;
     kpiTotal := total;
     kpiTopApr := top;
     kpiAvgApr := avg;
     kpiHigh := high;
     kpiTime := match time with Some t => t | None => kpiTime k end;
     kpiDbRows := kpiDbRows k |}.

(** [if (state.lastUpdate) { ... d.toLocaleTimeString() }] *)
Definition update_time (lastUpdate : option string) : option string :=
  match lastUpdate with
  | Some t => if JS.truthy_str t then Some (toLocaleTimeString t) else None
  | None => None
  end.

(** [updateKPIs].  In [part_000] the average is the sum that [reduce]
    accumulates from 0, divided by the number of rows. *)
Definition updateKPIs (sc : script) (p : Page) : Page :=
  match data (state p) with
  | [] => p
  | d :: rest =>
      let netAprs := map net_apr_or0 (d :: rest) in
      let topApr := JS.Math_max (net_apr_or0 d) (map net_apr_or0 rest) in
      let count := count_text (length (d :: rest)) in
      let time := update_time (lastUpdate (state p)) in
      match sc with
      | app_js =>
          with_dom (fun dm =>
            set_kpi (set_kpi_app_js count (fmt (Some topApr) ++ "%") time (kpi dm)) dm) p
      | part_000 =>
          let avgApr :=
            JS.div (fold_left JS.add netAprs 0)
                   (inject_Z (Z.of_nat (length netAprs))) in
          let highCount := length (filter (fun a => JS.ltb 50 a) netAprs) in
          with_dom (fun dm =>
            set_kpi (set_kpi_part_000 count (fmt (Some topApr) ++ "%")
                       (fmt (Some avgApr) ++ "%") (count_text highCount) time (kpi dm))
                    dm) p
      end
  end.

(** *** [handleDataUpdate]

    The last statement, [populateTokenDropdowns], rebuilds the options of
    the bot and borrow selects, which no function below reads. *)
Definition handleDataUpdate (sc : script) (p : Page) (msg : Msg) : Page * list Effect :=
  let received := match msg_data msg with Some l => l | None => [] end in
  let p := with_state (set_data received (msg_timestamp msg)) p in
  let p := with_dom (set_dataStatus
             {| pill_tokens := Some (length (data (state p)));
                pill_flash := false |}) p in
  let p := applyFiltersAndRender sc p in
  let p := updateKPIs sc p in
  let p := with_dom (fun dm => set_dataStatus
             {| pill_tokens := pill_tokens (dataStatus dm); pill_flash := true |} dm) p in
  (p, [SetTimeout cb_unflash 600]).

(** *** [connectWebSocket] and its handlers *)

Definition connectWebSocket (p : Page) : Page * list Effect :=
  (with_dom (set_wsStatus pill_connecting) p, [NewWebSocket "/ws/live"]).

Definition clear_ping (p : Page) : list Effect :=
  if pingInterval (state p) then [ClearInterval] else [].

Definition onopen (p : Page) : Page * list Effect :=
  let cleared := clear_ping p in
  let p := with_state (set_ws (Some OPEN) (Some 0%nat) true) p in
  (with_dom (set_wsStatus pill_live) p,
   ConsoleLog "[WS] Connected" :: (cleared ++ [SetInterval "ping" 10000])%list).

Definition onmessage (sc : script) (p : Page) (f : Frame) : Page * list Effect :=
  match f with
  | frame_data_update msg => handleDataUpdate sc p msg
  | frame_pong => (p, [])
  | frame_other => (p, [])
  | frame_malformed => (p, [ConsoleError "[WS] Parse error:"])
  end.

(** [Math.min(1000 * Math.pow(1.5, state.wsRetries), 30000)].  The
    power is a dyadic rational, exact in binary64 as long as the product
    stays below the cap. *)
Definition reconnectDelay (retries : nat) : Q :=
  JS.Math_min (1000 * JS.Math_pow (3 # 2) retries)%Q 30000.

(** [state.wsRetries < state.maxWsRetries]: a comparison with
    [undefined] is false. *)
Definition may_retry (s : State) : option nat :=
  match wsRetries s, maxWsRetries s with
  | Some r, Some m => if (r <? m)%nat then Some r else None
  | _, _ => None
  end.

Definition onclose (p : Page) : Page * list Effect :=
  let cleared := clear_ping p in
  let p := with_state (fun s => set_ws None (wsRetries s) (pingInterval s) s) p in
  let p := with_dom (set_wsStatus pill_disconnected) p in
  match may_retry (state p) with
  | Some r =>
      let delay := reconnectDelay r in
      (with_state (fun s => set_ws (ws s) (Some (S r)) (pingInterval s) s) p,
       (cleared ++ [ConsoleLog "[WS] Disconnected";
                    SetTimeout cb_connectWebSocket delay])%list)
  | None => (p, (cleared ++ [ConsoleLog "[WS] Disconnected"])%list)
  end.

Definition onerror (p : Page) : Page * list Effect :=
  (with_dom (set_wsStatus pill_error) p, []).

(** *** [fetchDataREST] *)

(** The request. *)
Definition fetchDataREST (sc : script) (p : Page) : list Effect :=
  match sc with
  | app_js => [Fetch "GET" ("/api/opportunities?source=" ++ filterSource (filters (dom p)))]
  | part_000 => [Fetch "GET" "/api/opportunities"]
  end.

(** What follows the two [await]s. *)
Definition fetchDataREST_done (sc : script) (p : Page) (r : Response Msg)
    : Page * list Effect :=
  match r with
  | resp_json json => handleDataUpdate sc p json
  | resp_rejected => (p, [ConsoleError "[REST] Fetch failed:"])
  end.

(** *** [initSorting]: the click listener of a sortable header *)
Definition Column_eqb (a b : Column) : bool :=
  match a, b with
  | col_currency, col_currency
  | col_gate_apr, col_gate_apr
  | col_okx_loan_rate, col_okx_loan_rate
  | col_binance_loan_rate, col_binance_loan_rate
  | col_net_apr, col_net_apr
  | col_effective_ev, col_effective_ev
  | col_okx_avail_loan, col_okx_avail_loan
  | col_gate_wd_fee_usd, col_gate_wd_fee_usd => true
  | col_other x, col_other y => String.eqb x y
  | _, _ => false
  end.

Definition sortClick (sc : script) (col : Column) (p : Page) : Page :=
  let p :=
    if Column_eqb (sortCol (state p)) col
    then with_state (fun s => set_sort (sortCol s) (negb (sortAsc s)) s) p
    else with_state (set_sort col false) p in
  applyFiltersAndRender sc p.

(** *** [initFilters]: the listeners of the controls

    The browser stores the new value in the control and then calls the
    listener.  The listeners of the APR, loan-size and search boxes are
    wrapped in [debounce]: a call re-arms the timer of the box, and the
    wrapped function runs when the timer fires. *)

Definition set_source (v : string) (f : Filters) : Filters :=
  {| filterSource := v; filterApr := filterApr f; filterLoanSize := filterLoanSize f;
     filterSearch := filterSearch f; filterAvailable := filterAvailable f |}.

Definition set_apr (v : option Q) (f : Filters) : Filters :=
  {| filterSource := filterSource f; filterApr := v; filterLoanSize := filterLoanSize f;
     filterSearch := filterSearch f; filterAvailable := filterAvailable f |}.

Definition set_loan (v : option Q) (f : Filters) : Filters :=
  {| filterSource := filterSource f; filterApr := filterApr f; filterLoanSize := v;
     filterSearch := filterSearch f; filterAvailable := filterAvailable f |}.

Definition set_search (v : string) (f : Filters) : Filters :=
  {| filterSource := filterSource f; filterApr := filterApr f;
     filterLoanSize := filterLoanSize f;
     filterSearch := v; filterAvailable := filterAvailable f |}.

Definition set_available (v : string) (f : Filters) : Filters :=
  {| filterSource := filterSource f; filterApr := filterApr f;
     filterLoanSize := filterLoanSize f;
     filterSearch := filterSearch f; filterAvailable := v |}.

Definition input (f : Filters -> Filters) (p : Page) : Page :=
  with_dom (fun dm => set_filters (f (filters dm)) dm) p.

Definition arm (k : TimerKind) (d : Debounce) : Debounce :=
  match k with
  | tk_apr => {| timer_apr := true; timer_loan := timer_loan d; timer_search := timer_search d |}
  | tk_loan => {| timer_apr := timer_apr d; timer_loan := true; timer_search := timer_search d |}
  | tk_search => {| timer_apr := timer_apr d; timer_loan := timer_loan d; timer_search := true |}
  end.

Definition disarm (k : TimerKind) (d : Debounce) : Debounce :=
  match k with
  | tk_apr => {| timer_apr := false; timer_loan := timer_loan d; timer_search := timer_search d |}
  | tk_loan => {| timer_apr := timer_apr d; timer_loan := false; timer_search := timer_search d |}
  | tk_search => {| timer_apr := timer_apr d; timer_loan := timer_loan d; timer_search := false |}
  end.

Definition armed (k : TimerKind) (d : Debounce) : bool :=
  match k with
  | tk_apr => timer_apr d
  | tk_loan => timer_loan d
  | tk_search => timer_search d
  end.

Definition sourceChange (sc : script) (v : string) (p : Page) : Page * list Effect :=
  let p := input (set_source v) p in
  match sc with
  | app_js => (applyFiltersAndRender sc p, fetchDataREST sc p)
  | part_000 => (applyFiltersAndRender sc p, [])
  end.

Definition availableChange (sc : script) (v : string) (p : Page) : Page :=
  applyFiltersAndRender sc (input (set_available v) p).

(** One step of the page. *)
Definition step (sc : script) (p : Page) (e : Event) : Page * list Effect :=
  match e with
  | ev_open => onopen p
  | ev_message f => onmessage sc p f
  | ev_close => onclose p
  | ev_error => onerror p
  | ev_rest r => fetchDataREST_done sc p r
  | ev_sort col => (sortClick sc col p, [])
  | ev_source v => sourceChange sc v p
  | ev_available v => (availableChange sc v p, [])
  | ev_apr v => (with_debounce (arm tk_apr) (input (set_apr v) p), [])
  | ev_loan v =>
      match sc with
      | app_js => (with_debounce (arm tk_loan) (input (set_loan v) p), [])
      | part_000 => (p, [])
      end
  | ev_search v => (with_debounce (arm tk_search) (input (set_search v) p), [])
  | ev_timer k =>
      if armed k (debounce p)
      then (applyFiltersAndRender sc (with_debounce (disarm k) p), [])
      else (p, [])
  end.

Fixpoint run (sc : script) (p : Page) (es : list Event) : Page :=
  match es with
  | [] => p
  | e :: es' => run sc (fst (step sc p e)) es'
  end.

(** *** [initRefresh]: the click listener of the refresh button

    [posted] and [pulled] are the outcomes of the two requests the
    listener may await.  In [app.js] the body of the [if] starts with
    [await res.json()] where no [res] is in scope: evaluating it throws a
    [ReferenceError], which the [catch] logs. *)
Definition ws_open (s : State) : bool :=
  match ws s with
  | Some OPEN => true
  | _ => false
  end.

Definition refreshClick (sc : script) (p : Page)
    (posted : Response (option string)) (pulled : Response Msg)
    : Page * list Effect :=
  let p := with_dom (set_btnRefresh {| btn_disabled := true; btn_text := "⏳" |}) p in
  let '(p, tried) :=
    match sc with
    | app_js =>
        if ws_open (state p) then (p, [ConsoleError "Refresh failed:"])
        else (p, [])
    | part_000 =>
        if ws_open (state p) then (p, [WsSend "refresh"])
        else
          match posted with
          | resp_rejected =>
              (p, [Fetch "POST" "/api/refresh"; ConsoleError "Refresh failed:"])
          | resp_json json_status =>
              if is_str json_status "ok" then
                match pulled with
                | resp_rejected =>
                    (p, [Fetch "POST" "/api/refresh"; Fetch "GET" "/api/opportunities";
                         ConsoleError "Refresh failed:"])
                | resp_json dataJson =>
                    let '(p, es) := handleDataUpdate sc p dataJson in
                    (p, ([Fetch "POST" "/api/refresh"; Fetch "GET" "/api/opportunities"]
                           ++ es)%list)
                end
              else (p, [Fetch "POST" "/api/refresh"])
          end
    end in
  (p, (tried ++ [SetTimeout cb_enableRefresh 2000])%list).

(** *** [openChartModal] and [renderChart]

    The modal, its title and the canvas are elements of the page.
    [fetched] is the outcome of the request for the history of the token;
    a timestamp is the time value of its [Date]. *)

(** [renderChart]: [None] when [history.sort] throws because [history]
    is [undefined]. *)
Definition renderChart (m : Modal) (history : option (list Point)) (token : string)
    : option Modal :=
  match history with
  | None => None
  | Some history =>
      let history :=
        JS.sort (fun a b => inject_Z (pt_timestamp a - pt_timestamp b)) history in
      let netAprs := map pt_net_apr history in
      match netAprs with
      | [] => Some m
      | _ :: _ =>
          let chart := {| chart_token := token; chart_points := history |} in
          Some {| modal_visible := modal_visible m; modal_title := modal_title m;
                  modal_trend := modal_trend m; modal_error := modal_error m;
                  chartInstance := Some chart;
                  live_charts := S (live_charts m) |}
      end
  end.

Definition chart_failed (m : Modal) : Modal * list Effect :=
  ({| modal_visible := modal_visible m; modal_title := modal_title m;
      modal_trend := modal_trend m; modal_error := true;
      chartInstance := chartInstance m; live_charts := live_charts m |},
   [ConsoleError "Failed to load chart data:"]).

Definition NO_HISTORY : string := "No history data available for this token yet.".

Definition openChartModal (m : Modal) (token : string) (fetched : Response History)
    : Modal * list Effect :=
  let m :=
    {| modal_visible := true; modal_title := token; modal_trend := None;
       modal_error := false;
       chartInstance := None;
       live_charts :=
         match chartInstance m with
         | Some _ => pred (live_charts m)
         | None => live_charts m
         end |} in
  let request := Fetch "GET" ("/api/history/" ++ token) in
  match fetched with
  | resp_rejected =>
      let '(m, es) := chart_failed m in (m, request :: es)
  | resp_json hist_null => (m, [request; Alert NO_HISTORY])
  | resp_json (hist_array []) => (m, [request; Alert NO_HISTORY])
  | resp_json (hist_array (_ :: _)) =>
      (* [data.data] is [undefined] on an array *)
      match renderChart m None token with
      | Some m' => (m', [request])
      | None => let '(m, es) := chart_failed m in (m, request :: es)
      end
  | resp_json (hist_object points trend) =>
      let m :=
        {| modal_visible := modal_visible m; modal_title := modal_title m;
           modal_trend := trend; modal_error := modal_error m;
           chartInstance := chartInstance m; live_charts := live_charts m |} in
      match renderChart m points token with
      | Some m' => (m', [request])
      | None => let '(m, es) := chart_failed m in (m, request :: es)
      end
  end.

(** ** The properties the pipeline is checked against *)

(** The filter predicates, each one true when its control is at a value
    that constrains nothing. *)
Definition source_ok (sc : script) (source : string) (d : Opportunity) : Prop :=
  (source = "okx" ->
   match sc with
   | app_js => best_loan_source d = Some "OKX"
   | part_000 => (0 < JS.or_num (okx_loan_rate d) 0)%Q
   end) /\
  (source = "binance" ->
   match sc with
   | app_js => best_loan_source d = Some "Binance"
   | part_000 => (0 < JS.or_num (binance_loan_rate d) 0)%Q
   end).

Definition apr_ok (value : option Q) (d : Opportunity) : Prop :=
  (JS.or_num value 0 == 0)%Q \/ (JS.or_num value 0 <= JS.or_num (net_apr d) 0)%Q.

Definition search_ok (value : string) (d : Opportunity) : Prop :=
  JS.toUpperCase (JS.trim value) = "" \/
  exists pre post,
    JS.toUpperCase (currency d) = pre ++ JS.toUpperCase (JS.trim value) ++ post.

Definition available_ok (avail : string) (d : Opportunity) : Prop :=
  (avail = "available" ->
   available d = Some true \/ status d = Some AVAILABLE) /\
  (avail = "unavailable" ->
   available d = Some false \/ status d = Some NOT_AVAILABLE).

Definition passes (sc : script) (f : Filters) (d : Opportunity) : Prop :=
  source_ok sc (filterSource f) d /\
  apr_ok (filterApr f) d /\
  search_ok (filterSearch f) d /\
  available_ok (filterAvailable f) d.

(** The same conjunction as a test. *)
Definition keeps (sc : script) (f : Filters) (d : Opportunity) : bool :=
  (if filterSource f =? "okx" then
     match sc with
     | app_js => is_str (best_loan_source d) "OKX"
     | part_000 => JS.ltb 0 (JS.or_num (okx_loan_rate d) 0)
     end
   else if filterSource f =? "binance" then
     match sc with
     | app_js => is_str (best_loan_source d) "Binance"
     | part_000 => JS.ltb 0 (JS.or_num (binance_loan_rate d) 0)
     end
   else true)
  && (if negb (Qeq_bool (JS.or_num (filterApr f) 0) 0)
      then Qle_bool (JS.or_num (filterApr f) 0) (net_apr_or0 d) else true)
  && (if JS.truthy_str (JS.toUpperCase (JS.trim (filterSearch f)))
      then JS.includes (JS.toUpperCase (currency d))
                       (JS.toUpperCase (JS.trim (filterSearch f)))
      else true)
  && (if filterAvailable f =? "available" then
        is_bool (available d) true || is_str (status d) AVAILABLE
      else if filterAvailable f =? "unavailable" then
        is_bool (available d) false || is_str (status d) NOT_AVAILABLE
      else true).

(** [sort(filter(snapshot))] for the controls and the sort state of the
    page. *)
Definition pipeline (sc : script) (p : Page) : list Opportunity :=
  JS.sort (sortCompare (sortCol (state p)) (sortAsc (state p)))
          (filter (keeps sc (filters (dom p))) (data (state p))).

(** The table shows the pipeline's result for the page as it is now. *)
Definition Rendered (sc : script) (p : Page) : Prop :=
  filtered (state p) = pipeline sc p /\
  filteredCount (dom p) = count_text (length (pipeline sc p)) /\
  tbody (dom p) = renderTable sc (filterLoanSize (filters (dom p))) (pipeline sc p).

(** No debounce timer is armed. *)
Definition quiet (p : Page) : bool :=
  negb (timer_apr (debounce p)) && negb (timer_loan (debounce p))
  && negb (timer_search (debounce p)).

(** The events whose listener runs [applyFiltersAndRender] before it
    returns. *)
Definition rerenders (p : Page) (e : Event) : bool :=
  match e with
  | ev_message (frame_data_update _) => true
  | ev_rest (resp_json _) => true
  | ev_sort _ | ev_source _ | ev_available _ => true
  | ev_timer k => armed k (debounce p)
  | _ => false
  end.

(** The snapshot an event delivers. *)
Definition delivered (e : Event) : option (list Opportunity) :=
  match e with
  | ev_message (frame_data_update m) | ev_rest (resp_json m) =>
      Some match msg_data m with Some l => l | None => [] end
  | _ => None
  end.

(** The timer that an edit of a debounced box arms; [part_000] has no
    loan-size box. *)
Definition debounced (sc : script) (e : Event) : option TimerKind :=
  match e with
  | ev_apr _ => Some tk_apr
  | ev_search _ => Some tk_search
  | ev_loan _ => match sc with app_js => Some tk_loan | part_000 => None end
  | _ => None
  end.

(** The controls after an edit of a debounced box. *)
Definition edited (e : Event) (f : Filters) : Filters :=
  match e with
  | ev_apr v => set_apr v f
  | ev_loan v => set_loan v f
  | ev_search v => set_search v f
  | _ => f
  end.

(** The element that shows the best APR. *)
Definition kpi_best (sc : script) (k : Kpi) : string :=
  match sc with
  | app_js => kpiBestApr k
  | part_000 => kpiTopApr k
  end.

(** The delays of the reconnections a list of effects schedules. *)
Definition scheduled (es : list Effect) : list Q :=
  flat_map (fun e => match e with
                     | SetTimeout cb_connectWebSocket d => [d]
                     | _ => []
                     end) es.

(** [n] disconnections in a row: each [onclose] is followed, when it
    scheduled one, by the [connectWebSocket] of the timer, whose socket
    fails in its turn.  The result lists the delays scheduled and the
    page reached. *)
Fixpoint disconnects (n : nat) (p : Page) : list Q * Page :=
  match n with
  | O => ([], p)
  | S n' =>
      let '(p1, es) := onclose p in
      let p2 :=
        match scheduled es with
        | [] => p1
        | _ :: _ => fst (onerror (fst (connectWebSocket p1)))
        end in
      let '(ds, p3) := disconnects n' p2 in
      ((scheduled es ++ ds)%list, p3)
  end.

(** The reconnections [onclose] is still ready to schedule, and the ones
    it has counted. *)
Definition attempts_left (s : State) : nat :=
  match wsRetries s, maxWsRetries s with
  | Some r, Some m => m - r
  | _, _ => 0
  end.

Definition retries_done (s : State) : nat :=
  match wsRetries s with
  | Some r => r
  | None => 0
  end.

(** What the script needs of [localeCompare]. *)
Definition locale_consistent : Prop :=
  (forall a b, (0 < localeCompare a b)%Z <-> (localeCompare b a < 0)%Z) /\
  (forall a b c, (localeCompare a b <= 0)%Z -> (localeCompare b c <= 0)%Z ->
                 (localeCompare a c <= 0)%Z).

(** An effect that reaches the network. *)
Definition network (e : Effect) : bool :=
  match e with
  | NewWebSocket _ | WsSend _ | Fetch _ _ => true
  | _ => false
  end.

(** ** More of the script *)

(** *** [window.sourceClass] *)
Definition sourceClass (source : string) : string :=
  if negb (JS.truthy_str source) then ""
  else
    let s := JS.toLowerCase source in
    if JS.includes s "gate" then "source-gate"
    else if JS.includes s "okx" then "source-okx"
    else if JS.includes s "binance" then "source-binance"
    else "".

(** *** [populateTokenDropdowns]

    A [<select>] of the page: its options and its value.  A select whose
    options are replaced shows the first of them until a value is
    assigned.  [None] stands for a target that is not in the page. *)
Record Select := {
  sel_options : list string;
  sel_value : string
}.

(** [[...new Set(xs)]]: the first occurrence of each element, in order. *)
Fixpoint dedupe (xs : list string) : list string :=
  match xs with
  | [] => []
  | x :: xs' => x :: filter (fun y => negb (String.eqb x y)) (dedupe xs')
  end.

(** [xs.sort()]: the default order, by code units. *)
Definition default_sort (xs : list string) : list string :=
  JS.sort (fun a b => inject_Z (byteCompare a b)) xs.

(** The body of [targets.forEach] for a select that exists. *)
Definition rebuild (tokens : list string) (sel : Select) : Select :=
  let currentVal := sel_value sel in
  let shown := match tokens with t :: _ => t | [] => "" end in
  {| sel_options := tokens;
     sel_value :=
       if existsb (String.eqb currentVal) tokens then currentVal
       else if existsb (String.eqb "ETH") tokens && negb (JS.truthy_str currentVal)
            then "ETH"
            else shown |}.

Definition populateTokenDropdowns (data : list Opportunity)
    (targets : list (option Select)) : list (option Select) :=
  match data with
  | [] => targets
  | _ :: _ =>
      let tokens := default_sort (dedupe (map currency data)) in
      map (option_map (rebuild tokens)) targets
  end.

(** *** [fetchSessionStatus]

    The body of [GET /api/browser/session] and what the banner shows for
    it: the age as [ageStr] words it, the icon, and the parts of the
    detail line. *)
Record SessionInfo := {
  session_exists : bool;
  age_minutes : option Q;
  last_login : string;
  cookie_count : option Q;
  profile_exists : bool
}.

Inductive Age :=
| minutes_ago (m : Q)
| hours_ago (h : Z)
| days_ago (d : Z).

Inductive SessionIcon := icon_active | icon_expired | icon_none | icon_unknown.

Record Banner := {
  banner_icon : SessionIcon;
  banner_login : option string;
  banner_age : option Age;
  banner_cookies : option Q;
  banner_profile : bool
}.

Definition ageStr (ageMin : Q) : Age :=
  if JS.ltb ageMin 60 then minutes_ago ageMin
  else if JS.ltb ageMin 1440 then hours_ago (Qfloor (ageMin / 60))
  else days_ago (Qfloor (ageMin / 1440)).

Definition fetchSessionStatus (fetched : Response SessionInfo) : Banner :=
  match fetched with
  | resp_json s =>
      if session_exists s then
        let ageMin := JS.or_num (age_minutes s) 0 in
        {| banner_icon := if JS.ltb 1440 ageMin then icon_expired else icon_active;
           banner_login := Some (last_login s);
           banner_age := Some (ageStr ageMin);
           banner_cookies :=
             match cookie_count s with
             | Some n => if JS.ltb 0 n then Some n else None
             | None => None
             end;
           banner_profile := profile_exists s |}
      else
        {| banner_icon := icon_none; banner_login := None; banner_age := None;
           banner_cookies := None; banner_profile := false |}
  | resp_rejected =>
      {| banner_icon := icon_unknown; banner_login := None; banner_age := None;
         banner_cookies := None; banner_profile := false |}
  end.

(** *** The start of the page

    The timer armed at [DOMContentLoaded]: three seconds later it pulls
    the snapshot if none is cached. *)
Definition startupFallback (sc : script) (p : Page) : list Effect :=
  match data (state p) with
  | [] =>
      ConsoleLog "[REST] WS data not received, falling back to REST"
        :: fetchDataREST sc p
  | _ :: _ => []
  end.

(** ** What the further properties speak of *)

(** The effects of a run of events, in order. *)
Fixpoint trace (sc : script) (p : Page) (es : list Event) : list Effect :=
  match es with
  | [] => []
  | e :: es' => (snd (step sc p e) ++ trace sc (fst (step sc p e)) es')%list
  end.

(** The snapshot delivered last by a list of events, [d0] if none is. *)
Fixpoint latest (es : list Event) (d0 : list Opportunity) : list Opportunity :=
  match es with
  | [] => d0
  | e :: es' =>
      latest es' match delivered e with Some l => l | None => d0 end
  end.

(** The heartbeat intervals alive: how many run, and whether the one
    whose id [state.pingInterval] holds still runs.  [clearInterval] stops
    the interval of the id it is given, once. *)
Record Beats := {
  beats_running : nat;
  beats_stored : bool
}.

Definition beat (b : Beats) (e : Effect) : Beats :=
  match e with
  | SetInterval _ _ => {| beats_running := S (beats_running b); beats_stored := true |}
  | ClearInterval =>
      if beats_stored b
      then {| beats_running := pred (beats_running b); beats_stored := false |}
      else b
  | _ => b
  end.

Definition beats (es : list Effect) (b : Beats) : Beats := fold_left beat es b.

(** The interval whose id is stored is the only one that can run. *)
Definition beats_ok (p : Page) (b : Beats) : Prop :=
  beats_running b = (if beats_stored b then 1 else 0)%nat /\
  (beats_stored b = true -> pingInterval (state p) = true).

(** No two elements of the list share a key. *)
Fixpoint no_ties {A : Type} (comparefn : A -> A -> Q) (l : list A) : bool :=
  match l with
  | [] => true
  | x :: l' => forallb (fun y => negb (same_key comparefn x y)) l' && no_ties comparefn l'
  end.

(** The characters [esc] replaces, and the ones among them that delimit
    markup. *)
Definition markup_char (c : ascii) : bool :=
  Ascii.eqb c "<" || Ascii.eqb c ">" || Ascii.eqb c "034" || Ascii.eqb c "'".

Definition plain_char (c : ascii) : bool :=
  negb (Ascii.eqb c "&" || markup_char c).

Fixpoint all_chars (f : ascii -> bool) (s : string) : bool :=
  match s with
  | EmptyString => true
  | String c s' => f c && all_chars f s'
  end.

(** [netAprs.reduce((a, b) => a + b, 0) / netAprs.length] *)
Definition average (l : list Q) : Q :=
  JS.div (fold_left JS.add l 0) (inject_Z (Z.of_nat (length l))).

(** The average on the primitive floats. *)
Definition average64 (l : list float) : float :=
  (fold_left PrimFloat.add l 0
   / PrimFloat.of_uint63 (Uint63.of_Z (Z.of_nat (length l))))%float.

(** Whether a float is a given number. *)
Definition is_number (f : float) (q : Q) : bool :=
  match JS.Q_of_float f with
  | Some r => Qeq_bool q r
  | None => false
  end.

(** The numbers of a list of floats, 0 for what is not a number. *)
Definition numbers (l : list float) : list Q :=
  map (fun f => match JS.Q_of_float f with Some q => Qred q | None => 0%Q end) l.

(** Whether [dailyEarn] and [average] give on the numbers of the floats
    what [dailyEarn64] and [average64] give on the floats. *)
Definition dailyEarn_agrees (xl : float * float) : bool :=
  match numbers [fst xl; snd xl] with
  | [x; l] => is_number (dailyEarn64 (fst xl) (snd xl)) (dailyEarn x l)
  | _ => false
  end.

Definition average_agrees (l : list float) : bool :=
  is_number (average64 l) (average (numbers l)).

(** The charts a series of row selections leaves: each selection is a
    token and the outcome of its request, handled before the next. *)
Fixpoint selections (m : Modal) (opens : list (string * Response History)) : Modal :=
  match opens with
  | [] => m
  | (tok, fetched) :: opens' => selections (fst (openChartModal m tok fetched)) opens'
  end.

(** ** Facts about the built-ins *)

Lemma ltb_true_iff (x y : Q) : JS.ltb x y = true <-> x < y.
Proof.
  unfold JS.ltb. rewrite negb_true_iff.
  split; intro H.
  - apply Qnot_le_lt. intro Hle. apply Qle_bool_iff in Hle. congruence.
  - destruct (Qle_bool y x) eqn:E; [|reflexivity].
    apply Qle_bool_iff in E. exfalso. apply (Qlt_not_le _ _ H E).
Qed.

Lemma ltb_false_iff (x y : Q) : JS.ltb x y = false <-> y <= x.
Proof.
  unfold JS.ltb. rewrite negb_false_iff. apply Qle_bool_iff.
Qed.

(** [hundredths a] is [100 * a] rounded to the nearest integer, upwards
    on a tie. *)
Lemma hundredths_nearest (a : Q) :
  (inject_Z (JS.hundredths a) <= 100 * a + (1 # 2))%Q /\
  (100 * a + (1 # 2) < inject_Z (JS.hundredths a) + 1)%Q.
Proof.
  destruct a as [n d]. unfold JS.hundredths. cbn [Qnum Qden].
  assert (Hd : (0 < 2 * Z.pos d)%Z) by lia.
  pose proof (Z.mul_div_le (2 * 100 * n + Z.pos d) (2 * Z.pos d) Hd) as Hle.
  pose proof (Z.mul_succ_div_gt (2 * 100 * n + Z.pos d) (2 * Z.pos d) Hd) as Hgt.
  set (q := ((2 * 100 * n + Z.pos d) / (2 * Z.pos d))%Z) in *.
  unfold Qle, Qlt, Qplus, Qmult, inject_Z. cbn [Qnum Qden].
  rewrite ?Pos2Z.inj_mul. split; nia.
Qed.

(** *** Rounding to binary64 *)

Lemma two_pow_pos (e : Z) : 0 < 2 ^ e.
Proof. apply Qpower_0_lt. reflexivity. Qed.

Lemma two_pow_plus (a b : Z) : 2 ^ (a + b) == 2 ^ a * 2 ^ b.
Proof. apply Qpower_plus. discriminate. Qed.

Lemma two_pow_Z (n : Z) : (0 <= n)%Z -> inject_Z (2 ^ n) == 2 ^ n.
Proof. intro H. apply (Zpower_Qpower 2 n H). Qed.

Lemma ilog2_spec (x : Q) : 0 < x -> 2 ^ JS.ilog2 x <= x /\ x < 2 ^ (JS.ilog2 x + 1).
Proof.
  intro Hx. destruct x as [n d].
  assert (Hn : (0 < n)%Z) by (unfold Qlt in Hx; cbn in Hx; lia).
  unfold JS.ilog2. cbn [Qnum Qden].
  set (a := Z.log2 n). set (b := Z.log2 (Z.pos d)).
  pose proof (Z.log2_spec n Hn) as [Ha1 Ha2]. fold a in Ha1, Ha2.
  pose proof (Z.log2_spec (Z.pos d) eq_refl) as [Hb1 Hb2]. fold b in Hb1, Hb2.
  pose proof (Z.log2_nonneg n) as Ha0. fold a in Ha0.
  pose proof (Z.log2_nonneg (Z.pos d)) as Hb0. fold b in Hb0.
  assert (HD : 0 < inject_Z (Z.pos d)) by reflexivity.
  assert (Hx' : n # d == inject_Z n / inject_Z (Z.pos d)) by apply Qmake_Qdiv.
  rewrite Zle_Qle, two_pow_Z in Ha1 by lia.
  rewrite Zlt_Qlt, two_pow_Z in Ha2 by lia.
  rewrite Zle_Qle, two_pow_Z in Hb1 by lia.
  rewrite Zlt_Qlt, two_pow_Z in Hb2 by lia.
  destruct (Qle_bool (2 ^ (a - b)) (n # d)) eqn:E.
  - apply Qle_bool_iff in E. split; [exact E|].
    rewrite Hx'. apply Qlt_shift_div_r; [exact HD|].
    assert (Hp : 2 ^ Z.succ a == 2 ^ (a - b + 1) * 2 ^ b).
    { rewrite <- two_pow_plus. replace (a - b + 1 + b)%Z with (Z.succ a) by lia. reflexivity. }
    pose proof (two_pow_pos (a - b + 1)).
    rewrite Hp in Ha2. nra.
  - assert (E' : n # d < 2 ^ (a - b)).
    { apply Qnot_le_lt. intro H. apply Qle_bool_iff in H. rewrite H in E. discriminate. }
    replace (a - b - 1 + 1)%Z with (a - b)%Z by lia. split; [|exact E'].
    rewrite Hx'. apply Qle_shift_div_l; [exact HD|].
    assert (Hp : 2 ^ a == 2 ^ (a - b - 1) * 2 ^ Z.succ b).
    { rewrite <- two_pow_plus. replace (a - b - 1 + Z.succ b)%Z with a by lia. reflexivity. }
    pose proof (two_pow_pos (a - b - 1)).
    rewrite Hp in Ha1. nra.
Qed.

Lemma ilog2_mono (x y : Q) : 0 < x -> x <= y -> (JS.ilog2 x <= JS.ilog2 y)%Z.
Proof.
  intros Hx Hxy.
  destruct (ilog2_spec x Hx) as [Hx1 _].
  destruct (ilog2_spec y) as [_ Hy2]; [lra|].
  destruct (Z_le_gt_dec (JS.ilog2 x) (JS.ilog2 y)) as [H|H]; [exact H|].
  exfalso.
  assert (Hp : 2 ^ (JS.ilog2 y + 1) <= 2 ^ JS.ilog2 x).
  { apply Qpower_le_compat_l; [lia | discriminate]. }
  lra.
Qed.

Lemma nearest_even_bounds (x : Q) :
  (Qfloor x <= JS.nearest_even x <= Qfloor x + 1)%Z.
Proof.
  unfold JS.nearest_even.
  destruct (Qcompare (x - inject_Z (Qfloor x)) (1 # 2)); [destruct (Z.even _)| |]; lia.
Qed.

Lemma nearest_even_Z (z : Z) : JS.nearest_even (inject_Z z) = z.
Proof.
  unfold JS.nearest_even. rewrite Qfloor_Z.
  destruct (Qcompare (inject_Z z - inject_Z z) (1 # 2)) eqn:E;
    rewrite <- ?Qeq_alt, <- ?Qlt_alt, <- ?Qgt_alt in E; [exfalso; lra | reflexivity | exfalso; lra].
Qed.

Lemma nearest_even_mono (x y : Q) : x <= y -> (JS.nearest_even x <= JS.nearest_even y)%Z.
Proof.
  intro Hxy.
  pose proof (Qfloor_resp_le x y Hxy) as Hf.
  pose proof (nearest_even_bounds x) as Bx.
  pose proof (nearest_even_bounds y) as By.
  destruct (Z.eq_dec (Qfloor x) (Qfloor y)) as [He|Hne]; [|lia].
  unfold JS.nearest_even in *. rewrite <- He in *.
  destruct (Qcompare (x - inject_Z (Qfloor x)) (1 # 2)) eqn:Ex;
    destruct (Qcompare (y - inject_Z (Qfloor x)) (1 # 2)) eqn:Ey;
    try (destruct (Z.even (Qfloor x)); lia); try lia;
    rewrite <- ?Qeq_alt, <- ?Qlt_alt, <- ?Qgt_alt in Ex;
    rewrite <- ?Qeq_alt, <- ?Qlt_alt, <- ?Qgt_alt in Ey; exfalso; lra.
Qed.


(** The scaled significand of a positive number. *)
Lemma scaled_lt (a : Q) :
  0 < a -> a / 2 ^ Z.max (JS.ilog2 a - 52) (-1074) < 2 ^ 53.
Proof.
  intro Ha. destruct (ilog2_spec a Ha) as [_ H2].
  set (e := Z.max (JS.ilog2 a - 52) (-1074)).
  apply Qlt_shift_div_r; [apply two_pow_pos|].
  rewrite <- two_pow_plus.
  apply Qlt_le_trans with (1 := H2).
  apply Qpower_le_compat_l; [lia | discriminate].
Qed.

Lemma scaled_ge (a : Q) :
  0 < a -> (-1074 <= JS.ilog2 a - 52)%Z ->
  2 ^ 52 <= a / 2 ^ Z.max (JS.ilog2 a - 52) (-1074).
Proof.
  intros Ha He. destruct (ilog2_spec a Ha) as [H1 _].
  rewrite Z.max_l by exact He.
  apply Qle_shift_div_l; [apply two_pow_pos|].
  rewrite <- two_pow_plus.
  replace (52 + (JS.ilog2 a - 52))%Z with (JS.ilog2 a) by lia. exact H1.
Qed.

Lemma round64_abs_0 (a : Q) : a == 0 -> JS.round64_abs a == 0.
Proof.
  intro H. unfold JS.round64_abs.
  set (e := Z.max _ _).
  assert (Hs : a / 2 ^ e == inject_Z 0).
  { rewrite H. unfold Qdiv. ring. }
  assert (Hn : JS.nearest_even (a / 2 ^ e) = 0%Z).
  { assert (H1 : a / 2 ^ e <= inject_Z 0) by (rewrite Hs; apply Qle_refl).
    assert (H2 : inject_Z 0 <= a / 2 ^ e) by (rewrite Hs; apply Qle_refl).
    apply nearest_even_mono in H1, H2. rewrite nearest_even_Z in H1, H2. lia. }
  rewrite Hn. ring.
Qed.

Lemma round64_abs_nonneg (a : Q) : 0 <= a -> 0 <= JS.round64_abs a.
Proof.
  intro Ha. unfold JS.round64_abs. set (e := Z.max _ _).
  pose proof (two_pow_pos e) as He.
  assert (Hs : inject_Z 0 <= a / 2 ^ e).
  { apply Qle_shift_div_l; [exact He|]. change (inject_Z 0) with 0. lra. }
  apply nearest_even_mono in Hs. rewrite nearest_even_Z in Hs.
  rewrite Zle_Qle in Hs. change (inject_Z 0) with 0 in Hs. nra.
Qed.

Lemma round64_abs_mono (x y : Q) : 0 <= x -> x <= y -> JS.round64_abs x <= JS.round64_abs y.
Proof.
  intros Hx Hxy.
  destruct (Qlt_le_dec 0 x) as [Hpos|Hz].
  2:{ rewrite (round64_abs_0 x) by lra. apply round64_abs_nonneg. lra. }
  assert (Hy : 0 < y) by lra.
  pose proof (ilog2_mono x y Hpos Hxy) as Hl.
  unfold JS.round64_abs.
  pose proof (scaled_lt x Hpos) as Sx.
  pose proof (scaled_lt y Hy) as Sy.
  set (ex := Z.max (JS.ilog2 x - 52) (-1074)) in *.
  set (ey := Z.max (JS.ilog2 y - 52) (-1074)) in *.
  pose proof (two_pow_pos ex) as Pex. pose proof (two_pow_pos ey) as Pey.
  destruct (Z.eq_dec ex ey) as [He|Hne].
  - rewrite <- He in *.
    assert (Hs : x / 2 ^ ex <= y / 2 ^ ex).
    { apply Qle_shift_div_l; [exact Pex|].
      unfold Qdiv. rewrite <- Qmult_assoc, (Qmult_comm (/ _)), Qmult_inv_r by lra. lra. }
    apply nearest_even_mono in Hs. rewrite Zle_Qle in Hs. nra.
  - assert (Hlt : (ex < ey)%Z) by lia.
    assert (Hn : (-1074 <= JS.ilog2 y - 52)%Z) by lia.
    pose proof (scaled_ge y Hy Hn) as Gy. fold ey in Gy.
    assert (Mx : inject_Z (JS.nearest_even (x / 2 ^ ex)) <= 2 ^ 53).
    { rewrite <- (two_pow_Z 53) by lia. rewrite <- Zle_Qle.
      rewrite <- (nearest_even_Z (2 ^ 53)). apply nearest_even_mono.
      rewrite two_pow_Z by lia. lra. }
    assert (My : 2 ^ 52 <= inject_Z (JS.nearest_even (y / 2 ^ ey))).
    { rewrite <- (two_pow_Z 52) by lia. rewrite <- Zle_Qle.
      rewrite <- (nearest_even_Z (2 ^ 52)) at 1. apply nearest_even_mono.
      rewrite two_pow_Z by lia. exact Gy. }
    apply Qle_trans with (2 ^ 53 * 2 ^ ex); [nra|].
    apply Qle_trans with (2 ^ 52 * 2 ^ ey); [|nra].
    rewrite <- !two_pow_plus. apply Qpower_le_compat_l; [lia | discriminate].
Qed.

Lemma round64_eq (x : Q) :
  JS.round64 x == if Qle_bool 0 x then JS.round64_abs x else - JS.round64_abs (- x).
Proof. unfold JS.round64. apply Qred_correct. Qed.

Lemma round64_mono (x y : Q) : x <= y -> JS.round64 x <= JS.round64 y.
Proof.
  intro Hxy. rewrite !round64_eq.
  destruct (Qle_bool 0 x) eqn:Ex, (Qle_bool 0 y) eqn:Ey.
  - apply Qle_bool_iff in Ex. apply round64_abs_mono; assumption.
  - apply Qle_bool_iff in Ex.
    assert (~ 0 <= y) by (intro H; apply Qle_bool_iff in H; rewrite H in Ey; discriminate).
    lra.
  - apply Qle_bool_iff in Ey.
    assert (Hx : ~ 0 <= x) by (intro H; apply Qle_bool_iff in H; rewrite H in Ex; discriminate).
    pose proof (round64_abs_nonneg (- x)). pose proof (round64_abs_nonneg y Ey). lra.
  - assert (Hx : ~ 0 <= x) by (intro H; apply Qle_bool_iff in H; rewrite H in Ex; discriminate).
    assert (Hy : ~ 0 <= y) by (intro H; apply Qle_bool_iff in H; rewrite H in Ey; discriminate).
    pose proof (round64_abs_mono (- y) (- x)). lra.
Qed.

Lemma round64_nonneg (x : Q) : 0 <= x -> 0 <= JS.round64 x.
Proof.
  intro H. rewrite round64_eq.
  apply Qle_bool_iff in H. rewrite H. apply round64_abs_nonneg, Qle_bool_iff, H.
Qed.









Section SortFacts.
Context {A : Type} (comparefn : A -> A -> Q).

Lemma insert_perm (x : A) (l : list A) :
  Permutation (JS.insert comparefn x l) (x :: l).
Proof.
  induction l as [|y l IH]; simpl.
  - apply Permutation_refl.
  - destruct (JS.ltb 0 (comparefn x y)).
    + apply perm_trans with (y :: x :: l).
      * apply perm_skip, IH.
      * apply perm_swap.
    + apply Permutation_refl.
Qed.

Lemma sort_perm (l : list A) : Permutation (JS.sort comparefn l) l.
Proof.
  induction l as [|x l IH]; simpl.
  - apply perm_nil.
  - apply perm_trans with (x :: JS.sort comparefn l).
    + apply insert_perm.
    + apply perm_skip, IH.
Qed.

Lemma sort_In (l : list A) (x : A) : In x (JS.sort comparefn l) <-> In x l.
Proof.
  split; apply Permutation_in.
  - apply sort_perm.
  - apply Permutation_sym, sort_perm.
Qed.

Lemma sort_length (l : list A) : length (JS.sort comparefn l) = length l.
Proof. apply Permutation_length, sort_perm. Qed.

(** A list in sorted order is left as it is. *)
Lemma sort_sorted_id (l : list A) :
  Sorted (before comparefn) l -> JS.sort comparefn l = l.
Proof.
  induction 1 as [|x l Hs IH Hd]; simpl.
  - reflexivity.
  - rewrite IH. destruct Hd as [|y l Hxy]; simpl.
    + reflexivity.
    + apply ltb_false_iff in Hxy. rewrite Hxy. reflexivity.
Qed.

Hypothesis Hcons : consistent comparefn.

Lemma insert_HdRel (x y : A) (l : list A) :
  before comparefn y x -> HdRel (before comparefn) y l ->
  HdRel (before comparefn) y (JS.insert comparefn x l).
Proof.
  intros Hyx Hd. destruct Hd as [|z l Hyz]; simpl.
  - constructor. exact Hyx.
  - destruct (JS.ltb 0 (comparefn x z)); constructor; assumption.
Qed.

Lemma insert_sorted (x : A) (l : list A) :
  Sorted (before comparefn) l -> Sorted (before comparefn) (JS.insert comparefn x l).
Proof.
  induction 1 as [|y l Hs IH Hd]; simpl.
  - repeat constructor.
  - destruct (JS.ltb 0 (comparefn x y)) eqn:E.
    + constructor; [exact IH|].
      apply insert_HdRel; [|exact Hd].
      apply ltb_true_iff in E. apply (cmp_converse _ Hcons) in E.
      unfold before. apply Qlt_le_weak, E.
    + constructor.
      * constructor; assumption.
      * constructor. apply ltb_false_iff in E. exact E.
Qed.

Lemma sort_sorted (l : list A) : Sorted (before comparefn) (JS.sort comparefn l).
Proof.
  induction l as [|x l IH]; simpl.
  - constructor.
  - apply insert_sorted, IH.
Qed.

Lemma before_trans : Relations_1.Transitive (before comparefn).
Proof. intros a b c. apply (cmp_trans _ Hcons). Qed.

Lemma sort_strongly_sorted (l : list A) :
  StronglySorted (before comparefn) (JS.sort comparefn l).
Proof.
  apply Sorted_StronglySorted; [exact before_trans | apply sort_sorted].
Qed.

Lemma sort_idempotent (l : list A) :
  JS.sort comparefn (JS.sort comparefn l) = JS.sort comparefn l.
Proof. apply sort_sorted_id, sort_sorted. Qed.

(** Two elements with the key of [r] are not exchanged. *)
Lemma same_key_not_after (r x y : A) :
  same_key comparefn r x = true -> same_key comparefn r y = true ->
  JS.ltb 0 (comparefn x y) = false.
Proof.
  unfold same_key. intros Hx Hy.
  apply Qeq_bool_iff in Hx. apply Qeq_bool_iff in Hy.
  apply ltb_false_iff.
  apply (cmp_trans _ Hcons) with r.
  - destruct (Qlt_le_dec 0 (comparefn x r)) as [Hlt|Hle]; [|exact Hle].
    apply (cmp_converse _ Hcons) in Hlt. rewrite Hx in Hlt.
    exfalso. apply (Qlt_irrefl 0 Hlt).
  - rewrite Hy. apply Qle_refl.
Qed.

Lemma insert_stable (r x : A) (l : list A) :
  filter (same_key comparefn r) (JS.insert comparefn x l)
  = filter (same_key comparefn r) (x :: l).
Proof.
  induction l as [|y l IH]; [reflexivity|].
  cbn [JS.insert].
  destruct (JS.ltb 0 (comparefn x y)) eqn:E; [|reflexivity].
  cbn [filter] in *. rewrite IH.
  destruct (same_key comparefn r x) eqn:Ex, (same_key comparefn r y) eqn:Ey;
    try reflexivity.
  rewrite (same_key_not_after r x y Ex Ey) in E. discriminate.
Qed.

(** Stability: the elements that share a key come out in the order
    they went in. *)
Lemma sort_stable (r : A) (l : list A) :
  filter (same_key comparefn r) (JS.sort comparefn l)
  = filter (same_key comparefn r) l.
Proof.
  induction l as [|x l IH]; [reflexivity|].
  cbn [JS.sort]. rewrite insert_stable. cbn [filter]. rewrite IH. reflexivity.
Qed.
Lemma same_key_refl (x : A) : same_key comparefn x x = true.
Proof.
  unfold same_key. apply Qeq_bool_iff.
  destruct (Qlt_le_dec 0 (comparefn x x)) as [Hlt|Hle].
  - pose proof (proj1 (cmp_converse _ Hcons x x) Hlt) as Hneg.
    exfalso. apply (Qlt_irrefl 0). apply Qlt_trans with (comparefn x x); assumption.
  - destruct (Qlt_le_dec (comparefn x x) 0) as [Hlt|Hge].
    + pose proof (proj2 (cmp_converse _ Hcons x x) Hlt) as Hpos.
      exfalso. apply (Qlt_irrefl 0). apply Qlt_le_trans with (comparefn x x); assumption.
    + apply Qle_antisym; assumption.
Qed.

(** The heads of two sorted lists with the same elements have the same
    key. *)
Lemma sorted_heads_same_key (x y : A) (s t : list A) :
  StronglySorted (before comparefn) (x :: s) ->
  StronglySorted (before comparefn) (y :: t) ->
  Permutation (x :: s) (y :: t) ->
  same_key comparefn x y = true.
Proof.
  intros Hs Ht Hp.
  apply StronglySorted_inv in Hs. destruct Hs as [_ Hxs].
  apply StronglySorted_inv in Ht. destruct Ht as [_ Hyt].
  rewrite Forall_forall in Hxs, Hyt.
  assert (Hy : In y (x :: s)).
  { apply Permutation_in with (y :: t); [apply Permutation_sym, Hp | left; reflexivity]. }
  assert (Hx : In x (y :: t)).
  { apply Permutation_in with (x :: s); [exact Hp | left; reflexivity]. }
  destruct Hy as [<-|Hy]; [apply same_key_refl|].
  destruct Hx as [->|Hx]; [apply same_key_refl|].
  specialize (Hxs y Hy). specialize (Hyt x Hx). unfold before in Hxs, Hyt.
  unfold same_key. apply Qeq_bool_iff.
  apply Qle_antisym; [exact Hxs|].
  destruct (Qlt_le_dec (comparefn x y) 0) as [Hlt|Hge]; [|exact Hge].
  apply (cmp_converse _ Hcons) in Hlt.
  exfalso. apply (Qlt_not_le _ _ Hlt Hyt).
Qed.

(** There is one sorted order that keeps ties as they were: two sorted
    lists with the same elements in which the rows of each key come in
    the same order are equal. *)
Lemma sorted_stable_unique (s t : list A) :
  StronglySorted (before comparefn) s ->
  StronglySorted (before comparefn) t ->
  Permutation s t ->
  (forall r, filter (same_key comparefn r) s = filter (same_key comparefn r) t) ->
  s = t.
Proof.
  revert t. induction s as [|x s IH]; intros t Hs Ht Hp Hf.
  - apply Permutation_nil in Hp. symmetry. exact Hp.
  - destruct t as [|y t].
    + apply Permutation_sym, Permutation_nil in Hp. discriminate Hp.
    + pose proof (sorted_heads_same_key x y s t Hs Ht Hp) as Hxy.
      assert (Heq : x = y).
      { pose proof (Hf x) as Hfx. cbn [filter] in Hfx.
        rewrite same_key_refl, Hxy in Hfx. injection Hfx as Hfx _. exact Hfx. }
      subst y. f_equal.
      apply IH.
      * apply StronglySorted_inv in Hs. apply Hs.
      * apply StronglySorted_inv in Ht. apply Ht.
      * apply Permutation_cons_inv with x, Hp.
      * intro r. pose proof (Hf r) as Hfr. cbn [filter] in Hfr.
        destruct (same_key comparefn r x); [injection Hfr as Hfr|]; exact Hfr.
Qed.

(** Hence [JS.sort] returns what any stable sort returns. *)
Lemma sort_is_the_stable_order (l s : list A) :
  StronglySorted (before comparefn) s ->
  Permutation s l ->
  (forall r, filter (same_key comparefn r) s = filter (same_key comparefn r) l) ->
  s = JS.sort comparefn l.
Proof.
  intros Hs Hp Hf. apply sorted_stable_unique.
  - exact Hs.
  - apply sort_strongly_sorted.
  - apply perm_trans with l; [exact Hp | apply Permutation_sym, sort_perm].
  - intro r. rewrite Hf, sort_stable. reflexivity.
Qed.

End SortFacts.

(** *** Strings *)

Lemma startsWith_spec (s t : string) :
  JS.startsWith s t = true <-> exists post, s = t ++ post.
Proof.
  revert s. induction t as [|b t IH]; intros s.
  - split; [intros _; exists s; reflexivity | destruct s; reflexivity].
  - destruct s as [|a s]; simpl.
    + split; [discriminate | intros [post H]; discriminate].
    + rewrite andb_true_iff, Ascii.eqb_eq, IH. split.
      * intros [-> [post ->]]. exists post. reflexivity.
      * intros [post H]. injection H as -> ->. split; [reflexivity|].
        exists post. reflexivity.
Qed.

Lemma includes_spec (s t : string) :
  JS.includes s t = true <-> exists pre post, s = pre ++ t ++ post.
Proof.
  induction s as [|a s IH].
  - cbn [JS.includes]. rewrite orb_false_r, startsWith_spec. split.
    + intros [post H]. exists "", post. exact H.
    + intros [pre [post H]]. destruct pre; [|discriminate].
      exists post. exact H.
  - cbn [JS.includes]. rewrite orb_true_iff, startsWith_spec, IH. split.
    + intros [[post H]|[pre [post H]]].
      * exists "", post. exact H.
      * exists (String a pre), post. simpl. rewrite H. reflexivity.
    + intros [pre [post H]]. destruct pre as [|c pre].
      * left. exists post. exact H.
      * right. simpl in H. injection H as _ H. exists pre, post. exact H.
Qed.

Lemma truthy_str_false (s : string) : JS.truthy_str s = false <-> s = "".
Proof. destruct s; simpl; split; congruence. Qed.

Lemma or_str_some_empty (s : string) : JS.or_str (Some s) "" = s.
Proof. destruct s; reflexivity. Qed.

Lemma is_str_true (x : option string) (lit : string) :
  is_str x lit = true <-> x = Some lit.
Proof.
  destruct x as [s|]; simpl.
  - rewrite String.eqb_eq. split; congruence.
  - split; discriminate.
Qed.

Lemma is_bool_true (x : option bool) (b : bool) :
  is_bool x b = true <-> x = Some b.
Proof.
  destruct x as [v|]; simpl.
  - rewrite Bool.eqb_true_iff. split; congruence.
  - split; discriminate.
Qed.

Lemma is_space_upper (c : ascii) : JS.is_space (JS.upper_char c) = JS.is_space c.
Proof. destruct c as [[] [] [] [] [] [] [] []]; reflexivity. Qed.

Lemma upper_char_idem (c : ascii) : JS.upper_char (JS.upper_char c) = JS.upper_char c.
Proof. destruct c as [[] [] [] [] [] [] [] []]; reflexivity. Qed.

Lemma toUpperCase_idem (s : string) :
  JS.toUpperCase (JS.toUpperCase s) = JS.toUpperCase s.
Proof.
  unfold JS.toUpperCase. induction s as [|c s IH]; cbn [JS.map_string].
  - reflexivity.
  - rewrite upper_char_idem, IH. reflexivity.
Qed.

Lemma toUpperCase_trimStart (s : string) :
  JS.toUpperCase (JS.trimStart s) = JS.trimStart (JS.toUpperCase s).
Proof.
  unfold JS.toUpperCase. induction s as [|c s IH]; cbn [JS.trimStart JS.map_string].
  - reflexivity.
  - rewrite is_space_upper. destruct (JS.is_space c); [exact IH | reflexivity].
Qed.

Lemma toUpperCase_trimEnd (s : string) :
  JS.toUpperCase (JS.trimEnd s) = JS.trimEnd (JS.toUpperCase s).
Proof.
  unfold JS.toUpperCase. induction s as [|c s IH]; cbn [JS.trimEnd JS.map_string].
  - reflexivity.
  - rewrite <- IH, is_space_upper.
    destruct (JS.trimEnd s); cbn [JS.map_string].
    + destruct (JS.is_space c); reflexivity.
    + reflexivity.
Qed.

(** Upper-casing commutes with trimming: the search text is compared
    without regard to case. *)
Lemma toUpperCase_trim (s : string) :
  JS.toUpperCase (JS.trim s) = JS.trim (JS.toUpperCase s).
Proof.
  unfold JS.trim. rewrite toUpperCase_trimEnd, toUpperCase_trimStart. reflexivity.
Qed.

(** *** Lists *)

Lemma filter_filter {A : Type} (f g : A -> bool) (l : list A) :
  filter f (filter g l) = filter (fun x => g x && f x) l.
Proof.
  induction l as [|x l IH]; simpl; [reflexivity|].
  destruct (g x); simpl; rewrite IH; reflexivity.
Qed.

Lemma filter_if {A : Type} (c : bool) (f : A -> bool) (l : list A) :
  (if c then filter f l else l) = filter (fun x => if c then f x else true) l.
Proof.
  destruct c; [reflexivity|].
  induction l as [|x l IH]; simpl; congruence.
Qed.

(** ** The filters *)

Lemma bySource_filter (sc : script) (source : string) (l : list Opportunity) :
  bySource sc source l
  = filter (fun d =>
              if source =? "okx" then
                match sc with
                | app_js => is_str (best_loan_source d) "OKX"
                | part_000 => JS.ltb 0 (JS.or_num (okx_loan_rate d) 0)
                end
              else if source =? "binance" then
                match sc with
                | app_js => is_str (best_loan_source d) "Binance"
                | part_000 => JS.ltb 0 (JS.or_num (binance_loan_rate d) 0)
                end
              else true) l.
Proof.
  unfold bySource.
  destruct (source =? "okx"); [destruct sc; reflexivity|].
  destruct (source =? "binance"); [destruct sc; reflexivity|].
  apply (filter_if false (fun _ => true)).
Qed.

Lemma byApr_filter (value : option Q) (l : list Opportunity) :
  byApr value l
  = filter (fun d =>
              if negb (Qeq_bool (JS.or_num value 0) 0)
              then Qle_bool (JS.or_num value 0) (net_apr_or0 d) else true) l.
Proof. unfold byApr. cbv zeta. apply filter_if. Qed.

Lemma bySearch_filter (value : string) (l : list Opportunity) :
  bySearch value l
  = filter (fun d =>
              if JS.truthy_str (JS.toUpperCase (JS.trim value))
              then JS.includes (JS.toUpperCase (currency d))
                               (JS.toUpperCase (JS.trim value))
              else true) l.
Proof.
  unfold bySearch. cbv zeta. rewrite filter_if.
  apply filter_ext. intro d. rewrite or_str_some_empty. reflexivity.
Qed.

Lemma byAvailable_filter (avail : string) (l : list Opportunity) :
  byAvailable avail l
  = filter (fun d =>
              if avail =? "available" then
                is_bool (available d) true || is_str (status d) AVAILABLE
              else if avail =? "unavailable" then
                is_bool (available d) false || is_str (status d) NOT_AVAILABLE
              else true) l.
Proof.
  unfold byAvailable.
  destruct (avail =? "available"); [reflexivity|].
  destruct (avail =? "unavailable"); [reflexivity|].
  apply (filter_if false (fun _ => true)).
Qed.

(** The four conditional filters in a row keep what [keeps] keeps. *)
Lemma filters_keep (sc : script) (f : Filters) (l : list Opportunity) :
  byAvailable (filterAvailable f)
    (bySearch (filterSearch f)
       (byApr (filterApr f) (bySource sc (filterSource f) l)))
  = filter (keeps sc f) l.
Proof.
  rewrite bySource_filter, byApr_filter, bySearch_filter, byAvailable_filter.
  rewrite !filter_filter.
  apply filter_ext. intro d. unfold keeps. rewrite !andb_assoc. reflexivity.
Qed.

Lemma applyFiltersAndRender_filtered (sc : script) (p : Page) :
  filtered (state (applyFiltersAndRender sc p)) = pipeline sc p.
Proof.
  unfold applyFiltersAndRender, pipeline. cbn.
  rewrite filters_keep. reflexivity.
Qed.

Lemma applyFiltersAndRender_dom (sc : script) (p : Page) :
  dom (applyFiltersAndRender sc p)
  = set_table (count_text (length (pipeline sc p)))
              (renderTable sc (filterLoanSize (filters (dom p))) (pipeline sc p))
              (dom p).
Proof.
  unfold applyFiltersAndRender, pipeline. cbn.
  rewrite filters_keep. reflexivity.
Qed.

Lemma applyFiltersAndRender_state (sc : script) (p : Page) :
  state (applyFiltersAndRender sc p) = set_filtered (pipeline sc p) (state p).
Proof.
  unfold applyFiltersAndRender, pipeline. cbn.
  rewrite filters_keep. reflexivity.
Qed.

Lemma applyFiltersAndRender_debounce (sc : script) (p : Page) :
  debounce (applyFiltersAndRender sc p) = debounce p.
Proof. reflexivity. Qed.

(** The test [keeps] decides the predicate [passes]. *)
Lemma keeps_passes (sc : script) (f : Filters) (d : Opportunity) :
  keeps sc f d = true <-> passes sc f d.
Proof.
  unfold keeps, passes, source_ok, apr_ok, search_ok, available_ok.
  rewrite !andb_true_iff.
  assert (Hs : (if filterSource f =? "okx" then
                  match sc with
                  | app_js => is_str (best_loan_source d) "OKX"
                  | part_000 => JS.ltb 0 (JS.or_num (okx_loan_rate d) 0)
                  end
                else if filterSource f =? "binance" then
                  match sc with
                  | app_js => is_str (best_loan_source d) "Binance"
                  | part_000 => JS.ltb 0 (JS.or_num (binance_loan_rate d) 0)
                  end
                else true) = true
               <-> (filterSource f = "okx" ->
                    match sc with
                    | app_js => best_loan_source d = Some "OKX"
                    | part_000 => (0 < JS.or_num (okx_loan_rate d) 0)%Q
                    end) /\
                   (filterSource f = "binance" ->
                    match sc with
                    | app_js => best_loan_source d = Some "Binance"
                    | part_000 => (0 < JS.or_num (binance_loan_rate d) 0)%Q
                    end)).
  { destruct (filterSource f =? "okx") eqn:E1.
    - apply String.eqb_eq in E1. rewrite E1.
      destruct sc; [rewrite is_str_true | rewrite ltb_true_iff];
        (split; [intro H; split; [intros _; exact H | discriminate]
                | intros [H _]; apply H; reflexivity]).
    - apply String.eqb_neq in E1.
      destruct (filterSource f =? "binance") eqn:E2.
      + apply String.eqb_eq in E2. rewrite E2.
        destruct sc; [rewrite is_str_true | rewrite ltb_true_iff];
          (split; [intro H; split; [discriminate | intros _; exact H]
                  | intros [_ H]; apply H; reflexivity]).
      + apply String.eqb_neq in E2.
        split; [intros _; split; intro; contradiction | reflexivity]. }
  assert (Ha : (if negb (Qeq_bool (JS.or_num (filterApr f) 0) 0)
                then Qle_bool (JS.or_num (filterApr f) 0) (net_apr_or0 d)
                else true) = true
               <-> (JS.or_num (filterApr f) 0 == 0)%Q \/
                   (JS.or_num (filterApr f) 0 <= JS.or_num (net_apr d) 0)%Q).
  { unfold net_apr_or0.
    destruct (Qeq_bool (JS.or_num (filterApr f) 0) 0) eqn:E; simpl.
    - apply Qeq_bool_iff in E. split; [intros _; left; exact E | reflexivity].
    - rewrite Qle_bool_iff. split; [intro H; right; exact H|].
      intros [H|H]; [|exact H].
      apply Qeq_bool_iff in H. congruence. }
  assert (Hq : (if JS.truthy_str (JS.toUpperCase (JS.trim (filterSearch f)))
                then JS.includes (JS.toUpperCase (currency d))
                                 (JS.toUpperCase (JS.trim (filterSearch f)))
                else true) = true
               <-> JS.toUpperCase (JS.trim (filterSearch f)) = "" \/
                   exists pre post,
                     JS.toUpperCase (currency d)
                     = pre ++ JS.toUpperCase (JS.trim (filterSearch f)) ++ post).
  { destruct (JS.truthy_str (JS.toUpperCase (JS.trim (filterSearch f)))) eqn:E.
    - rewrite includes_spec. split; [intro H; right; exact H|].
      intros [H|H]; [|exact H].
      apply truthy_str_false in H. congruence.
    - apply truthy_str_false in E.
      split; [intros _; left; exact E | reflexivity]. }
  assert (Hv : (if filterAvailable f =? "available" then
                  is_bool (available d) true || is_str (status d) AVAILABLE
                else if filterAvailable f =? "unavailable" then
                  is_bool (available d) false || is_str (status d) NOT_AVAILABLE
                else true) = true
               <-> (filterAvailable f = "available" ->
                    available d = Some true \/ status d = Some AVAILABLE) /\
                   (filterAvailable f = "unavailable" ->
                    available d = Some false \/ status d = Some NOT_AVAILABLE)).
  { destruct (filterAvailable f =? "available") eqn:E1.
    - apply String.eqb_eq in E1. rewrite E1.
      rewrite orb_true_iff, is_bool_true, is_str_true.
      split; [intro H; split; [intros _; exact H | discriminate]
             | intros [H _]; apply H; reflexivity].
    - apply String.eqb_neq in E1.
      destruct (filterAvailable f =? "unavailable") eqn:E2.
      + apply String.eqb_eq in E2. rewrite E2.
        rewrite orb_true_iff, is_bool_true, is_str_true.
        split; [intro H; split; [discriminate | intros _; exact H]
               | intros [_ H]; apply H; reflexivity].
      + apply String.eqb_neq in E2.
        split; [intros _; split; intro; contradiction | reflexivity]. }
  rewrite Hs, Ha, Hq, Hv. tauto.
Qed.

(** C1: for every page (snapshot, filter controls, sort state) and both
    copies of the script, the list [applyFiltersAndRender] stores in
    [state.filtered] and renders contains exactly the opportunities of
    the snapshot that satisfy the conjunction of the active predicates:
    source match, minimum net APR with a missing [net_apr] read as 0,
    case-insensitive substring match on the currency, availability by
    the [available] boolean or the matching status string; a predicate
    whose control constrains nothing holds of every row.  Each kept
    opportunity appears as often as in the snapshot, and the table body
    is rendered from this list.  The search predicate does not tell
    apart texts, or currencies, that differ in the case of their letters
    only. *)
Theorem applyFiltersAndRender_rows (sc : script) (p : Page) :
  let p' := applyFiltersAndRender sc p in
  (forall d, In d (filtered (state p')) <->
             In d (data (state p)) /\ passes sc (filters (dom p)) d) /\
  Permutation (filtered (state p'))
              (filter (keeps sc (filters (dom p))) (data (state p))) /\
  tbody (dom p')
  = renderTable sc (filterLoanSize (filters (dom p))) (filtered (state p')) /\
  filteredCount (dom p') = count_text (length (filtered (state p'))) /\
  (forall v1 v2 d1 d2,
      JS.toUpperCase v1 = JS.toUpperCase v2 ->
      JS.toUpperCase (currency d1) = JS.toUpperCase (currency d2) ->
      (search_ok v1 d1 <-> search_ok v2 d2)).
Proof.
  cbv zeta. rewrite applyFiltersAndRender_filtered, applyFiltersAndRender_dom.
  unfold pipeline. split; [|split; [|split; [|split]]]; cycle 4.
  { intros v1 v2 d1 d2 Hv Hd. unfold search_ok.
    rewrite !toUpperCase_trim, Hv, Hd. reflexivity. }
  - intro d. split.
    + intro H. apply sort_In, filter_In in H. destruct H as [Hin Hk].
      split; [exact Hin | apply keeps_passes, Hk].
    + intros [Hin Hp]. apply sort_In, filter_In.
      split; [exact Hin | apply keeps_passes, Hp].
  - apply sort_perm.
  - reflexivity.
  - reflexivity.
Qed.

(** ** The table after an event *)

Lemma Rendered_same (sc : script) (p q : Page) :
  data (state q) = data (state p) ->
  sortCol (state q) = sortCol (state p) ->
  sortAsc (state q) = sortAsc (state p) ->
  filtered (state q) = filtered (state p) ->
  filters (dom q) = filters (dom p) ->
  filteredCount (dom q) = filteredCount (dom p) ->
  tbody (dom q) = tbody (dom p) ->
  Rendered sc p -> Rendered sc q.
Proof.
  unfold Rendered, pipeline. intros -> -> -> -> -> -> ->. exact (fun H => H).
Qed.

Lemma applyFiltersAndRender_Rendered (sc : script) (p : Page) :
  Rendered sc (applyFiltersAndRender sc p).
Proof.
  assert (Hp : pipeline sc (applyFiltersAndRender sc p) = pipeline sc p).
  { unfold pipeline.
    rewrite applyFiltersAndRender_state, applyFiltersAndRender_dom. reflexivity. }
  unfold Rendered. rewrite Hp.
  rewrite applyFiltersAndRender_filtered, applyFiltersAndRender_dom.
  repeat split.
Qed.

(** [updateKPIs] writes KPI elements only. *)
Lemma updateKPIs_frame (sc : script) (p : Page) :
  state (updateKPIs sc p) = state p /\
  debounce (updateKPIs sc p) = debounce p /\
  dom (updateKPIs sc p) = set_kpi (kpi (dom (updateKPIs sc p))) (dom p).
Proof.
  unfold updateKPIs.
  destruct (data (state p)); [|destruct sc]; cbn; repeat split.
  destruct (dom p); reflexivity.
Qed.

Lemma updateKPIs_Rendered (sc : script) (p : Page) :
  Rendered sc p -> Rendered sc (updateKPIs sc p).
Proof.
  destruct (updateKPIs_frame sc p) as [Hs [_ Hd]].
  apply Rendered_same;
    first [rewrite Hs; reflexivity | rewrite Hd; reflexivity].
Qed.

Lemma handleDataUpdate_data (sc : script) (p : Page) (msg : Msg) :
  data (state (fst (handleDataUpdate sc p msg)))
  = match msg_data msg with Some l => l | None => [] end.
Proof.
  unfold handleDataUpdate. cbn [fst with_dom state].
  match goal with
  | |- data (state (updateKPIs sc ?q)) = _ =>
      destruct (updateKPIs_frame sc q) as [Hs _]; rewrite Hs
  end.
  rewrite applyFiltersAndRender_state. reflexivity.
Qed.

Lemma handleDataUpdate_Rendered (sc : script) (p : Page) (msg : Msg) :
  Rendered sc (fst (handleDataUpdate sc p msg)).
Proof.
  unfold handleDataUpdate. cbn [fst].
  match goal with
  | |- Rendered sc (with_dom _ (updateKPIs sc ?q)) =>
      apply (Rendered_same sc (updateKPIs sc q)); try reflexivity;
      apply updateKPIs_Rendered
  end.
  apply applyFiltersAndRender_Rendered.
Qed.

Lemma step_rerenders (sc : script) (p : Page) (e : Event) :
  rerenders p e = true -> Rendered sc (fst (step sc p e)).
Proof.
  destruct e as [| f | | | r | col | v | v | v | v | v | k]; cbn [rerenders step];
    try discriminate.
  - destruct f; try discriminate. intros _. apply handleDataUpdate_Rendered.
  - destruct r; try discriminate. intros _. apply handleDataUpdate_Rendered.
  - intros _. apply applyFiltersAndRender_Rendered.
  - intros _. unfold sourceChange. destruct sc; apply applyFiltersAndRender_Rendered.
  - intros _. apply applyFiltersAndRender_Rendered.
  - intros ->. apply applyFiltersAndRender_Rendered.
Qed.

Lemma step_delivered (sc : script) (p : Page) (e : Event) (l : list Opportunity) :
  delivered e = Some l -> data (state (fst (step sc p e))) = l.
Proof.
  destruct e as [| f | | | r | col | v | v | v | v | v | k]; cbn [delivered step];
    try discriminate.
  - destruct f; try discriminate. intros [= <-]. apply handleDataUpdate_data.
  - destruct r; try discriminate. intros [= <-]. apply handleDataUpdate_data.
Qed.

Lemma quiet_arm (k : TimerKind) (p : Page) :
  quiet (with_debounce (arm k) p) = false.
Proof.
  unfold quiet. destruct k; cbn;
    destruct (timer_apr (debounce p)), (timer_loan (debounce p)),
             (timer_search (debounce p)); reflexivity.
Qed.

(** Whenever no debounce timer is armed the table is the pipeline's
    result: the property is kept by every event. *)
Lemma step_quiet_Rendered (sc : script) (p : Page) (e : Event) :
  (quiet p = true -> Rendered sc p) ->
  quiet (fst (step sc p e)) = true -> Rendered sc (fst (step sc p e)).
Proof.
  intros Inv.
  destruct (rerenders p e) eqn:Hr; [intros _; apply step_rerenders, Hr|].
  destruct e as [| f | | | r | col | v | v | v | v | v | k];
    cbn [rerenders] in Hr; try discriminate Hr; cbn [step];
    try (cbn [fst]; rewrite quiet_arm; discriminate).
  - unfold onopen. cbn [fst]. intro Hq.
    apply (Rendered_same sc p); try reflexivity. apply Inv, Hq.
  - destruct f; try discriminate; cbn [onmessage fst]; exact Inv.
  - unfold onclose.
    destruct (may_retry _); cbn [fst]; intro Hq;
      (apply (Rendered_same sc p); try reflexivity; apply Inv, Hq).
  - unfold onerror. cbn [fst]. intro Hq.
    apply (Rendered_same sc p); try reflexivity. apply Inv, Hq.
  - destruct r; try discriminate. cbn [fetchDataREST_done fst]. exact Inv.
  - destruct sc; cbn [fst]; [rewrite (quiet_arm tk_loan); discriminate | exact Inv].
  - rewrite Hr. cbn [fst]. exact Inv.
Qed.

Lemma run_quiet_Rendered (sc : script) (es : list Event) (p : Page) :
  (quiet p = true -> Rendered sc p) ->
  quiet (run sc p es) = true -> Rendered sc (run sc p es).
Proof.
  revert p. induction es as [|e es IH]; intros p Inv; cbn [run].
  - exact Inv.
  - apply IH. apply step_quiet_Rendered, Inv.
Qed.

(** An edit of a debounced box does not render: the control holds the
    new value, [state], the table and the count stay as they were, and
    the timer of the box is armed. *)
Lemma step_debounced (sc : script) (q : Page) (e : Event) (k : TimerKind) :
  debounced sc e = Some k ->
  state (fst (step sc q e)) = state q /\
  filters (dom (fst (step sc q e))) = edited e (filters (dom q)) /\
  tbody (dom (fst (step sc q e))) = tbody (dom q) /\
  filteredCount (dom (fst (step sc q e))) = filteredCount (dom q) /\
  armed k (debounce (fst (step sc q e))) = true /\
  quiet (fst (step sc q e)) = false.
Proof.
  destruct e as [| f | | | r | col | v | v | v | v | v | k']; cbn [debounced];
    try discriminate.
  - intros [= <-]. cbn [step fst]. rewrite quiet_arm. repeat split.
  - destruct sc; [|discriminate]. intros [= <-]. cbn [step fst].
    rewrite quiet_arm. repeat split.
  - intros [= <-]. cbn [step fst]. rewrite quiet_arm. repeat split.
Qed.

(** C2 (amended): after every event whose listener runs
    [applyFiltersAndRender] before it returns (a snapshot arriving on
    the stream or from a pull, a click on a sortable header, a change of
    the source or availability select, the expiry of a pending debounce
    timer) the rendered table, [state.filtered] and the count equal
    [sort(filter(latest snapshot))] recomputed in full from the cached
    snapshot, the controls as they are at that moment and the sort state,
    and a delivered snapshot is the cached one; from then on, after any
    further events, the same holds whenever no debounce timer is armed.
    An edit of the APR, search or loan-size box does not render: the
    control holds the new value, [state], the table and the count stay
    as they were and the timer of the box is armed, so the table may
    show the result for the earlier value until the next of the events
    above, of which the expiry of that timer is one. *)
Theorem table_is_pipeline (sc : script) (p : Page) (e : Event) (es : list Event) :
  rerenders p e = true ->
  let p' := fst (step sc p e) in
  Rendered sc p' /\
  (forall l, delivered e = Some l -> data (state p') = l) /\
  (quiet (run sc p' es) = true -> Rendered sc (run sc p' es)) /\
  (forall q e' k, debounced sc e' = Some k ->
     let q' := fst (step sc q e') in
     state q' = state q /\
     filters (dom q') = edited e' (filters (dom q)) /\
     tbody (dom q') = tbody (dom q) /\
     filteredCount (dom q') = filteredCount (dom q) /\
     armed k (debounce q') = true /\
     quiet q' = false /\
     rerenders q' (ev_timer k) = true /\
     filters (dom (fst (step sc q' (ev_timer k)))) = edited e' (filters (dom q)) /\
     (forall e2, rerenders q' e2 = true -> Rendered sc (fst (step sc q' e2)))).
Proof.
  intros Hr p'. split; [|split; [|split]].
  - apply step_rerenders, Hr.
  - intro l. apply step_delivered.
  - apply run_quiet_Rendered. intros _. apply step_rerenders, Hr.
  - intros q e' k Hk q'.
    destruct (step_debounced sc q e' k Hk) as [Hs [Hf [Ht [Hc [Ha Hq]]]]].
    fold q' in Hs, Hf, Ht, Hc, Ha, Hq.
    repeat (split; [assumption|]).
    split.
    + cbn [step]. rewrite Ha. cbn [fst].
      rewrite applyFiltersAndRender_dom. cbn [filters set_table with_debounce dom].
      exact Hf.
    + intros e2 Hr'. apply step_rerenders, Hr'.
Qed.

(** ** The KPI summary *)

Lemma max2_cases (a b : Q) : JS.max2 a b = a \/ JS.max2 a b = b.
Proof. unfold JS.max2. destruct (Qle_bool a b); auto. Qed.

Lemma max2_ge_l (a b : Q) : (a <= JS.max2 a b)%Q.
Proof.
  unfold JS.max2. destruct (Qle_bool a b) eqn:E.
  - apply Qle_bool_iff, E.
  - apply Qle_refl.
Qed.

Lemma max2_ge_r (a b : Q) : (b <= JS.max2 a b)%Q.
Proof.
  unfold JS.max2. destruct (Qle_bool a b) eqn:E.
  - apply Qle_refl.
  - apply Qlt_le_weak, Qnot_le_lt. intro H. apply Qle_bool_iff in H. congruence.
Qed.

Lemma Math_max_In (xs : list Q) (x : Q) : In (JS.Math_max x xs) (x :: xs).
Proof.
  unfold JS.Math_max. revert x. induction xs as [|y xs IH]; intro x; cbn [fold_left].
  - left. reflexivity.
  - destruct (IH (JS.max2 x y)) as [H|H].
    + rewrite <- H. destruct (max2_cases x y) as [-> | ->].
      * left. reflexivity.
      * right. left. reflexivity.
    + right. right. exact H.
Qed.

Lemma Math_max_ge_first (xs : list Q) (x : Q) : (x <= JS.Math_max x xs)%Q.
Proof.
  unfold JS.Math_max. revert x. induction xs as [|y xs IH]; intro x; cbn [fold_left].
  - apply Qle_refl.
  - apply Qle_trans with (JS.max2 x y); [apply max2_ge_l | apply IH].
Qed.

Lemma Math_max_ge (xs : list Q) (x y : Q) :
  In y (x :: xs) -> (y <= JS.Math_max x xs)%Q.
Proof.
  revert x. induction xs as [|z xs IH]; intros x H.
  - destruct H as [->|[]]. apply Qle_refl.
  - destruct H as [->|[->|H]].
    + apply Math_max_ge_first.
    + unfold JS.Math_max. cbn [fold_left].
      apply Qle_trans with (JS.max2 x y); [apply max2_ge_r|].
      apply (Math_max_ge_first xs).
    + unfold JS.Math_max. cbn [fold_left].
      apply (IH (JS.max2 x z)). right. exact H.
Qed.

(** The KPI element of the best APR after [updateKPIs] on a page whose
    snapshot is [d :: rest]. *)
Lemma updateKPIs_best (sc : script) (p : Page) (d : Opportunity)
    (rest : list Opportunity) :
  data (state p) = d :: rest ->
  kpi_best sc (kpi (dom (updateKPIs sc p)))
  = fmt (Some (JS.Math_max (net_apr_or0 d) (map net_apr_or0 rest))) ++ "%".
Proof.
  intro H. unfold updateKPIs. rewrite H. destruct sc; reflexivity.
Qed.

(** C3: when a non-empty snapshot arrives, whatever the filter controls,
    the sort state and the rest of the page are, the best-APR element
    shows (printed by [fmt], followed by a percent sign) the number
    [Math.max] returns for the [net_apr] values of all rows of the
    snapshot, a missing one read as 0; that number is one of these
    values and no value of the snapshot exceeds it. *)
Theorem kpi_best_is_max (sc : script) (p : Page) (msg : Msg) (d : Opportunity)
    (rest : list Opportunity) :
  msg_data msg = Some (d :: rest) ->
  let p' := fst (handleDataUpdate sc p msg) in
  let top := JS.Math_max (net_apr_or0 d) (map net_apr_or0 rest) in
  kpi_best sc (kpi (dom p')) = fmt (Some top) ++ "%" /\
  In top (map net_apr_or0 (d :: rest)) /\
  (forall x, In x (map net_apr_or0 (d :: rest)) -> (x <= top)%Q).
Proof.
  intros Hmsg p' top. split; [|split].
  - subst p'. unfold handleDataUpdate. cbn [fst with_dom dom set_dataStatus kpi].
    apply updateKPIs_best.
    rewrite applyFiltersAndRender_state. cbn. rewrite Hmsg. reflexivity.
  - apply (Math_max_In (map net_apr_or0 rest) (net_apr_or0 d)).
  - intros x Hx. apply (Math_max_ge (map net_apr_or0 rest) (net_apr_or0 d)), Hx.
Qed.

(** C10: when a data update delivers an empty opportunity list (or no
    list at all), [updateKPIs] returns at once and every KPI element
    keeps the text it had, in both copies of the script: the KPI row
    still shows the values of the previous non-empty snapshot. *)
Theorem kpi_kept_on_empty (sc : script) (p : Page) (msg : Msg) :
  msg_data msg = Some [] \/ msg_data msg = None ->
  let q := with_state (set_data [] (msg_timestamp msg)) p in
  updateKPIs sc q = q /\
  kpi (dom (fst (handleDataUpdate sc p msg))) = kpi (dom p).
Proof.
  intros Hmsg q. split.
  - reflexivity.
  - unfold handleDataUpdate.
    assert (E : match msg_data msg with Some l => l | None => [] end = []).
    { destruct Hmsg as [-> | ->]; reflexivity. }
    rewrite E. cbn [fst with_dom dom set_dataStatus kpi].
    match goal with
    | |- kpi (dom (updateKPIs sc ?r)) = _ =>
        assert (Hd : data (state r) = [])
          by (rewrite applyFiltersAndRender_state; reflexivity);
        unfold updateKPIs; rewrite Hd
    end.
    rewrite applyFiltersAndRender_dom. reflexivity.
Qed.

(** ** Reconnection *)

Lemma Math_min_le_r (a b : Q) : (JS.Math_min a b <= b)%Q.
Proof.
  unfold JS.Math_min. destruct (Qle_bool a b) eqn:E.
  - apply Qle_bool_iff, E.
  - apply Qle_refl.
Qed.

Lemma Math_min_mono (a a' b : Q) :
  (a <= a')%Q -> (JS.Math_min a b <= JS.Math_min a' b)%Q.
Proof.
  intro H. unfold JS.Math_min.
  destruct (Qle_bool a b) eqn:E, (Qle_bool a' b) eqn:E'.
  - exact H.
  - apply Qle_bool_iff, E.
  - apply Qle_trans with a; [|exact H].
    apply Qlt_le_weak, Qnot_le_lt. intro Hb. apply Qle_bool_iff in Hb. congruence.
  - apply Qle_refl.
Qed.

Lemma reconnectDelay_cap (r : nat) : (reconnectDelay r <= 30000)%Q.
Proof. apply Math_min_le_r. Qed.

Lemma reconnectDelay_mono (r r' : nat) :
  (r <= r')%nat -> (reconnectDelay r <= reconnectDelay r')%Q.
Proof.
  intro H. unfold reconnectDelay. apply Math_min_mono.
  apply Qmult_le_l; [reflexivity|].
  unfold JS.Math_pow. apply Qpower_le_compat_l.
  - apply Nat2Z.inj_le, H.
  - discriminate.
Qed.

Lemma scheduled_clear_ping (p : Page) (es : list Effect) :
  scheduled (clear_ping p ++ es) = scheduled es.
Proof. unfold clear_ping. destruct (pingInterval (state p)); reflexivity. Qed.

Lemma may_retry_some (s : State) (r : nat) :
  may_retry s = Some r <->
  wsRetries s = Some r /\ exists m, maxWsRetries s = Some m /\ (r < m)%nat.
Proof.
  unfold may_retry.
  destruct (wsRetries s) as [r0|], (maxWsRetries s) as [m|];
    try (split; [discriminate | intros [H [m' [H' _]]]; discriminate]).
  destruct (r0 <? m)%nat eqn:E.
  - apply Nat.ltb_lt in E. split.
    + intros [= <-]. split; [reflexivity|]. exists m. split; [reflexivity | exact E].
    + intros [[= <-] _]. reflexivity.
  - apply Nat.ltb_ge in E. split; [discriminate|].
    intros [[= <-] [m' [[= <-] H]]]. lia.
Qed.

Lemma may_retry_none (s : State) : may_retry s = None <-> attempts_left s = 0%nat.
Proof.
  unfold may_retry, attempts_left.
  destruct (wsRetries s) as [r|], (maxWsRetries s) as [m|]; try tauto.
  destruct (r <? m)%nat eqn:E.
  - apply Nat.ltb_lt in E. split; [discriminate | lia].
  - apply Nat.ltb_ge in E. split; [lia | reflexivity].
Qed.

(** [onclose] when a retry is left. *)
Lemma onclose_retry (p : Page) (r : nat) :
  may_retry (state p) = Some r ->
  scheduled (snd (onclose p)) = [reconnectDelay r] /\
  wsRetries (state (fst (onclose p))) = Some (S r) /\
  maxWsRetries (state (fst (onclose p))) = maxWsRetries (state p).
Proof.
  intro H. unfold onclose. cbn [with_state with_dom state].
  replace (may_retry (set_ws None (wsRetries (state p)) (pingInterval (state p))
                             (state p)))
    with (may_retry (state p)) by reflexivity.
  rewrite H. cbn [fst snd]. rewrite scheduled_clear_ping. repeat split.
Qed.

(** [onclose] when none is left. *)
Lemma onclose_stop (p : Page) :
  may_retry (state p) = None ->
  scheduled (snd (onclose p)) = [] /\
  wsRetries (state (fst (onclose p))) = wsRetries (state p) /\
  maxWsRetries (state (fst (onclose p))) = maxWsRetries (state p).
Proof.
  intro H. unfold onclose. cbn [with_state with_dom state].
  replace (may_retry (set_ws None (wsRetries (state p)) (pingInterval (state p))
                             (state p)))
    with (may_retry (state p)) by reflexivity.
  rewrite H. cbn [fst snd]. rewrite scheduled_clear_ping. repeat split.
Qed.

Lemma disconnects_delays (n : nat) (p : Page) :
  fst (disconnects n p)
  = map reconnectDelay
        (seq (retries_done (state p)) (Nat.min n (attempts_left (state p)))) /\
  attempts_left (state (snd (disconnects n p)))
  = (attempts_left (state p) - n)%nat.
Proof.
  revert p. induction n as [|n IH]; intro p.
  - cbn. split; [reflexivity | lia].
  - cbn [disconnects].
    destruct (onclose p) as [p1 es] eqn:Eo.
    destruct (may_retry (state p)) as [r|] eqn:Er.
    + destruct (onclose_retry p r Er) as [Hs [Hr Hm]].
      rewrite Eo in Hs, Hr, Hm. cbn [fst snd] in Hs, Hr, Hm.
      rewrite Hs.
      set (p2 := fst (onerror (fst (connectWebSocket p1)))).
      assert (Hr2 : wsRetries (state p2) = Some (S r)) by exact Hr.
      assert (Hm2 : maxWsRetries (state p2) = maxWsRetries (state p)) by exact Hm.
      destruct (IH p2) as [IHd IHa].
      destruct (disconnects n p2) as [ds p3]. cbn [fst snd] in *.
      apply may_retry_some in Er. destruct Er as [Hw [m [Hx Hlt]]].
      unfold attempts_left, retries_done in *.
      rewrite Hr2, Hm2, Hx in *. rewrite Hw.
      split.
      * rewrite IHd.
        replace (Nat.min (S n) (m - r)) with (S (Nat.min n (m - S r))) by lia.
        reflexivity.
      * rewrite IHa. lia.
    + destruct (onclose_stop p Er) as [Hs [Hr Hm]].
      rewrite Eo in Hs, Hr, Hm. cbn [fst snd] in Hs, Hr, Hm.
      rewrite Hs.
      assert (Ha : attempts_left (state p1) = attempts_left (state p)).
      { unfold attempts_left. rewrite Hr, Hm. reflexivity. }
      destruct (IH p1) as [IHd IHa].
      destruct (disconnects n p1) as [ds p3]. cbn [fst snd] in *.
      apply may_retry_none in Er.
      rewrite Ha, Er in *.
      split.
      * rewrite IHd. rewrite !Nat.min_0_r. reflexivity.
      * rewrite IHa. reflexivity.
Qed.

Lemma delays_sorted (r k : nat) :
  StronglySorted Qle (map reconnectDelay (seq r k)).
Proof.
  revert r. induction k as [|k IH]; intro r; cbn [seq map].
  - constructor.
  - constructor; [apply IH|].
    apply Forall_forall. intros d Hd.
    apply in_map_iff in Hd. destruct Hd as [i [<- Hi]].
    apply in_seq in Hi. apply reconnectDelay_mono. lia.
Qed.

Lemma delays_capped (l : list nat) :
  Forall (fun d => (d <= 30000)%Q) (map reconnectDelay l).
Proof.
  apply Forall_forall. intros d Hd.
  apply in_map_iff in Hd. destruct Hd as [i [<- _]]. apply reconnectDelay_cap.
Qed.

(** The refresh button neither schedules a reconnection nor touches the
    retry counters. *)
Lemma refreshClick_no_reconnect (sc : script) (p : Page)
    (posted : Response (option string)) (pulled : Response Msg) :
  scheduled (snd (refreshClick sc p posted pulled)) = [] /\
  wsRetries (state (fst (refreshClick sc p posted pulled))) = wsRetries (state p) /\
  maxWsRetries (state (fst (refreshClick sc p posted pulled)))
  = maxWsRetries (state p).
Proof.
  unfold refreshClick.
  destruct sc; cbn [with_dom state].
  - destruct (ws_open (state p)); repeat split.
  - destruct (ws_open (state p)); [repeat split|].
    destruct posted as [st|]; [|repeat split].
    destruct (is_str st "ok"); [|repeat split].
    destruct pulled as [msg|]; [|repeat split].
    unfold handleDataUpdate. cbn [fst snd with_dom state].
    match goal with
    | |- context [updateKPIs part_000 ?q] =>
        destruct (updateKPIs_frame part_000 q) as [Hs _]; rewrite Hs
    end.
    rewrite applyFiltersAndRender_state. repeat split.
Qed.

(** C4: over any number of disconnections in a row, with no successful
    open in between, the delays [onclose] schedules are
    [min(1000 * 1.5^retries, 30000)] for consecutive retry counts: the
    sequence is non-decreasing and every delay is at most the cap of
    30000 ms.  The number of reconnections scheduled is bounded by the
    retries left ([maxWsRetries - wsRetries], none when [app.js] leaves
    both undefined); once none is left [onclose] schedules nothing, and
    a click on the refresh button neither schedules a reconnection nor
    changes the retry count. *)
Theorem reconnect_backoff (n : nat) (p : Page) :
  let ds := fst (disconnects n p) in
  ds = map reconnectDelay
           (seq (retries_done (state p)) (Nat.min n (attempts_left (state p)))) /\
  StronglySorted Qle ds /\
  Forall (fun d => (d <= 30000)%Q) ds /\
  attempts_left (state (snd (disconnects n p))) = (attempts_left (state p) - n)%nat /\
  (attempts_left (state p) = 0%nat -> scheduled (snd (onclose p)) = []) /\
  (forall sc posted pulled,
      scheduled (snd (refreshClick sc p posted pulled)) = [] /\
      attempts_left (state (fst (refreshClick sc p posted pulled)))
      = attempts_left (state p)).
Proof.
  cbv zeta. destruct (disconnects_delays n p) as [Hd Ha].
  split; [exact Hd|]. rewrite Hd.
  split; [apply delays_sorted|].
  split; [apply delays_capped|].
  split; [exact Ha|].
  split.
  - intro H. apply may_retry_none in H. apply (onclose_stop p H).
  - intros sc posted pulled.
    destruct (refreshClick_no_reconnect sc p posted pulled) as [Hs [Hr Hm]].
    split; [exact Hs|]. unfold attempts_left. rewrite Hr, Hm. reflexivity.
Qed.

(** ** The sort of the pipeline *)

Lemma inject_Z_pos (z : Z) : (0 < inject_Z z)%Q <-> (0 < z)%Z.
Proof. change 0%Q with (inject_Z 0). rewrite <- Zlt_Qlt. reflexivity. Qed.

Lemma inject_Z_neg (z : Z) : (inject_Z z < 0)%Q <-> (z < 0)%Z.
Proof. change 0%Q with (inject_Z 0). rewrite <- Zlt_Qlt. reflexivity. Qed.

Lemma inject_Z_nonpos (z : Z) : (inject_Z z <= 0)%Q <-> (z <= 0)%Z.
Proof. change 0%Q with (inject_Z 0). rewrite <- Zle_Qle. reflexivity. Qed.

(** In a numeric column rows are compared by their numbers, a missing
    one read as zero. *)
Lemma sortCompare_numeric (col : Column) (asc : bool) (a b : Opportunity) :
  col <> col_currency ->
  sortCompare col asc a b
  = if asc then (JS.nullish (num_prop col a) - JS.nullish (num_prop col b))%Q
    else (JS.nullish (num_prop col b) - JS.nullish (num_prop col a))%Q.
Proof. destruct col; intro H; try reflexivity. contradiction. Qed.

(** With a consistent [localeCompare] the comparison function of the
    pipeline is consistent, for every column and direction. *)
Lemma sortCompare_consistent (col : Column) (asc : bool) :
  locale_consistent -> consistent (sortCompare col asc).
Proof.
  intros [Hconv Htrans].
  assert (Hnum : forall f : Opportunity -> Q,
             consistent (fun a b => if asc then (f a - f b)%Q else (f b - f a)%Q)).
  { intro f. destruct asc; constructor; intros; try split; intros; lra. }
  destruct col;
    try (apply (Hnum (fun a => JS.nullish (num_prop _ a))));
    try exact (Hnum (fun _ => 0%Q)).
  unfold sortCompare. destruct asc; constructor; intros.
  - rewrite inject_Z_pos, inject_Z_neg. apply Hconv.
  - rewrite inject_Z_nonpos in *. eapply Htrans; eassumption.
  - rewrite inject_Z_pos, inject_Z_neg. apply Hconv.
  - rewrite inject_Z_nonpos in *. eapply Htrans; eassumption.
Qed.

(** C8: for every list of rows and every (column, direction) pair the
    sort of the pipeline returns a permutation of the list in sorted
    order in which the rows whose keys compare equal keep their relative
    input order; sorting the result again with the same column and
    direction leaves it as it is, and so does the pipeline on its own
    output.  This order is the only sorted one that keeps ties in input
    order, so it is the one any stable sort returns.  Rows are compared numerically in a numeric column, a
    missing value read as zero, and by [localeCompare] in the textual
    column.  [localeCompare] is taken to be a consistent comparison. *)
Theorem sort_stable_idempotent (col : Column) (asc : bool) (l : list Opportunity) :
  locale_consistent ->
  let comparefn := sortCompare col asc in
  let sorted := JS.sort comparefn l in
  Permutation sorted l /\
  StronglySorted (before comparefn) sorted /\
  (forall r, filter (same_key comparefn r) sorted = filter (same_key comparefn r) l) /\
  JS.sort comparefn sorted = sorted /\
  (forall s, StronglySorted (before comparefn) s -> Permutation s l ->
             (forall r, filter (same_key comparefn r) s
                        = filter (same_key comparefn r) l) ->
             s = sorted) /\
  (forall sc p, sortCol (state p) = col -> sortAsc (state p) = asc ->
                JS.sort comparefn (pipeline sc p) = pipeline sc p) /\
  (forall a b, col <> col_currency ->
               (before comparefn a b <->
                if asc
                then (JS.nullish (num_prop col a) <= JS.nullish (num_prop col b))%Q
                else (JS.nullish (num_prop col b) <= JS.nullish (num_prop col a))%Q)) /\
  (forall a b, col = col_currency ->
               (before comparefn a b <->
                if asc
                then (localeCompare (currency a) (currency b) <= 0)%Z
                else (localeCompare (currency b) (currency a) <= 0)%Z)).
Proof.
  intros Hloc comparefn sorted.
  pose proof (sortCompare_consistent col asc Hloc) as Hcons.
  split; [apply sort_perm|].
  split; [apply sort_strongly_sorted, Hcons|].
  split; [intro r; apply sort_stable, Hcons|].
  split; [apply sort_idempotent, Hcons|].
  split; [intros s Hs Hp Hf; apply (sort_is_the_stable_order _ Hcons); assumption|].
  split; [|split].
  - intros sc p Hc Ha. unfold pipeline. rewrite Hc, Ha.
    apply sort_idempotent, Hcons.
  - intros a b Hcol. unfold before. subst comparefn.
    rewrite (sortCompare_numeric col asc a b Hcol).
    destruct asc; split; intro; lra.
  - intros a b ->. unfold before. subst comparefn. unfold sortCompare.
    rewrite inject_Z_nonpos. destruct asc; reflexivity.
Qed.

(** ** Derived fields *)




(** ** The pipeline as a function of its inputs *)

Lemma pipeline_ext (sc : script) (p q : Page) :
  data (state p) = data (state q) ->
  sortCol (state p) = sortCol (state q) ->
  sortAsc (state p) = sortAsc (state q) ->
  filters (dom p) = filters (dom q) ->
  pipeline sc p = pipeline sc q.
Proof. unfold pipeline. intros -> -> -> ->. reflexivity. Qed.

Lemma updateKPIs_ext (sc : script) (p q : Page) :
  data (state p) = data (state q) ->
  lastUpdate (state p) = lastUpdate (state q) ->
  kpi (dom p) = kpi (dom q) ->
  kpi (dom (updateKPIs sc p)) = kpi (dom (updateKPIs sc q)).
Proof.
  intros Hd Hl Hk. unfold updateKPIs. rewrite Hd, Hl.
  destruct (data (state q)); [exact Hk|].
  destruct sc; cbn; rewrite Hk; reflexivity.
Qed.

(** C6 (amended): the pipeline is deterministic and reads nothing but
    its inputs: what [applyFiltersAndRender] stores in [state.filtered]
    and writes to the count and to the table body is the same on two
    pages that agree on the snapshot, the sort state and the controls
    (loan size included), and the KPI texts [updateKPIs] leaves are the
    same on two pages that agree on the snapshot, its timestamp and the
    KPI texts before.  It is not free of effects: it writes
    [state.filtered] and, in the DOM, the count, the table body and the
    KPI elements, and nothing else; handling a snapshot asks nothing of
    the network. *)
Theorem pipeline_function_of_inputs (sc : script) (p q : Page) :
  data (state p) = data (state q) ->
  sortCol (state p) = sortCol (state q) ->
  sortAsc (state p) = sortAsc (state q) ->
  filters (dom p) = filters (dom q) ->
  let p' := applyFiltersAndRender sc p in
  let q' := applyFiltersAndRender sc q in
  filtered (state p') = filtered (state q') /\
  filteredCount (dom p') = filteredCount (dom q') /\
  tbody (dom p') = tbody (dom q') /\
  state p' = set_filtered (filtered (state p')) (state p) /\
  dom p' = set_table (filteredCount (dom p')) (tbody (dom p')) (dom p) /\
  debounce p' = debounce p /\
  (lastUpdate (state p) = lastUpdate (state q) -> kpi (dom p) = kpi (dom q) ->
   kpi (dom (updateKPIs sc p)) = kpi (dom (updateKPIs sc q))) /\
  state (updateKPIs sc p) = state p /\
  dom (updateKPIs sc p) = set_kpi (kpi (dom (updateKPIs sc p))) (dom p) /\
  (forall msg, forallb (fun e => negb (network e)) (snd (handleDataUpdate sc p msg))
               = true).
Proof.
  intros Hd Hc Ha Hf p' q'. subst p' q'.
  rewrite !applyFiltersAndRender_filtered, !applyFiltersAndRender_dom,
          !applyFiltersAndRender_state.
  rewrite (pipeline_ext sc p q Hd Hc Ha Hf), Hf.
  destruct (updateKPIs_frame sc p) as [Hs [_ Hdom]].
  repeat split; try assumption.
  intros Hl Hk. apply updateKPIs_ext; assumption.
Qed.

(** ** The refresh button *)

(** C5 (the defect in [app.js]): whatever the page and whatever the
    server would answer, a click on the refresh button of [app.js] sends
    no refresh directive over an open stream and issues no request when
    the stream is closed: with the stream open the listener logs the
    [ReferenceError] it caught, and in both cases it only disables the
    button and arms the timer that enables it again. *)
Theorem refreshClick_app_js_does_nothing (p : Page)
    (posted : Response (option string)) (pulled : Response Msg) :
  let '(p', es) := refreshClick app_js p posted pulled in
  es = ((if ws_open (state p) then [ConsoleError "Refresh failed:"] else [])
        ++ [SetTimeout cb_enableRefresh 2000])%list /\
  existsb network es = false /\
  state p' = state p /\
  dom p' = set_btnRefresh {| btn_disabled := true; btn_text := "⏳" |} (dom p).
Proof.
  unfold refreshClick. cbn [with_dom state].
  destruct (ws_open (state p)); repeat split.
Qed.

(** The copy in [part_000] does what [app.js] misses. *)
Lemma refreshClick_part_000 (p : Page) (pulled : Msg) :
  let q := with_dom (set_btnRefresh {| btn_disabled := true; btn_text := "⏳" |}) p in
  (ws_open (state p) = true ->
   forall posted pulled',
     refreshClick part_000 p posted pulled'
     = (q, [WsSend "refresh"; SetTimeout cb_enableRefresh 2000])) /\
  (ws_open (state p) = false ->
   refreshClick part_000 p (resp_json (Some "ok")) (resp_json pulled)
   = (fst (handleDataUpdate part_000 q pulled),
      [Fetch "POST" "/api/refresh"; Fetch "GET" "/api/opportunities"]
        ++ snd (handleDataUpdate part_000 q pulled)
        ++ [SetTimeout cb_enableRefresh 2000])%list).
Proof.
  split; intro H; [intros posted pulled'|]; unfold refreshClick;
    cbn [with_dom state]; rewrite H; reflexivity.
Qed.

(** ** The chart *)

(** C9 (the defect): when the history of the token is the envelope the
    endpoint answers with and its series is empty, [openChartModal]
    shows no message: the [data.length === 0] test does not fire on the
    envelope, and [renderChart] returns without drawing.  Nothing is
    thrown, no chart is left, and the title carries no error mark. *)
Theorem openChartModal_empty_series (m : Modal) (tok : string) (trend : option Trend) :
  let '(m', es) := openChartModal m tok (resp_json (hist_object (Some []) trend)) in
  es = [Fetch "GET" ("/api/history/" ++ tok)] /\
  ~ In (Alert NO_HISTORY) es /\
  chartInstance m' = None /\
  modal_error m' = false /\
  modal_visible m' = true.
Proof.
  cbn. repeat split.
  intros [H|[]]. discriminate.
Qed.

(** The message is shown only for a body that is [null] or an empty
    array. *)
Lemma openChartModal_alert (m : Modal) (tok : string) (fetched : Response History) :
  In (Alert NO_HISTORY) (snd (openChartModal m tok fetched)) <->
  fetched = resp_json hist_null \/ fetched = resp_json (hist_array []).
Proof.
  destruct fetched as [[| [|pt pts] | [pts|] trend] |]; cbn.
  - split; [intros _; left; reflexivity | intros _; right; left; reflexivity].
  - split; [intros _; right; reflexivity | intros _; right; left; reflexivity].
  - split; [intros [H|[H|[]]]; discriminate | intros [H|H]; discriminate].
  - destruct (JS.sort _ pts) eqn:E; cbn.
    + split; [intros [H|[]]; discriminate | intros [H|H]; discriminate].
    + split; [intros [H|[]]; discriminate | intros [H|H]; discriminate].
  - split; [intros [H|[H|[]]]; discriminate | intros [H|H]; discriminate].
  - split; [intros [H|[H|[]]]; discriminate | intros [H|H]; discriminate].
Qed.

(** A chart drawn earlier is destroyed before a new one is created: if
    the only live chart is the one [chartInstance] holds, the same is
    true after [openChartModal]. *)
Lemma openChartModal_releases (m : Modal) (tok : string) (fetched : Response History) :
  live_charts m = match chartInstance m with Some _ => 1%nat | None => 0%nat end ->
  let m' := fst (openChartModal m tok fetched) in
  live_charts m' = match chartInstance m' with Some _ => 1%nat | None => 0%nat end.
Proof.
  intro H.
  assert (H0 : match chartInstance m with
               | Some _ => pred (live_charts m)
               | None => live_charts m
               end = 0%nat).
  { rewrite H. destruct (chartInstance m); reflexivity. }
  destruct fetched as [[| [|pt pts] | [pts|] trend] |]; cbn; rewrite ?H0;
    try reflexivity.
  destruct (JS.sort _ pts); cbn; rewrite ?H0; reflexivity.
Qed.

(** ** Further properties of the sort *)

Section ReverseFacts.
Context {A : Type} (comparefn : A -> A -> Q).
Hypothesis Hcons : consistent comparefn.

Lemma consistent_flip : consistent (fun a b => comparefn b a).
Proof.
  destruct Hcons as [Hc Ht]. constructor.
  - intros a b. split; intro H; apply Hc; exact H.
  - intros a b c Hab Hbc. apply Ht with b; assumption.
Qed.

Lemma same_key_sym (x y : A) : same_key comparefn x y = same_key comparefn y x.
Proof.
  assert (H : forall a b, same_key comparefn a b = true -> same_key comparefn b a = true).
  { intros a b Hab. apply (same_key_not_after comparefn Hcons a) with (y := a) in Hab as H1;
      [|apply same_key_refl, Hcons].
    pose proof (same_key_not_after comparefn Hcons a a b
                  (same_key_refl comparefn Hcons a) Hab) as H2.
    apply ltb_false_iff in H1, H2.
    unfold same_key in *. apply Qeq_bool_iff in Hab. apply Qeq_bool_iff.
    apply Qle_antisym; [exact H1|].
    destruct (Qlt_le_dec (comparefn b a) 0) as [Hlt|Hge]; [|exact Hge].
    apply (cmp_converse _ Hcons) in Hlt. rewrite Hab in Hlt.
    exfalso. apply (Qlt_irrefl 0 Hlt). }
  destruct (same_key comparefn x y) eqn:E.
  - symmetry. apply H, E.
  - destruct (same_key comparefn y x) eqn:E'; [|reflexivity].
    apply H in E'. congruence.
Qed.

Lemma same_key_trans (r x y : A) :
  same_key comparefn r x = true -> same_key comparefn r y = true ->
  same_key comparefn x y = true.
Proof.
  intros Hx Hy.
  pose proof (same_key_not_after comparefn Hcons r x y Hx Hy) as H1.
  pose proof (same_key_not_after comparefn Hcons r y x Hy Hx) as H2.
  apply ltb_false_iff in H1, H2.
  unfold same_key. apply Qeq_bool_iff.
  apply Qle_antisym; [exact H1|].
  destruct (Qlt_le_dec (comparefn x y) 0) as [Hlt|Hge]; [|exact Hge].
  apply (cmp_converse _ Hcons) in Hlt.
  exfalso. apply (Qlt_not_le _ _ Hlt H2).
Qed.

(** Without ties at most one element has a given key. *)
Lemma no_ties_filter (r : A) (l : list A) :
  no_ties comparefn l = true ->
  (length (filter (same_key comparefn r) l) <= 1)%nat.
Proof.
  induction l as [|x l IH]; cbn [no_ties filter]; intro H.
  - cbn. lia.
  - apply andb_true_iff in H. destruct H as [Hx Hl].
    destruct (same_key comparefn r x) eqn:E; [|apply IH, Hl].
    assert (Hnone : filter (same_key comparefn r) l = []).
    { rewrite forallb_forall in Hx.
      clear IH Hl. induction l as [|y l IHl]; [reflexivity|].
      cbn [filter]. destruct (same_key comparefn r y) eqn:Ey.
      - pose proof (same_key_trans r x y E Ey) as Hxy.
        specialize (Hx y (or_introl eq_refl)). rewrite Hxy in Hx. discriminate Hx.
      - apply IHl. intros z Hz. apply Hx. right. exact Hz. }
    rewrite Hnone. cbn. lia.
Qed.

Lemma StronglySorted_snoc (R : A -> A -> Prop) (l : list A) (x : A) :
  StronglySorted R l -> Forall (fun y => R y x) l -> StronglySorted R (l ++ [x]).
Proof.
  induction 1 as [|a l Hs IH Ha]; intro Hx; cbn [app].
  - repeat constructor.
  - apply Forall_cons_iff in Hx. destruct Hx as [Hax Hx].
    constructor; [apply IH, Hx|].
    apply Forall_app. split; [exact Ha | repeat constructor; exact Hax].
Qed.

Lemma StronglySorted_rev (R : A -> A -> Prop) (l : list A) :
  StronglySorted R l -> StronglySorted (fun a b => R b a) (rev l).
Proof.
  induction 1 as [|a l Hs IH Ha]; cbn [rev].
  - constructor.
  - apply StronglySorted_snoc; [exact IH|]. apply Forall_rev, Ha.
Qed.

Lemma rev_short (l : list A) : (length l <= 1)%nat -> rev l = l.
Proof.
  destruct l as [|x [|y l]]; cbn; intro H; try reflexivity. lia.
Qed.

(** Without ties the sort in the other direction returns the reversed
    list. *)
Lemma sort_flip_rev (l : list A) :
  no_ties comparefn l = true ->
  JS.sort (fun a b => comparefn b a) l = rev (JS.sort comparefn l).
Proof.
  intro Hno. symmetry.
  apply (sort_is_the_stable_order _ consistent_flip).
  - apply (StronglySorted_rev (before comparefn)), sort_strongly_sorted, Hcons.
  - apply perm_trans with (JS.sort comparefn l).
    + apply Permutation_sym, Permutation_rev.
    + apply sort_perm.
  - intro r.
    assert (Hext : forall f, filter (same_key (fun a b => comparefn b a) r) f
                             = filter (same_key comparefn r) f).
    { intro f. apply filter_ext. intro x. unfold same_key at 1.
      exact (same_key_sym x r). }
    rewrite !Hext, filter_rev, (sort_stable _ Hcons).
    apply rev_short, no_ties_filter, Hno.
Qed.
End ReverseFacts.

Lemma sort_ext {A : Type} (f g : A -> A -> Q) (l : list A) :
  (forall a b, f a b = g a b) -> JS.sort f l = JS.sort g l.
Proof.
  intro H. induction l as [|x l IH]; cbn [JS.sort]; [reflexivity|].
  rewrite IH. generalize (JS.sort g l). intro s.
  induction s as [|y s IHs]; cbn [JS.insert]; [reflexivity|].
  rewrite H, IHs. reflexivity.
Qed.

Lemma sortCompare_flip (col : Column) (asc : bool) (a b : Opportunity) :
  sortCompare col (negb asc) a b = sortCompare col asc b a.
Proof. destruct col, asc; reflexivity. Qed.

Lemma Column_eqb_eq (a b : Column) : Column_eqb a b = true <-> a = b.
Proof.
  destruct a, b; cbn; split; intro H; try reflexivity; try discriminate H.
  - apply String.eqb_eq in H. congruence.
  - injection H as ->. apply String.eqb_refl.
Qed.

(** Toggling the direction of the sort reverses the rows when no two of
    them share a key: for the sort alone, and for a click on the header
    of the column the table is sorted by. *)
Theorem sort_other_direction (sc : script) (p : Page) (col : Column) (asc : bool)
    (l : list Opportunity) :
  locale_consistent ->
  no_ties (sortCompare col asc) l = true ->
  no_ties (sortCompare (sortCol (state p)) (sortAsc (state p)))
          (filter (keeps sc (filters (dom p))) (data (state p))) = true ->
  JS.sort (sortCompare col (negb asc)) l = rev (JS.sort (sortCompare col asc) l) /\
  filtered (state (sortClick sc (sortCol (state p)) p)) = rev (pipeline sc p).
Proof.
  intros Hloc Hl Hp. split.
  - rewrite (sort_ext _ (fun a b => sortCompare col asc b a))
      by apply sortCompare_flip.
    apply sort_flip_rev; [apply sortCompare_consistent, Hloc | exact Hl].
  - unfold sortClick.
    rewrite (proj2 (Column_eqb_eq _ _) eq_refl).
    rewrite applyFiltersAndRender_filtered. unfold pipeline. cbn.
    rewrite (sort_ext _ (fun a b => sortCompare (sortCol (state p)) (sortAsc (state p)) b a))
      by apply sortCompare_flip.
    apply sort_flip_rev; [apply sortCompare_consistent, Hloc | exact Hp].
Qed.

Lemma Column_eqb_refl (c : Column) : Column_eqb c c = true.
Proof. apply Column_eqb_eq. reflexivity. Qed.

Lemma sortClick_eq (sc : script) (col : Column) (p : Page) :
  sortClick sc col p
  = applyFiltersAndRender sc
      (with_state
         (set_sort col (if Column_eqb (sortCol (state p)) col
                        then negb (sortAsc (state p)) else false)) p).
Proof.
  unfold sortClick. destruct (Column_eqb (sortCol (state p)) col) eqn:E.
  - apply Column_eqb_eq in E. rewrite <- E. reflexivity.
  - reflexivity.
Qed.

(** A render after a change of the sort state overwrites the render
    before it. *)
Lemma render_absorbs (sc : script) (c : Column) (a : bool) (p : Page) :
  applyFiltersAndRender sc (with_state (set_sort c a) (applyFiltersAndRender sc p))
  = applyFiltersAndRender sc (with_state (set_sort c a) p).
Proof. reflexivity. Qed.

(** A click on a header sorts by its column, descending if the table was
    sorted by another column and in the other direction if it was sorted
    by this one; two further clicks on the same header bring back the
    same page. *)
Theorem sortClick_cycle (sc : script) (col : Column) (p : Page) :
  let p1 := sortClick sc col p in
  sortCol (state p1) = col /\
  sortAsc (state p1)
  = (if Column_eqb (sortCol (state p)) col then negb (sortAsc (state p)) else false) /\
  sortClick sc col (sortClick sc col p1) = p1.
Proof.
  cbv zeta. rewrite (sortClick_eq sc col p).
  set (a := if Column_eqb (sortCol (state p)) col
            then negb (sortAsc (state p)) else false).
  split; [reflexivity|]. split; [reflexivity|].
  rewrite (sortClick_eq sc col (applyFiltersAndRender sc _)).
  cbn [state applyFiltersAndRender with_state with_dom set_sort set_filtered
       sortCol sortAsc].
  rewrite Column_eqb_refl, render_absorbs.
  rewrite (sortClick_eq sc col (applyFiltersAndRender sc _)).
  cbn [state applyFiltersAndRender with_state with_dom set_sort set_filtered
       sortCol sortAsc].
  rewrite Column_eqb_refl, render_absorbs, negb_involutive.
  reflexivity.
Qed.

(** ** Further properties of the listeners *)

(** Typing into a debounced box several times before its timer fires has
    the effect of typing the last value once: the earlier values are
    never rendered, and one firing of the timer renders the last one.  A
    timer that is not armed does nothing when it fires. *)
Theorem debounce_coalesces (sc : script) (p : Page) :
  (forall vs v,
      run sc p (map ev_apr vs ++ [ev_apr v; ev_timer tk_apr])
      = run sc p [ev_apr v; ev_timer tk_apr]) /\
  (forall vs v,
      run sc p (map ev_search vs ++ [ev_search v; ev_timer tk_search])
      = run sc p [ev_search v; ev_timer tk_search]) /\
  (forall vs v,
      run sc p (map ev_loan vs ++ [ev_loan v; ev_timer tk_loan])
      = run sc p [ev_loan v; ev_timer tk_loan]) /\
  (forall k, armed k (debounce p) = false -> step sc p (ev_timer k) = (p, [])) /\
  (forall k, armed k (debounce (fst (step sc p (ev_timer k)))) = false).
Proof.
  split; [|split; [|split; [|split]]].
  - intros vs. revert p. induction vs as [|a vs IH]; intros p v; [reflexivity|].
    cbn [map app]. change (run sc p (ev_apr a :: ?l)) with (run sc (fst (step sc p (ev_apr a))) l).
    rewrite IH. reflexivity.
  - intros vs. revert p. induction vs as [|a vs IH]; intros p v; [reflexivity|].
    cbn [map app].
    change (run sc p (ev_search a :: ?l)) with (run sc (fst (step sc p (ev_search a))) l).
    rewrite IH. reflexivity.
  - intros vs. revert p. induction vs as [|a vs IH]; intros p v; [reflexivity|].
    cbn [map app].
    change (run sc p (ev_loan a :: ?l)) with (run sc (fst (step sc p (ev_loan a))) l).
    rewrite IH. destruct sc; reflexivity.
  - intros k H. cbn [step]. rewrite H. reflexivity.
  - intro k. cbn [step]. destruct (armed k (debounce p)) eqn:E; cbn [fst].
    + rewrite applyFiltersAndRender_debounce. destruct k; reflexivity.
    + exact E.
Qed.

(** ** The cached snapshot *)

Lemma handleDataUpdate_conn (sc : script) (p : Page) (msg : Msg) :
  let s' := state (fst (handleDataUpdate sc p msg)) in
  ws s' = ws (state p) /\ wsRetries s' = wsRetries (state p) /\
  maxWsRetries s' = maxWsRetries (state p) /\
  pingInterval s' = pingInterval (state p) /\
  sortCol s' = sortCol (state p) /\ sortAsc s' = sortAsc (state p).
Proof.
  cbv zeta. unfold handleDataUpdate. cbn [fst with_dom state].
  match goal with
  | |- context [updateKPIs sc ?q] =>
      destruct (updateKPIs_frame sc q) as [Hs _]; rewrite Hs
  end.
  rewrite applyFiltersAndRender_state. repeat split.
Qed.

Lemma step_data (sc : script) (p : Page) (e : Event) :
  data (state (fst (step sc p e)))
  = match delivered e with Some l => l | None => data (state p) end.
Proof.
  destruct (delivered e) as [l|] eqn:E; [apply step_delivered, E|].
  destruct e as [| f | | | r | col | v | v | v | v | v | k]; cbn [step].
  - reflexivity.
  - destruct f; try discriminate E; reflexivity.
  - unfold onclose. destruct (may_retry _); reflexivity.
  - reflexivity.
  - destruct r; try discriminate E. reflexivity.
  - cbn [fst]. rewrite sortClick_eq, applyFiltersAndRender_state. reflexivity.
  - unfold sourceChange. destruct sc; cbn [fst];
      rewrite applyFiltersAndRender_state; reflexivity.
  - cbn [fst]. unfold availableChange. rewrite applyFiltersAndRender_state. reflexivity.
  - reflexivity.
  - destruct sc; reflexivity.
  - reflexivity.
  - destruct (armed k (debounce p)); cbn [fst];
      [rewrite applyFiltersAndRender_state|]; reflexivity.
Qed.

Lemma run_data (sc : script) (es : list Event) (p : Page) :
  data (state (run sc p es)) = latest es (data (state p)).
Proof.
  revert p. induction es as [|e es IH]; intro p; cbn [run latest].
  - reflexivity.
  - rewrite IH, step_data. reflexivity.
Qed.

(** After any run of events the cached snapshot is the one delivered
    last, by the stream or by a pull, whichever came later; no other
    event changes it.  Every row then listed is a row of that snapshot. *)
Theorem cache_is_latest (sc : script) (p : Page) (es : list Event) :
  data (state (run sc p es)) = latest es (data (state p)) /\
  (forall e d, In d (filtered (state (run sc p (es ++ [e])))) ->
               rerenders (run sc p es) e = true ->
               In d (latest (es ++ [e]) (data (state p)))).
Proof.
  split; [apply run_data|].
  intros e d Hin Hr. rewrite <- (run_data sc).
  assert (Hrun : forall es p, run sc p (es ++ [e]) = fst (step sc (run sc p es) e)).
  { clear. intro es. induction es as [|a es IH]; intro p; cbn [run app].
    - reflexivity.
    - apply IH. }
  rewrite Hrun in Hin |- *.
  destruct (step_rerenders sc (run sc p es) e Hr) as [Hf _].
  rewrite Hf in Hin. unfold pipeline in Hin.
  apply sort_In, filter_In in Hin. apply Hin.
Qed.

(** The timer of the start pulls the snapshot exactly when the cache is
    empty at that moment: a snapshot with no rows that arrived before
    does not hold it back, a snapshot with rows does. *)
Theorem startupFallback_when_empty (sc : script) (p : Page) (es : list Event) :
  existsb network (startupFallback sc (run sc p es)) = true
  <-> latest es (data (state p)) = [].
Proof.
  rewrite <- (run_data sc es p).
  unfold startupFallback. destruct (data (state (run sc p es))).
  - split; [reflexivity|]. intros _. destruct sc; reflexivity.
  - split; discriminate.
Qed.

(** ** Further properties of the connection *)

(** A successful open gives back the whole retry budget: after it the
    retries left are [maxWsRetries] again, and the next disconnection
    schedules the first delay of the backoff, 1000 ms. *)
Theorem onopen_resets_backoff (p : Page) (m : nat) :
  maxWsRetries (state p) = Some (S m) ->
  attempts_left (state (fst (onopen p))) = S m /\
  ws (state (fst (onopen p))) = Some OPEN /\
  scheduled (snd (onclose (fst (onopen p)))) = [1000%Q].
Proof.
  intro H. split; [|split].
  - unfold onopen, attempts_left. cbn. rewrite H. reflexivity.
  - reflexivity.
  - assert (Hr : may_retry (state (fst (onopen p))) = Some 0%nat).
    { unfold onopen, may_retry. cbn. rewrite H. reflexivity. }
    rewrite (proj1 (onclose_retry _ _ Hr)). reflexivity.
Qed.

Lemma step_conn (sc : script) (p : Page) (e : Event) :
  maxWsRetries (state (fst (step sc p e))) = maxWsRetries (state p) /\
  (e <> ev_open -> pingInterval (state (fst (step sc p e))) = pingInterval (state p)).
Proof.
  destruct e as [| f | | | r | col | v | v | v | v | v | k]; cbn [step].
  - split; [reflexivity | intro H; contradiction].
  - destruct f; cbn [onmessage]; try (split; reflexivity).
    destruct (handleDataUpdate_conn sc p m) as [_ [_ [Hm [Hp _]]]]. split; auto.
  - unfold onclose. destruct (may_retry _); split; reflexivity.
  - split; reflexivity.
  - destruct r; cbn [fetchDataREST_done]; try (split; reflexivity).
    destruct (handleDataUpdate_conn sc p body) as [_ [_ [Hm [Hp _]]]]. split; auto.
  - cbn [fst]. rewrite sortClick_eq, applyFiltersAndRender_state. split; reflexivity.
  - unfold sourceChange. destruct sc; cbn [fst];
      rewrite applyFiltersAndRender_state; split; reflexivity.
  - cbn [fst]. unfold availableChange. rewrite applyFiltersAndRender_state.
    split; reflexivity.
  - split; reflexivity.
  - destruct sc; split; reflexivity.
  - split; reflexivity.
  - destruct (armed k (debounce p)); cbn [fst];
      [rewrite applyFiltersAndRender_state|]; split; reflexivity.
Qed.

Lemma scheduled_app (a b : list Effect) : scheduled (a ++ b) = (scheduled a ++ scheduled b)%list.
Proof. apply flat_map_app. Qed.

Lemma step_schedules_none (sc : script) (p : Page) (e : Event) :
  maxWsRetries (state p) = None -> scheduled (snd (step sc p e)) = [].
Proof.
  intro H.
  destruct e as [| f | | | r | col | v | v | v | v | v | k]; cbn [step];
    try reflexivity.
  - unfold onopen. cbn [snd scheduled flat_map app].
    change (flat_map _ (clear_ping p ++ ?l)) with (scheduled (clear_ping p ++ l)).
    rewrite scheduled_clear_ping. reflexivity.
  - destruct f; reflexivity.
  - apply onclose_stop. unfold may_retry. rewrite H.
    destruct (wsRetries (state p)); reflexivity.
  - destruct r; reflexivity.
  - unfold sourceChange. destruct sc; reflexivity.
  - destruct sc; reflexivity.
  - destruct (armed k (debounce p)); reflexivity.
Qed.

(** While [state] has no [maxWsRetries], as in [app.js], no run of
    events schedules a reconnection: once the stream is lost it stays
    lost. *)
Theorem no_reconnect_without_bound (sc : script) (p : Page) (es : list Event) :
  maxWsRetries (state p) = None ->
  scheduled (trace sc p es) = [] /\ maxWsRetries (state (run sc p es)) = None.
Proof.
  revert p. induction es as [|e es IH]; intros p H; cbn [trace run].
  - split; [reflexivity | exact H].
  - assert (H' : maxWsRetries (state (fst (step sc p e))) = None).
    { rewrite (proj1 (step_conn sc p e)). exact H. }
    destruct (IH _ H') as [IH1 IH2].
    rewrite scheduled_app, IH1, (step_schedules_none sc p e H). split; [reflexivity | exact IH2].
Qed.

Lemma step_beats (sc : script) (p : Page) (e : Event) (b : Beats) :
  beats_ok p b -> beats_ok (fst (step sc p e)) (beats (snd (step sc p e)) b).
Proof.
  intros [Hn Hs].
  assert (Hkeep : forall q, pingInterval (state q) = pingInterval (state p) ->
                            beats_ok q b).
  { intros q Hq. split; [exact Hn | rewrite Hq; exact Hs]. }
  destruct e as [| f | | | r | col | v | v | v | v | v | k].
  - cbn [step]. unfold onopen, clear_ping, beats_ok. cbn [fst snd].
    destruct b as [n st]. cbn [beats_running beats_stored] in *.
    destruct (pingInterval (state p)) eqn:Ep; destruct st; cbn;
      try (split; [subst n; reflexivity | reflexivity]).
    specialize (Hs eq_refl). discriminate Hs.
  - destruct f; cbn [step onmessage]; try (apply Hkeep; reflexivity).
    unfold handleDataUpdate at 2. cbn [snd beats fold_left beat].
    apply Hkeep. apply (handleDataUpdate_conn sc p m).
  - cbn [step]. unfold onclose, clear_ping, beats_ok.
    destruct b as [n st]. cbn [beats_running beats_stored] in *.
    destruct (may_retry _); cbn [fst snd];
      destruct (pingInterval (state p)) eqn:Ep; destruct st; cbn;
        rewrite ?Ep; try (split; [subst n; reflexivity | auto]);
        try (split; [reflexivity | intro H; discriminate H]).
  - apply Hkeep. reflexivity.
  - destruct r; cbn [step fetchDataREST_done]; try (apply Hkeep; reflexivity).
    unfold handleDataUpdate at 2. cbn [snd beats fold_left beat].
    apply Hkeep. apply (handleDataUpdate_conn sc p body).
  - apply Hkeep. apply (step_conn sc p (ev_sort col)). discriminate.
  - replace (beats (snd (step sc p (ev_source v))) b) with b
      by (cbn [step]; unfold sourceChange; destruct sc; reflexivity).
    apply Hkeep. apply (step_conn sc p (ev_source v)). discriminate.
  - apply Hkeep. apply (step_conn sc p (ev_available v)). discriminate.
  - apply Hkeep. reflexivity.
  - replace (beats (snd (step sc p (ev_loan v))) b) with b
      by (cbn [step]; destruct sc; reflexivity).
    apply Hkeep. apply (step_conn sc p (ev_loan v)). discriminate.
  - apply Hkeep. reflexivity.
  - replace (beats (snd (step sc p (ev_timer k))) b) with b
      by (cbn [step]; destruct (armed k (debounce p)); reflexivity).
    apply Hkeep. apply (step_conn sc p (ev_timer k)). discriminate.
Qed.

(** Over any run of events at most one heartbeat interval is alive: an
    open clears the interval of the socket before and a close clears the
    one of its own, so a heartbeat never outlives its replacement. *)
Theorem one_heartbeat (sc : script) (p : Page) (b : Beats) (es : list Event) :
  beats_ok p b ->
  beats_ok (run sc p es) (beats (trace sc p es) b) /\
  (beats_running (beats (trace sc p es) b) <= 1)%nat.
Proof.
  intro H.
  assert (Hok : beats_ok (run sc p es) (beats (trace sc p es) b)).
  { revert p b H. induction es as [|e es IH]; intros p b H; cbn [run trace].
    - exact H.
    - unfold beats. rewrite fold_left_app. apply IH, step_beats, H. }
  split; [exact Hok|].
  destruct Hok as [Hn _]. rewrite Hn.
  destruct (beats_stored _); lia.
Qed.

(** ** Escaping *)

Lemma string_app_assoc (a b c : string) : ((a ++ b) ++ c = a ++ (b ++ c))%string.
Proof. induction a as [|x a IH]; cbn; [reflexivity | rewrite IH; reflexivity]. Qed.

Lemma all_chars_app (f : ascii -> bool) (a b : string) :
  all_chars f (a ++ b) = all_chars f a && all_chars f b.
Proof.
  induction a as [|x a IH]; cbn; [reflexivity|].
  rewrite IH. apply andb_assoc.
Qed.

(** What [esc] writes for one character. *)
Lemma esc_char_cases (c : ascii) :
  (c = "&"%char /\ esc_char c = "&amp;") \/
  (c = "<"%char /\ esc_char c = "&lt;") \/
  (c = ">"%char /\ esc_char c = "&gt;") \/
  (c = "034"%char /\ esc_char c = "&quot;") \/
  (c = "'"%char /\ esc_char c = "&#039;") \/
  (plain_char c = true /\ esc_char c = String c "").
Proof.
  destruct c as [[] [] [] [] [] [] [] []];
    first [ left; split; reflexivity
          | right; left; split; reflexivity
          | right; right; left; split; reflexivity
          | right; right; right; left; split; reflexivity
          | right; right; right; right; left; split; reflexivity
          | right; right; right; right; right; split; reflexivity ].
Qed.

Lemma esc_app (s t : string) : esc (s ++ t) = (esc s ++ esc t)%string.
Proof.
  induction s as [|c s IH]; cbn [esc append]; [reflexivity|].
  rewrite IH, string_app_assoc. reflexivity.
Qed.

(** The text [esc] returns holds no character that opens or closes a tag
    or an attribute value: neither of the angle brackets and neither of
    the quotes. *)
Theorem esc_no_markup (str : string) :
  all_chars (fun c => negb (markup_char c)) (esc str) = true.
Proof.
  induction str as [|c s IH]; cbn [esc]; [reflexivity|].
  rewrite all_chars_app, IH, andb_true_r.
  destruct c as [[] [] [] [] [] [] [] []]; reflexivity.
Qed.

(** [esc] loses nothing: two texts with the same escaped form are the
    same text. *)
Theorem esc_injective (s t : string) : esc s = esc t -> s = t.
Proof.
  revert t. induction s as [|c s IH]; intros [|d t] H.
  - reflexivity.
  - exfalso. cbn [esc] in H.
    destruct (esc_char_cases d) as [[_ E]|[[_ E]|[[_ E]|[[_ E]|[[_ E]|[_ E]]]]]];
      rewrite E in H; discriminate H.
  - exfalso. cbn [esc] in H.
    destruct (esc_char_cases c) as [[_ E]|[[_ E]|[[_ E]|[[_ E]|[[_ E]|[_ E]]]]]];
      rewrite E in H; discriminate H.
  - cbn [esc] in H.
    assert (Hcd : c = d /\ esc s = esc t).
    { destruct (esc_char_cases c) as [[Hc E]|[[Hc E]|[[Hc E]|[[Hc E]|[[Hc E]|[Hc E]]]]]];
        destruct (esc_char_cases d) as [[Hd F]|[[Hd F]|[[Hd F]|[[Hd F]|[[Hd F]|[Hd F]]]]]];
        rewrite E, F in H; cbn in H;
        try discriminate H;
        try (injection H as H; subst c d; split; [reflexivity | exact H]).
      - injection H as H1 H. subst d. subst c. discriminate Hd.
      - injection H as H1 H. subst d. subst c. discriminate Hd.
      - injection H as H1 H. subst d. subst c. discriminate Hd.
      - injection H as H1 H. subst d. subst c. discriminate Hd.
      - injection H as H1 H. subst d. subst c. discriminate Hd.
      - injection H as H1 H. subst c. subst d. discriminate Hc.
      - injection H as H1 H. subst c. subst d. discriminate Hc.
      - injection H as H1 H. subst c. subst d. discriminate Hc.
      - injection H as H1 H. subst c. subst d. discriminate Hc.
      - injection H as H1 H. subst c. subst d. discriminate Hc.
      - injection H as H1 H. split; assumption. }
    destruct Hcd as [-> Hst]. f_equal. apply IH, Hst.
Qed.

(** A text without any of the five characters is left as it is, and the
    escaped form of a concatenation is the concatenation of the escaped
    forms. *)
Theorem esc_plain_text (s t : string) :
  (all_chars plain_char s = true -> esc s = s) /\
  esc (s ++ t) = (esc s ++ esc t)%string.
Proof.
  split; [|apply esc_app].
  induction s as [|c s IH]; cbn [all_chars esc]; intro H; [reflexivity|].
  apply andb_true_iff in H. destruct H as [Hc Hs].
  rewrite (IH Hs).
  destruct (esc_char_cases c) as [[-> _]|[[-> _]|[[-> _]|[[-> _]|[[-> _]|[_ E]]]]]];
    try discriminate Hc.
  rewrite E. reflexivity.
Qed.

(** ** Further properties of the rows *)

Lemma or_str_truthy (x : option string) (d : string) :
  JS.truthy_str d = true -> JS.truthy_str (JS.or_str x d) = true.
Proof. destruct x as [[|c s]|]; cbn; auto. Qed.

(** The class that colours the source cell and the borrow rate shown
    beside it agree: a cell classed OKX shows the OKX rate, a cell classed
    Binance the Binance rate, a cell with no class no rate; and the
    sources the server names get the class of their name. *)
Theorem sourceClass_matches_borrowRate (loanSizeValue : option Q) (d : Opportunity) :
  let r := renderRow loanSizeValue d in
  (sourceClass (row_source r) = "source-okx" ->
   row_borrowRate r = JS.or_num (okx_loan_rate d) 0) /\
  (sourceClass (row_source r) = "source-binance" ->
   row_borrowRate r = JS.or_num (binance_loan_rate d) 0) /\
  (sourceClass (row_source r) = "" -> row_borrowRate r = 0%Q) /\
  (best_loan_source d = Some "OKX" -> sourceClass (row_source r) = "source-okx") /\
  (best_loan_source d = Some "Binance" -> sourceClass (row_source r) = "source-binance") /\
  (best_loan_source d = None -> row_source r = "None" /\ sourceClass (row_source r) = "").
Proof.
  cbv zeta. unfold renderRow, sourceClass. cbn [row_source row_borrowRate].
  rewrite (or_str_truthy (best_loan_source d) "None" eq_refl). cbn [negb].
  split; [|split; [|split; [|split; [|split]]]].
  - destruct (JS.includes _ "gate"); [discriminate|].
    destruct (JS.includes _ "okx"); [reflexivity|].
    destruct (JS.includes _ "binance"); discriminate.
  - destruct (JS.includes _ "gate"); [discriminate|].
    destruct (JS.includes _ "okx"); [discriminate|].
    destruct (JS.includes _ "binance"); [reflexivity | discriminate].
  - destruct (JS.includes _ "gate"); [discriminate|].
    destruct (JS.includes _ "okx"); [discriminate|].
    destruct (JS.includes _ "binance"); [discriminate | reflexivity].
  - intros ->. reflexivity.
  - intros ->. reflexivity.
  - intros ->. split; reflexivity.
Qed.

Lemma toInt32_range (x : Z) : (- 2 ^ 31 <= JS.toInt32 x < 2 ^ 31)%Z.
Proof.
  unfold JS.toInt32.
  pose proof (Z.mod_pos_bound (x + 2 ^ 31) (2 ^ 32) eq_refl). lia.
Qed.

(** The hash of a token name is a 32-bit integer, and the index taken
    from it always selects one of the four signals. *)
Theorem sigIndex_in_bounds (loanSizeValue : option Q) (d : Opportunity) :
  (- 2 ^ 31 <= hash (currency d) < 2 ^ 31)%Z /\
  (0 <= row_sigIndex (renderRow loanSizeValue d) <= 3)%Z.
Proof.
  split.
  - unfold hash.
    assert (H : forall l a, (- 2 ^ 31 <= a < 2 ^ 31)%Z ->
                (- 2 ^ 31
                 <= fold_left (fun a b => JS.toInt32 (JS.shl a 5 - a + Z.of_nat (nat_of_ascii b)))
                              l a
                 < 2 ^ 31)%Z).
    { intro l. induction l as [|b l IH]; intros a Ha; cbn [fold_left].
      - exact Ha.
      - apply IH, toInt32_range. }
    apply H. lia.
  - cbn [renderRow row_sigIndex].
    pose proof (Z.mod_pos_bound (Z.abs (hash (currency d))) 4 eq_refl). lia.
Qed.

Lemma or_num_nullish (x : option Q) : (JS.or_num x 0 == JS.nullish x)%Q.
Proof.
  destruct x as [q|]; cbn; [|reflexivity].
  destruct (Qeq_bool q 0) eqn:E; [|reflexivity].
  apply Qeq_bool_iff in E. symmetry. exact E.
Qed.

Lemma StronglySorted_map {A B : Type} (R : A -> A -> Prop) (S : B -> B -> Prop)
    (f : A -> B) (l : list A) :
  (forall a b, R a b -> S (f a) (f b)) ->
  StronglySorted R l -> StronglySorted S (map f l).
Proof.
  intros H. induction 1 as [|a l Hs IH Ha]; cbn [map]; constructor.
  - exact IH.
  - rewrite Forall_forall in *. intros y Hy.
    apply in_map_iff in Hy. destruct Hy as [x [<- Hx]]. apply H, Ha, Hx.
Qed.

Lemma sortCompare_numeric_consistent (col : Column) (asc : bool) :
  col <> col_currency -> consistent (sortCompare col asc).
Proof.
  intro Hcol.
  assert (Hnum : forall f : Opportunity -> Q,
             consistent (fun a b => if asc then (f a - f b)%Q else (f b - f a)%Q)).
  { intro f. destruct asc; constructor; intros; try split; intros; lra. }
  destruct col; try contradiction;
    try (apply (Hnum (fun a => JS.nullish (num_prop _ a))));
    exact (Hnum (fun _ => 0%Q)).
Qed.

Lemma dailyEarn_mono (x y l : Q) : (x <= y)%Q -> (0 <= l)%Q -> (dailyEarn x l <= dailyEarn y l)%Q.
Proof.
  intros Hxy Hl. unfold dailyEarn, JS.mul, JS.div.
  apply round64_mono, Qmult_le_compat_r; [|exact Hl].
  apply round64_mono. unfold Qdiv. apply Qmult_le_compat_r; [|discriminate].
  apply round64_mono. apply Qmult_le_compat_r; [|discriminate]. exact Hxy.
Qed.

(** A table sorted by net APR, highest first, is sorted by daily
    earnings too, as long as the loan size is not negative. *)
Theorem daily_follows_net_apr (p : Page) (rows : list Row) :
  sortCol (state p) = col_net_apr ->
  sortAsc (state p) = false ->
  (0 <= JS.or_num (filterLoanSize (filters (dom p))) 1000)%Q ->
  tbody (dom (applyFiltersAndRender app_js p)) = tb_rows rows ->
  StronglySorted (fun a b => (row_dailyEarn b <= row_dailyEarn a)%Q) rows.
Proof.
  intros Hc Ha Hl Hrows.
  rewrite applyFiltersAndRender_dom in Hrows. cbn [tbody set_table] in Hrows.
  unfold renderTable in Hrows.
  assert (Hr : rows = map (renderRow (filterLoanSize (filters (dom p))))
                          (pipeline app_js p)).
  { destruct (pipeline app_js p) as [|d l]; [discriminate Hrows|].
    injection Hrows as <-. reflexivity. }
  subst rows. clear Hrows.
  assert (Hs : StronglySorted (before (sortCompare col_net_apr false)) (pipeline app_js p)).
  { unfold pipeline. rewrite Hc, Ha.
    apply sort_strongly_sorted, sortCompare_numeric_consistent. discriminate. }
  revert Hs. apply StronglySorted_map.
  intros a b Hab. unfold before in Hab. cbn in Hab.
  cbn [renderRow row_dailyEarn].
  apply dailyEarn_mono; [|exact Hl].
  rewrite !or_num_nullish. lra.
Qed.

(** The table has the placeholder row and a count of 0 when nothing is
    left to list, and otherwise one row for each listed opportunity, in
    the order of the list, with its token and its net APR. *)
Theorem table_rows_match_filtered (p : Page) :
  let p' := applyFiltersAndRender app_js p in
  (filtered (state p') = [] ->
   tbody (dom p') = tb_no_match /\ filteredCount (dom p') = "0") /\
  (filtered (state p') <> [] ->
   exists rows, tbody (dom p') = tb_rows rows /\
                map row_token rows = map currency (filtered (state p')) /\
                map row_netApr rows = map net_apr_or0 (filtered (state p')) /\
                filteredCount (dom p') = count_text (length rows)).
Proof.
  cbv zeta. rewrite applyFiltersAndRender_filtered, applyFiltersAndRender_dom.
  cbn [tbody filteredCount set_table]. split.
  - intros ->. split; reflexivity.
  - intro H. destruct (pipeline app_js p) as [|d l]; [contradiction|].
    eexists. split; [reflexivity|].
    rewrite !map_map, length_map. repeat split.
Qed.

(** With every control at a value that constrains nothing (a source
    other than the two lenders, an APR box that is empty or holds 0, a
    search box that is empty or blank, an availability other than the two
    states) every row of the snapshot is listed. *)
Theorem nothing_filtered (sc : script) (p : Page) :
  filterSource (filters (dom p)) <> "okx" ->
  filterSource (filters (dom p)) <> "binance" ->
  (JS.or_num (filterApr (filters (dom p))) 0 == 0)%Q ->
  JS.trim (filterSearch (filters (dom p))) = "" ->
  filterAvailable (filters (dom p)) <> "available" ->
  filterAvailable (filters (dom p)) <> "unavailable" ->
  Permutation (filtered (state (applyFiltersAndRender sc p))) (data (state p)) /\
  filteredCount (dom (applyFiltersAndRender sc p)) = count_text (length (data (state p))).
Proof.
  intros H1 H2 H3 H4 H5 H6.
  assert (Hall : filter (keeps sc (filters (dom p))) (data (state p)) = data (state p)).
  { apply forallb_filter_id. apply forallb_forall. intros d _.
    apply keeps_passes. unfold passes, source_ok, apr_ok, search_ok, available_ok.
    rewrite H4. repeat split; try (intro; contradiction); left; [exact H3 | reflexivity]. }
  rewrite applyFiltersAndRender_filtered, applyFiltersAndRender_dom.
  unfold pipeline. rewrite Hall. split.
  - apply sort_perm.
  - cbn [filteredCount set_table]. rewrite sort_length. reflexivity.
Qed.

Lemma filtered_In (sc : script) (p : Page) (d : Opportunity) :
  In d (filtered (state (applyFiltersAndRender sc p)))
  <-> In d (data (state p)) /\ passes sc (filters (dom p)) d.
Proof.
  rewrite applyFiltersAndRender_filtered. unfold pipeline.
  rewrite sort_In, filter_In, keeps_passes. reflexivity.
Qed.

(** Raising the minimum APR never adds a row: with two thresholds other
    than 0, every row listed under the higher one is listed under the
    lower one. *)
Theorem higher_floor_fewer_rows (sc : script) (p : Page) (a b : Q) (d : Opportunity) :
  ~ (a == 0)%Q -> ~ (b == 0)%Q -> (a <= b)%Q ->
  In d (filtered (state (applyFiltersAndRender sc (input (set_apr (Some b)) p)))) ->
  In d (filtered (state (applyFiltersAndRender sc (input (set_apr (Some a)) p)))).
Proof.
  intros Ha Hb Hab. rewrite !filtered_In.
  intros [Hin [Hs [Hapr [Hq Hv]]]]. split; [exact Hin|].
  split; [exact Hs|]. split; [|split; [exact Hq | exact Hv]].
  clear Hs Hq Hv. unfold apr_ok in *. cbn in *.
  assert (Ea : Qeq_bool a 0 = false).
  { destruct (Qeq_bool a 0) eqn:E; [|reflexivity]. apply Qeq_bool_iff in E. contradiction. }
  assert (Eb : Qeq_bool b 0 = false).
  { destruct (Qeq_bool b 0) eqn:E; [|reflexivity]. apply Qeq_bool_iff in E. contradiction. }
  rewrite Ea. rewrite Eb in Hapr.
  destruct Hapr as [H|H]; [contradiction|].
  right. apply Qle_trans with b; assumption.
Qed.

(** ** Further properties of the KPI row *)

Lemma sum_mono (l l' : list Q) (a a' : Q) :
  (a <= a')%Q -> Forall2 Qle l l' ->
  (fold_left JS.add l a <= fold_left JS.add l' a')%Q.
Proof.
  intros Ha H. revert a a' Ha.
  induction H as [|x y l l' Hxy H IH]; intros a a' Ha; cbn [fold_left].
  - exact Ha.
  - apply IH. unfold JS.add. apply round64_mono. lra.
Qed.

Lemma sum_nonneg (l : list Q) (a : Q) :
  (0 <= a)%Q -> Forall (fun x => 0 <= x)%Q l -> (0 <= fold_left JS.add l a)%Q.
Proof.
  intros Ha H. revert a Ha.
  induction H as [|x l Hx H IH]; intros a Ha; cbn [fold_left].
  - exact Ha.
  - apply IH. unfold JS.add. apply round64_nonneg. lra.
Qed.

Lemma average_mono (l l' : list Q) :
  Forall2 Qle l l' -> (average l <= average l')%Q.
Proof.
  intro H. unfold average, JS.div. rewrite (Forall2_length H).
  apply round64_mono. unfold Qdiv. apply Qmult_le_compat_r.
  - apply sum_mono; [apply Qle_refl | exact H].
  - apply Qinv_le_0_compat. change 0%Q with (inject_Z 0). rewrite <- Zle_Qle. lia.
Qed.

Lemma average_nonneg (l : list Q) :
  Forall (fun x => 0 <= x)%Q l -> (0 <= average l)%Q.
Proof.
  intro H. unfold average, JS.div. apply round64_nonneg.
  unfold Qdiv. apply Qmult_le_0_compat.
  - apply sum_nonneg; [apply Qle_refl | exact H].
  - apply Qinv_le_0_compat. change 0%Q with (inject_Z 0). rewrite <- Zle_Qle. lia.
Qed.

(** In [part_000] the average shown is the mean of the net APRs as
    JavaScript computes it, the sum and the quotient rounded to
    binary64.  It does not go down when a net APR goes up and is not
    negative when no net APR is, but it is not bounded by the best APR
    shown beside it: the roundings can put it above.  The count of high
    APRs is the number of rows above 50, at most the total shown. *)
Theorem kpi_average_rounded (p : Page) (d : Opportunity) (rest : list Opportunity) :
  data (state p) = d :: rest ->
  let k := kpi (dom (updateKPIs part_000 p)) in
  let netAprs := map net_apr_or0 (d :: rest) in
  let high := length (filter (fun a => JS.ltb 50 a) netAprs) in
  kpiAvgApr k = fmt (Some (average netAprs)) ++ "%" /\
  (forall l', Forall2 Qle netAprs l' -> average netAprs <= average l')%Q /\
  (Forall (fun a => 0 <= a)%Q netAprs -> 0 <= average netAprs)%Q /\
  ~ (forall a l, average (a :: l) <= JS.Math_max a l)%Q /\
  kpiTotal k = count_text (length (d :: rest)) /\
  kpiHigh k = count_text high /\
  (high <= length (d :: rest))%nat.
Proof.
  intros H k netAprs high. subst k. unfold updateKPIs. rewrite H.
  cbn [with_dom dom set_kpi kpi set_kpi_part_000 kpiAvgApr kpiTotal kpiHigh].
  split; [reflexivity|].
  split; [intro l'; apply average_mono|].
  split; [apply average_nonneg|].
  split.
  { intro Hall.
    specialize (Hall (3066669871262597 # 281474976710656)%Q
                     [(3066669871262597 # 281474976710656)%Q;
                      (3066669871262597 # 281474976710656)%Q]).
    vm_compute in Hall. apply Hall. reflexivity. }
  split; [reflexivity|]. split; [reflexivity|].
  subst high netAprs. eapply Nat.le_trans; [apply filter_length_le|].
  rewrite length_map. lia.
Qed.

(** ** Further properties of the refresh button *)

(** Whatever the stream and the server do, a click on the refresh button
    disables the button and ends by arming the timer that enables it
    again; [app.js] asks nothing of the network, and [part_000] asks for
    the snapshot only after the server answered "ok" to the refresh, over
    HTTP only while the stream is not open. *)
Theorem refreshClick_reenables (sc : script) (p : Page)
    (posted : Response (option string)) (pulled : Response Msg) :
  let '(p', es) := refreshClick sc p posted pulled in
  last es (ConsoleLog "") = SetTimeout cb_enableRefresh 2000 /\
  btn_disabled (btnRefresh (dom p')) = true /\
  (In (Fetch "GET" "/api/opportunities") es ->
   sc = part_000 /\ ws_open (state p) = false /\ posted = resp_json (Some "ok")) /\
  (In (WsSend "refresh") es -> sc = part_000 /\ ws_open (state p) = true).
Proof.
  destruct (refreshClick sc p posted pulled) as [p' es] eqn:E.
  unfold refreshClick in E. cbn [with_dom state] in E.
  destruct sc.
  - destruct (ws_open (state p)); injection E as <- <-; cbn;
      (split; [reflexivity|]; split; [reflexivity|]; split; intro H;
       repeat (destruct H as [H|H]; try discriminate H); destruct H).
  - destruct (ws_open (state p)) eqn:Ew.
    + injection E as <- <-. cbn.
      split; [reflexivity|]. split; [reflexivity|]. split; intro H.
      * repeat (destruct H as [H|H]; try discriminate H). destruct H.
      * split; reflexivity.
    + destruct posted as [st|].
      * destruct (is_str st "ok") eqn:Eok.
        -- apply is_str_true in Eok. subst st.
           destruct pulled as [msg|].
           ++ unfold handleDataUpdate in E. injection E as <- <-. cbn.
              split; [reflexivity|]. split.
              ** match goal with
                 | |- context [updateKPIs part_000 ?q] =>
                     destruct (updateKPIs_frame part_000 q) as [_ [_ Hd]]; rewrite Hd
                 end.
                 rewrite applyFiltersAndRender_dom. reflexivity.
              ** split; intro H; [repeat split|].
                 repeat (destruct H as [H|H]; try discriminate H). destruct H.
           ++ injection E as <- <-. cbn.
              split; [reflexivity|]. split; [reflexivity|]. split; intro H.
              ** repeat split.
              ** repeat (destruct H as [H|H]; try discriminate H). destruct H.
        -- injection E as <- <-. cbn.
           split; [reflexivity|]. split; [reflexivity|]. split; intro H;
             repeat (destruct H as [H|H]; try discriminate H); destruct H.
      * injection E as <- <-. cbn.
        split; [reflexivity|]. split; [reflexivity|]. split; intro H;
          repeat (destruct H as [H|H]; try discriminate H); destruct H.
Qed.

(** ** Further properties of the chart *)

Lemma time_consistent :
  consistent (fun a b : Point => inject_Z (pt_timestamp a - pt_timestamp b)).
Proof.
  constructor.
  - intros a b. rewrite inject_Z_pos, inject_Z_neg. lia.
  - intros a b c. rewrite !inject_Z_nonpos. lia.
Qed.

Lemma sort_nil {A : Type} (comparefn : A -> A -> Q) (l : list A) :
  JS.sort comparefn l = [] -> l = [].
Proof.
  intro H. apply Permutation_nil. rewrite <- H. apply sort_perm.
Qed.

(** [renderChart] draws the points of the history in the order of their
    time, points of the same time in the order they came in; it draws
    nothing for an empty history, and it throws exactly when the history
    is undefined. *)
Theorem renderChart_in_time_order (m : Modal) (history : list Point) (tok : string) :
  renderChart m None tok = None /\
  exists m', renderChart m (Some history) tok = Some m' /\
    (history = [] -> m' = m) /\
    (history <> [] ->
     exists c, chartInstance m' = Some c /\ chart_token c = tok /\
       Permutation (chart_points c) history /\
       StronglySorted (fun a b => (pt_timestamp a <= pt_timestamp b)%Z) (chart_points c) /\
       (forall t, filter (fun x => Z.eqb (pt_timestamp x) t) (chart_points c)
                  = filter (fun x => Z.eqb (pt_timestamp x) t) history) /\
       live_charts m' = S (live_charts m)).
Proof.
  split; [reflexivity|].
  set (cmp := fun a b : Point => inject_Z (pt_timestamp a - pt_timestamp b)).
  unfold renderChart. fold cmp.
  destruct (JS.sort cmp history) as [|x s] eqn:E; cbn [map].
  - exists m. split; [reflexivity|]. split; [reflexivity|].
    intro H. apply sort_nil in E. contradiction.
  - eexists. split; [reflexivity|]. split.
    + intros ->. discriminate E.
    + intros _. eexists. split; [reflexivity|]. cbn [chart_token chart_points live_charts].
      rewrite <- E. split; [reflexivity|]. split; [apply sort_perm|]. split; [|split].
      * pose proof (sort_strongly_sorted cmp time_consistent history) as Hs.
        revert Hs. generalize (JS.sort cmp history). intro l.
        induction 1 as [|a l0 Hs IH Ha]; constructor; [exact IH|].
        rewrite Forall_forall in *. intros y Hy. specialize (Ha y Hy).
        unfold before, cmp in Ha. cbv beta in Ha.
        pose proof (proj1 (inject_Z_nonpos _) Ha). cbv beta. lia.
      * intro t.
        assert (Hkey : forall l r, pt_timestamp r = t ->
                   filter (fun x => Z.eqb (pt_timestamp x) t) l
                   = filter (same_key cmp r) l).
        { intros l r Hr. apply filter_ext. intro y. unfold same_key, cmp.
          destruct (Z.eqb_spec (pt_timestamp y) t) as [Hy|Hy].
          - symmetry. apply Qeq_bool_iff. rewrite Hr, Hy, Z.sub_diag. reflexivity.
          - symmetry. destruct (Qeq_bool _ 0) eqn:Eq; [|reflexivity].
            apply Qeq_bool_iff in Eq. unfold Qeq in Eq. cbn in Eq. lia. }
        destruct (filter (fun x => Z.eqb (pt_timestamp x) t) history) as [|r rs] eqn:Ef.
        -- assert (Hnone : forall l, Permutation l history ->
                     filter (fun x => Z.eqb (pt_timestamp x) t) l = []).
           { intros l Hp.
             destruct (filter (fun x => Z.eqb (pt_timestamp x) t) l) as [|y ys] eqn:El;
               [reflexivity|].
             assert (Hy : In y (filter (fun x => Z.eqb (pt_timestamp x) t) l))
               by (rewrite El; left; reflexivity).
             apply filter_In in Hy. destruct Hy as [Hy1 Hy2].
             assert (Hy3 : In y (filter (fun x => Z.eqb (pt_timestamp x) t) history)).
             { apply filter_In. split; [|exact Hy2].
               apply Permutation_in with l; assumption. }
             rewrite Ef in Hy3. destruct Hy3. }
           apply Hnone, sort_perm.
        -- assert (Hr : pt_timestamp r = t).
           { assert (Hin : In r (filter (fun x => Z.eqb (pt_timestamp x) t) history))
               by (rewrite Ef; left; reflexivity).
             apply filter_In in Hin. apply Z.eqb_eq, Hin. }
           rewrite <- Ef, !(Hkey _ r Hr). apply (sort_stable cmp time_consistent).
      * reflexivity.
Qed.

(** How a row selection ends, by what the request returns: the error
    mark for a failed request, for a bare array that is not empty and for
    an envelope without a series; a chart for an envelope whose series is
    not empty, and only then; the no-data message for [null] and for the
    empty bare array.  The request always goes out first. *)
Theorem openChartModal_outcomes (m : Modal) (tok : string) (fetched : Response History) :
  let '(m', es) := openChartModal m tok fetched in
  (modal_error m' = true <->
   fetched = resp_rejected \/
   (exists pt pts, fetched = resp_json (hist_array (pt :: pts))) \/
   (exists trend, fetched = resp_json (hist_object None trend))) /\
  (chartInstance m' <> None <->
   exists pt pts trend, fetched = resp_json (hist_object (Some (pt :: pts)) trend)) /\
  (forall c, chartInstance m' = Some c -> chart_token c = tok) /\
  hd_error es = Some (Fetch "GET" ("/api/history/" ++ tok)).
Proof.
  destruct fetched as [[| [|pt pts] | [pts|] trend] |]; cbn.
  - repeat split; try discriminate; try contradiction.
    + intros [H|[[? [? H]]|[? H]]]; discriminate H.
    + intros [? [? [? H]]]; discriminate H.
  - repeat split; try discriminate; try contradiction.
    + intros [H|[[? [? H]]|[? H]]]; discriminate H.
    + intros [? [? [? H]]]; discriminate H.
  - repeat split; try discriminate; try contradiction.
    + intros _. right. left. exists pt, pts. reflexivity.
    + intros [? [? [? H]]]; discriminate H.
  - destruct pts as [|pt pts].
    + cbn. repeat split; try discriminate; try contradiction.
      * intros [H|[[? [? H]]|[? H]]]; discriminate H.
      * intros [? [? [? H]]]; discriminate H.
    + destruct (JS.sort _ (pt :: pts)) as [|x s] eqn:E.
      * apply sort_nil in E. discriminate E.
      * cbn. repeat split; try discriminate.
        -- intros [H|[[? [? H]]|[? H]]]; discriminate H.
        -- intros _. exists pt, pts, trend. reflexivity.
        -- intros c [= <-]. reflexivity.
  - repeat split; try discriminate; try contradiction.
    + intros _. right. right. exists trend. reflexivity.
    + intros [? [? [? H]]]; discriminate H.
  - repeat split; try discriminate; try contradiction.
    + intros _. left. reflexivity.
    + intros [? [? [? H]]]; discriminate H.
Qed.

(** Over any series of row selections, each handled before the next, at
    most one chart is alive: the one [chartInstance] holds. *)
Theorem one_chart_alive (m : Modal) (opens : list (string * Response History)) :
  live_charts m = match chartInstance m with Some _ => 1%nat | None => 0%nat end ->
  let m' := selections m opens in
  live_charts m' = match chartInstance m' with Some _ => 1%nat | None => 0%nat end /\
  (live_charts m' <= 1)%nat.
Proof.
  intro H. cbv zeta.
  assert (Hinv : live_charts (selections m opens)
                 = match chartInstance (selections m opens) with
                   | Some _ => 1%nat
                   | None => 0%nat
                   end).
  { revert m H. induction opens as [|[tok fetched] opens IH]; intros m H; cbn [selections].
    - exact H.
    - apply IH. apply (openChartModal_releases m tok fetched H). }
  split; [exact Hinv|]. rewrite Hinv.
  destruct (chartInstance (selections m opens)); [apply le_n | apply Nat.le_0_l].
Qed.

(** ** The session banner *)

(** The age of the session is worded in minutes below an hour, in whole
    hours from 1 to 23 below a day, and in whole days, at least 1, from
    there on.  The banner warns of an expired session only above 1440
    minutes: a session of exactly one day is worded "1 day" and still
    shown as active. *)
Theorem session_age_buckets (ageMin : Q) (s : SessionInfo) :
  match ageStr ageMin with
  | minutes_ago mins => mins = ageMin /\ (ageMin < 60)%Q
  | hours_ago h => (1 <= h <= 23)%Z /\ (60 <= ageMin < 1440)%Q
  | days_ago d => (1 <= d)%Z /\ (1440 <= ageMin)%Q
  end /\
  (session_exists s = true ->
   let b := fetchSessionStatus (resp_json s) in
   (banner_icon b = icon_expired <-> (1440 < JS.or_num (age_minutes s) 0)%Q) /\
   (banner_icon b = icon_expired -> exists d, banner_age b = Some (days_ago d)) /\
   (age_minutes s = Some 1440%Q ->
    banner_icon b = icon_active /\ banner_age b = Some (days_ago 1))).
Proof.
  split.
  - unfold ageStr.
    destruct (JS.ltb ageMin 60) eqn:E1.
    + apply ltb_true_iff in E1. split; [reflexivity | exact E1].
    + apply ltb_false_iff in E1.
      destruct (JS.ltb ageMin 1440) eqn:E2.
      * apply ltb_true_iff in E2. split; [|split; assumption].
        split.
        -- rewrite <- (Qfloor_Z 1). apply Qfloor_resp_le.
           apply Qle_shift_div_l; [reflexivity|]. change (inject_Z 1) with 1%Q. lra.
        -- assert (H : (inject_Z (Qfloor (ageMin / 60)) < inject_Z 24)%Q).
           { eapply Qle_lt_trans; [apply Qfloor_le|].
             apply Qlt_shift_div_r; [reflexivity|]. change (inject_Z 24) with 24%Q. lra. }
           rewrite <- Zlt_Qlt in H. lia.
      * apply ltb_false_iff in E2. split; [|exact E2].
        rewrite <- (Qfloor_Z 1). apply Qfloor_resp_le.
        apply Qle_shift_div_l; [reflexivity|]. change (inject_Z 1) with 1%Q. lra.
  - intros Hs b. subst b. unfold fetchSessionStatus. rewrite Hs.
    cbn [banner_icon banner_age]. split; [|split].
    + destruct (JS.ltb 1440 _) eqn:E.
      * apply ltb_true_iff in E. split; [intros _; exact E | reflexivity].
      * apply ltb_false_iff in E. split; [discriminate|].
        intro H. exfalso. apply (Qlt_not_le _ _ H E).
    + destruct (JS.ltb 1440 _) eqn:E; [|discriminate]. intros _.
      apply ltb_true_iff in E. unfold ageStr.
      assert (E1 : JS.ltb (JS.or_num (age_minutes s) 0) 60 = false) by (apply ltb_false_iff; lra).
      assert (E2 : JS.ltb (JS.or_num (age_minutes s) 0) 1440 = false) by (apply ltb_false_iff; lra).
      rewrite E1, E2. eexists. reflexivity.
    + intros ->. split; reflexivity.
Qed.

End Dashboard.

(** ** The script on the sample values *)

(** Comparison by code units is a consistent comparison. *)
Lemma byteCompare_consistent : locale_consistent byteCompare.
Proof.
  split.
  - intros a b. unfold byteCompare. rewrite (String.compare_antisym b a).
    destruct (String.compare a b); cbn; lia.
  - intros a b c. unfold byteCompare.
    destruct (String.compare a b) eqn:Eab; [| |lia];
      (destruct (String.compare b c) eqn:Ebc; [| |lia]); intros _ _.
    + apply String.compare_eq_iff in Eab, Ebc. subst.
      pose proof (String.compare_antisym c c) as H.
      destruct (String.compare c c); [lia | discriminate H | discriminate H].
    + apply String.compare_eq_iff in Eab. subst. rewrite Ebc. lia.
    + apply String.compare_eq_iff in Ebc. subst. rewrite Eab. lia.
    + apply String_as_OT.cmp_lt in Eab, Ebc.
      pose proof (String_as_OT.lt_trans _ _ _ Eab Ebc) as H.
      apply String_as_OT.cmp_lt in H. unfold String_as_OT.cmp in H.
      rewrite H. lia.
Qed.

(** ** The token dropdowns *)

Lemma byteCompare_order : consistent (fun a b => inject_Z (byteCompare a b)).
Proof.
  destruct byteCompare_consistent as [Hc Ht]. constructor.
  - intros a b. rewrite inject_Z_pos, inject_Z_neg. apply Hc.
  - intros a b c. rewrite !inject_Z_nonpos. apply Ht.
Qed.

Lemma byteCompare_eq (a b : string) : byteCompare a b = 0%Z -> a = b.
Proof.
  unfold byteCompare. destruct (String.compare a b) eqn:E; try discriminate.
  intros _. apply String.compare_eq_iff, E.
Qed.

Lemma dedupe_In (x : string) (l : list string) : In x (dedupe l) <-> In x l.
Proof.
  induction l as [|a l IH]; [reflexivity|].
  cbn [dedupe In]. rewrite filter_In, IH. split.
  - intros [H|[H _]]; [left | right]; assumption.
  - intros [H|H]; [left; exact H|].
    destruct (String.eqb_spec a x) as [He|He]; [left; exact He|].
    right. split; [exact H | reflexivity].
Qed.

Lemma dedupe_NoDup (l : list string) : NoDup (dedupe l).
Proof.
  induction l as [|a l IH]; cbn [dedupe]; constructor.
  - rewrite filter_In. intros [_ H]. rewrite String.eqb_refl in H. discriminate H.
  - apply NoDup_filter, IH.
Qed.

Lemma strictly_sorted (l : list string) :
  NoDup l ->
  StronglySorted (before (fun a b => inject_Z (byteCompare a b))) l ->
  StronglySorted (fun a b => (byteCompare a b < 0)%Z) l.
Proof.
  intros Hn Hs. induction Hs as [|a l Hs IH Ha]; constructor.
  - apply IH. inversion Hn; assumption.
  - rewrite Forall_forall in *. intros y Hy. specialize (Ha y Hy).
    unfold before in Ha. pose proof (proj1 (inject_Z_nonpos _) Ha) as Hle.
    assert (Hne : byteCompare a y <> 0%Z).
    { intro H0. apply byteCompare_eq in H0. subst y. inversion Hn; contradiction. }
    lia.
Qed.

Lemma existsb_eqb_In (x : string) (l : list string) :
  existsb (String.eqb x) l = true <-> In x l.
Proof.
  rewrite existsb_exists. split.
  - intros [y [Hy He]]. apply String.eqb_eq in He. subst. exact Hy.
  - intro H. exists x. split; [exact H | apply String.eqb_refl].
Qed.

(** [populateTokenDropdowns] leaves the selects alone on an empty
    snapshot.  On any other it gives every select of the page that
    exists the same options: the tokens of the snapshot, each once, in
    ascending order.  The value of a select is always one of its options:
    the value it had if that is still offered, otherwise ETH if the select
    had no value and ETH is offered, otherwise the first option. *)
Theorem populateTokenDropdowns_options (d : Opportunity) (rest : list Opportunity)
    (targets : list (option Select)) :
  populateTokenDropdowns [] targets = targets /\
  exists tokens,
    (forall t, In t tokens <-> exists x, In x (d :: rest) /\ currency x = t) /\
    StronglySorted (fun a b => (byteCompare a b < 0)%Z) tokens /\
    forall i,
      match nth_error targets i with
      | Some (Some sel) =>
          exists sel',
            nth_error (populateTokenDropdowns (d :: rest) targets) i = Some (Some sel') /\
            sel_options sel' = tokens /\
            In (sel_value sel') tokens /\
            (In (sel_value sel) tokens -> sel_value sel' = sel_value sel) /\
            (~ In (sel_value sel) tokens ->
             sel_value sel' =
               if In_dec string_dec "ETH" tokens
               then if JS.truthy_str (sel_value sel) then hd "" tokens else "ETH"
               else hd "" tokens)
      | other => nth_error (populateTokenDropdowns (d :: rest) targets) i = other
      end.
Proof.
  split; [reflexivity|].
  set (tokens := default_sort (dedupe (map currency (d :: rest)))).
  assert (Hin : forall t, In t tokens <-> exists x, In x (d :: rest) /\ currency x = t).
  { intro t. unfold tokens, default_sort. rewrite sort_In, dedupe_In, in_map_iff.
    split; intros [x [H1 H2]]; exists x; split; auto. }
  exists tokens. split; [exact Hin|]. split.
  - apply strictly_sorted.
    + apply Permutation_NoDup with (dedupe (map currency (d :: rest))).
      * apply Permutation_sym, sort_perm.
      * apply dedupe_NoDup.
    + apply sort_strongly_sorted, byteCompare_order.
  - intro i. unfold populateTokenDropdowns. fold tokens. rewrite nth_error_map.
    destruct (nth_error targets i) as [[sel|]|]; cbn [option_map]; try reflexivity.
    eexists. split; [reflexivity|]. unfold rebuild. cbn [sel_options sel_value].
    split; [reflexivity|].
    assert (Hhd : In (hd "" tokens) tokens).
    { destruct tokens as [|t ts] eqn:Et; [|left; reflexivity].
      exfalso. apply (proj2 (Hin (currency d))). exists d. split; [left|]; reflexivity. }
    assert (Hshown : match tokens with t :: _ => t | [] => "" end = hd "" tokens)
      by (destruct tokens; reflexivity).
    rewrite Hshown.
    destruct (existsb (String.eqb (sel_value sel)) tokens) eqn:Ecur.
    + apply existsb_eqb_In in Ecur.
      split; [exact Ecur|]. split; [reflexivity|]. intro H. contradiction.
    + assert (Hcur : ~ In (sel_value sel) tokens).
      { intro H. apply existsb_eqb_In in H. rewrite H in Ecur. discriminate Ecur. }
      destruct (existsb (String.eqb "ETH") tokens) eqn:Eeth.
      * apply existsb_eqb_In in Eeth.
        destruct (In_dec string_dec "ETH" tokens) as [_|Hn]; [|contradiction].
        destruct (JS.truthy_str (sel_value sel)); cbn [negb andb].
        -- split; [exact Hhd|]. split; [intro; contradiction | reflexivity].
        -- split; [exact Eeth|]. split; [intro; contradiction | reflexivity].
      * assert (Hn : ~ In "ETH" tokens).
        { intro H. apply existsb_eqb_In in H. rewrite H in Eeth. discriminate Eeth. }
        destruct (In_dec string_dec "ETH" tokens) as [Hy|_]; [contradiction|].
        cbn [andb]. split; [exact Hhd|]. split; [intro; contradiction | reflexivity].
Qed.

(** The snapshot of two tokens arrives on the stream; 50 is typed into
    the APR box; the debounce timer fires: the table then shows the
    pipeline's result. *)
Lemma table_is_pipeline_witness :
  rerenders (page0 app_js) (ev_message (frame_data_update snapshot)) = true /\
  Rendered byteCompare app_js
    (run byteCompare noString noTime app_js
       (fst (step byteCompare noString noTime app_js (page0 app_js)
               (ev_message (frame_data_update snapshot))))
       [ev_apr (Some 50); ev_timer tk_apr]).
Proof.
  split; [reflexivity|].
  exact (proj1 (proj2 (proj2 (table_is_pipeline byteCompare noString noTime app_js
                                (page0 app_js) (ev_message (frame_data_update snapshot))
                                [ev_apr (Some 50); ev_timer tk_apr] eq_refl)))
               eq_refl).
Defined.

(** Between the input and the expiry of its debounce timer the table is
    not the pipeline's result for the controls: with 50 in the APR box the
    table still lists BTC, whose net APR is 10. *)
Lemma table_stale_while_debouncing :
  ~ Rendered byteCompare app_js
      (fst (step byteCompare noString noTime app_js
              (fst (step byteCompare noString noTime app_js (page0 app_js)
                      (ev_message (frame_data_update snapshot))))
              (ev_apr (Some 50)))).
Proof.
  intros [H _]. vm_compute in H. discriminate H.
Qed.

Lemma kpi_best_is_max_witness :
  msg_data snapshot = Some [ETH; BTC] /\
  kpi_best app_js
    (kpi (dom (fst (handleDataUpdate byteCompare noString noTime app_js
                      (page0 app_js) snapshot))))
  = "60.00%".
Proof.
  split; [reflexivity|].
  exact (proj1 (kpi_best_is_max byteCompare noString noTime app_js (page0 app_js)
                  snapshot ETH [BTC] eq_refl)).
Defined.

(** After the snapshot of two tokens an empty one arrives: the KPI row
    keeps the texts of the first. *)
Lemma kpi_kept_on_empty_witness :
  (msg_data empty_snapshot = Some [] \/ msg_data empty_snapshot = None) /\
  kpi (dom (fst (handleDataUpdate byteCompare noString noTime app_js
                   (fst (handleDataUpdate byteCompare noString noTime app_js
                           (page0 app_js) snapshot))
                   empty_snapshot)))
  = kpi (dom (fst (handleDataUpdate byteCompare noString noTime app_js
                     (page0 app_js) snapshot))).
Proof.
  split; [left; reflexivity|].
  exact (proj2 (kpi_kept_on_empty byteCompare noString noTime app_js
                  (fst (handleDataUpdate byteCompare noString noTime app_js
                          (page0 app_js) snapshot))
                  empty_snapshot (or_introl eq_refl))).
Defined.

Lemma sort_stable_idempotent_witness :
  locale_consistent byteCompare /\
  JS.sort (sortCompare byteCompare col_net_apr false)
          (JS.sort (sortCompare byteCompare col_net_apr false) [BTC; token "SOL"; ETH])
  = JS.sort (sortCompare byteCompare col_net_apr false) [BTC; token "SOL"; ETH].
Proof.
  split; [exact byteCompare_consistent|].
  exact (proj1 (proj2 (proj2 (proj2
           (sort_stable_idempotent byteCompare col_net_apr false
              [BTC; token "SOL"; ETH] byteCompare_consistent))))).
Defined.

(** A page that has the snapshot but not yet a table, and the same page
    after a render: the pipeline stores the same list on both. *)
Lemma pipeline_function_of_inputs_witness :
  data (state (with_state (set_data [ETH; BTC] None) (page0 app_js)))
  = data (state (applyFiltersAndRender byteCompare app_js
                   (with_state (set_data [ETH; BTC] None) (page0 app_js)))) /\
  filtered (state (applyFiltersAndRender byteCompare app_js
                     (with_state (set_data [ETH; BTC] None) (page0 app_js))))
  = filtered (state (applyFiltersAndRender byteCompare app_js
                       (applyFiltersAndRender byteCompare app_js
                          (with_state (set_data [ETH; BTC] None) (page0 app_js))))).
Proof.
  split; [reflexivity|].
  exact (proj1 (pipeline_function_of_inputs byteCompare noString noTime app_js
                  (with_state (set_data [ETH; BTC] None) (page0 app_js))
                  (applyFiltersAndRender byteCompare app_js
                     (with_state (set_data [ETH; BTC] None) (page0 app_js)))
                  eq_refl eq_refl eq_refl eq_refl)).
Defined.

(** The pipeline writes the DOM, and the listener of the source select of
    [app.js] asks the network for a snapshot. *)
Lemma applyFiltersAndRender_writes_dom :
  dom (applyFiltersAndRender byteCompare app_js
         (with_state (set_data [ETH; BTC] None) (page0 app_js)))
  <> dom (with_state (set_data [ETH; BTC] None) (page0 app_js)) /\
  existsb network
    (snd (step byteCompare noString noTime app_js (page0 app_js) (ev_source "okx")))
  = true.
Proof.
  split; [|reflexivity].
  intro H. vm_compute in H. discriminate H.
Qed.

(** In [part_000] sixty disconnections in a row schedule fifty
    reconnections; after them [onclose] schedules none. *)
Lemma reconnect_backoff_witness :
  length (fst (disconnects 60 (page0 part_000))) = 50%nat /\
  attempts_left (state (snd (disconnects 60 (page0 part_000)))) = 0%nat /\
  scheduled (snd (onclose (snd (disconnects 60 (page0 part_000))))) = [].
Proof.
  split; [vm_compute; reflexivity|].
  split; [vm_compute; reflexivity|].
  apply (proj1 (proj2 (proj2 (proj2 (proj2
           (reconnect_backoff byteCompare noString noTime 0
              (snd (disconnects 60 (page0 part_000))))))))).
  vm_compute. reflexivity.
Defined.

(** The example of the specification: with the snapshot of ETH (net APR
    60, available) and BTC (net APR 10, not available), a minimum APR of
    50 leaves ETH, the availability filter "unavailable" leaves BTC, and
    no filter leaves both, ETH first. *)
Example pipeline_on_the_snapshot :
  let shown f :=
    map currency
        (filtered (state (applyFiltersAndRender byteCompare app_js
           (input f (with_state (set_data [BTC; ETH] None) (page0 app_js)))))) in
  shown (set_apr (Some 50)) = ["ETH"] /\
  shown (set_available "unavailable") = ["BTC"] /\
  shown (set_search " eth ") = ["ETH"] /\
  shown (fun f => f) = ["ETH"; "BTC"].
Proof. vm_compute. repeat split. Qed.

(** Rows without a net APR tie at zero and keep their order. *)
Example sort_keeps_ties :
  map currency
      (JS.sort (sortCompare byteCompare col_net_apr false)
               [token "SOL"; BTC; token "ADA"; ETH; token "DOT"])
  = ["ETH"; "BTC"; "SOL"; "ADA"; "DOT"] /\
  map currency
      (JS.sort (sortCompare byteCompare col_currency true)
               [token "SOL"; BTC; token "ADA"; ETH; token "DOT"])
  = ["ADA"; "BTC"; "DOT"; "ETH"; "SOL"].
Proof. vm_compute. split; reflexivity. Qed.

Example toFixed2_rounds :
  toFixed2 noString (12345678 # 1000) = "12345.68" /\
  toFixed2 noString (5 # 1000) = "0.01" /\
  toFixed2 noString (- (1 # 1000)) = "-0.00" /\
  option_map (toFixed2 noString) (JS.Q_of_float 0x1.0147ae147ae14p+0) = Some "1.00".
Proof. vm_compute. repeat split. Qed.

Example hash_of_token : hash "ETH" = 68985%Z /\ (Z.abs (hash "ETH") mod 4 = 1)%Z.
Proof. vm_compute. split; reflexivity. Qed.

(** [dailyEarn] and [average] on sample doubles, among them subnormal
    results and operands that are no short decimals, against the same
    expressions on the primitive floats. *)
Example rounding_as_the_floats :
  forallb dailyEarn_agrees
    [(36.5, 1000); (4.5, 365); (0x1.5ca3d70a3d70ap+3, 1000);
     (0x1.8ae147ae147aep+3, 0x1.15c6666666666p+9);
     (-0x1.f147ae147ae14p+2, 2500); (0x1.e240c9fbe76c9p+16, 0x1.999999999999ap-4);
     (0x1.4f8b588e368f1p-17, 0x1.3333333333333p-2);
     (0x0.00000000013c4p-1022, 1000); (0x1p-1040, 0x1p-30);
     (0x1.7e43c8800759cp+996, 0x1.4f8b588e368f1p-17)]%float = true /\
  forallb average_agrees
    [[0x1.5ca3d70a3d70ap+3; 0x1.5ca3d70a3d70ap+3; 0x1.5ca3d70a3d70ap+3];
     [0x1.999999999999ap-4; 0x1.999999999999ap-4; 0x1.999999999999ap-4];
     [60; 10]; [0x1.8ae147ae147aep+3; -0x1.f147ae147ae14p+2; 0x1.3333333333333p-2;
                0x1.e240c9fbe76c9p+16; 0x1.4f8b588e368f1p-17];
     [0x1.7e43c8800759cp+996; 0x0.00000000013c4p-1022; 36.5]]%float = true.
Proof. vm_compute. split; reflexivity. Qed.

(** Three rows at the double nearest to 10.895, in [part_000]: the
    average is shown as 10.90% beside a best APR of 10.89%. *)
Example average_above_best :
  let row name :=
    {| currency := name; gate_apr := None; okx_loan_rate := None;
       binance_loan_rate := None;
       net_apr := Some (3066669871262597 # 281474976710656)%Q;
       effective_ev := None; best_loan_source := None; available := None;
       status := None; okx_avail_loan := None; gate_wd_fee_usd := None |} in
  let k :=
    kpi (dom (updateKPIs noString noTime part_000
                (with_state (set_data [row "A"; row "B"; row "C"] None)
                            (page0 part_000)))) in
  kpiTopApr k = "10.89%" /\ kpiAvgApr k = "10.90%".
Proof. vm_compute. split; reflexivity. Qed.

(** A value typed into the APR box is applied by the next render, which
    need not be the expiry of its timer: after the snapshot of ETH and
    BTC, 50 in the APR box and a click on the header of the token, the
    table lists ETH alone while the timer of the box is still armed. *)
Example edit_applied_by_next_render :
  let p :=
    run byteCompare noString noTime app_js (page0 app_js)
        [ev_message (frame_data_update snapshot); ev_apr (Some 50);
         ev_sort col_currency] in
  map currency (filtered (state p)) = ["ETH"] /\
  armed tk_apr (debounce p) = true.
Proof. vm_compute. split; reflexivity. Qed.

(** The first delays [part_000] schedules; [app.js] schedules none. *)
Example first_delays :
  fst (disconnects 3 (page0 part_000)) = [1000; 3000 # 2; 9000 # 4]%Q /\
  fst (disconnects 3 (page0 app_js)) = [] /\
  fst (disconnects 3 (fst (onopen (page0 app_js)))) = [].
Proof. vm_compute. repeat split. Qed.

(** ** The further properties on the sample values *)

(** The table of ETH and BTC, sorted by net APR with the highest first: a
    click on the header of the net APR lists BTC before ETH. *)
Lemma sort_other_direction_witness :
  locale_consistent byteCompare /\
  no_ties (sortCompare byteCompare col_net_apr false) [ETH; BTC] = true /\
  filtered (state (sortClick byteCompare app_js col_net_apr
                     (with_state (set_data [ETH; BTC] None) (page0 app_js))))
  = rev (pipeline byteCompare app_js
           (with_state (set_data [ETH; BTC] None) (page0 app_js))).
Proof.
  split; [exact byteCompare_consistent|].
  split; [reflexivity|].
  exact (proj2 (sort_other_direction byteCompare app_js
                  (with_state (set_data [ETH; BTC] None) (page0 app_js))
                  col_net_apr false [ETH; BTC]
                  byteCompare_consistent eq_refl eq_refl)).
Defined.

Lemma onopen_resets_backoff_witness :
  maxWsRetries (state (page0 part_000)) = Some 50%nat /\
  attempts_left (state (fst (onopen (page0 part_000)))) = 50%nat /\
  scheduled (snd (onclose (fst (onopen (page0 part_000))))) = [1000%Q].
Proof.
  split; [reflexivity|].
  split.
  - exact (proj1 (onopen_resets_backoff (page0 part_000) 49 eq_refl)).
  - exact (proj2 (proj2 (onopen_resets_backoff (page0 part_000) 49 eq_refl))).
Defined.

(** [app.js]: the stream opens and is lost twice; nothing is scheduled. *)
Lemma no_reconnect_without_bound_witness :
  maxWsRetries (state (page0 app_js)) = None /\
  scheduled (trace byteCompare noString noTime app_js (page0 app_js)
               [ev_open; ev_close; ev_error; ev_close]) = [].
Proof.
  split; [reflexivity|].
  exact (proj1 (no_reconnect_without_bound byteCompare noString noTime app_js
                  (page0 app_js) [ev_open; ev_close; ev_error; ev_close] eq_refl)).
Defined.

(** Two opens in a row and a close, from a page without a heartbeat. *)
Lemma one_heartbeat_witness :
  beats_ok (page0 part_000) {| beats_running := 0; beats_stored := false |} /\
  (beats_running
     (beats (trace byteCompare noString noTime part_000 (page0 part_000)
               [ev_open; ev_open; ev_close])
            {| beats_running := 0; beats_stored := false |}) <= 1)%nat.
Proof.
  assert (H : beats_ok (page0 part_000) {| beats_running := 0; beats_stored := false |}).
  { split; [reflexivity | discriminate]. }
  split; [exact H|].
  exact (proj2 (one_heartbeat byteCompare noString noTime part_000 (page0 part_000)
                  {| beats_running := 0; beats_stored := false |}
                  [ev_open; ev_open; ev_close] H)).
Defined.

Lemma esc_injective_witness :
  esc "<b>Tom & Jerry</b>" = esc "<b>Tom & Jerry</b>" /\
  "<b>Tom & Jerry</b>" = "<b>Tom & Jerry</b>".
Proof.
  split; [reflexivity|].
  exact (esc_injective "<b>Tom & Jerry</b>" "<b>Tom & Jerry</b>" eq_refl).
Defined.

(** The table of BTC and ETH at the default sort and the default loan
    size. *)
Lemma daily_follows_net_apr_witness :
  sortCol (state (page0 app_js)) = col_net_apr /\
  sortAsc (state (page0 app_js)) = false /\
  (0 <= JS.or_num (filterLoanSize (filters (dom (page0 app_js)))) 1000)%Q /\
  exists rows,
    tbody (dom (applyFiltersAndRender byteCompare app_js
                  (with_state (set_data [BTC; ETH] None) (page0 app_js))))
    = tb_rows rows /\
    StronglySorted (fun a b => (row_dailyEarn b <= row_dailyEarn a)%Q) rows.
Proof.
  split; [reflexivity|]. split; [reflexivity|].
  assert (H : (0 <= JS.or_num (filterLoanSize (filters (dom (page0 app_js)))) 1000)%Q).
  { vm_compute. discriminate. }
  split; [exact H|].
  eexists. split; [reflexivity|].
  exact (daily_follows_net_apr byteCompare
           (with_state (set_data [BTC; ETH] None) (page0 app_js)) _
           eq_refl eq_refl H eq_refl).
Defined.

(** The controls of a fresh page constrain nothing. *)
Lemma nothing_filtered_witness :
  JS.trim (filterSearch (filters (dom (page0 app_js)))) = "" /\
  filteredCount (dom (applyFiltersAndRender byteCompare app_js
                        (with_state (set_data [ETH; BTC] None) (page0 app_js))))
  = count_text 2.
Proof.
  split; [reflexivity|].
  refine (proj2 (nothing_filtered byteCompare app_js
                   (with_state (set_data [ETH; BTC] None) (page0 app_js))
                   _ _ _ eq_refl _ _));
    first [discriminate | reflexivity].
Defined.

(** ETH, with a net APR of 60, is listed above a floor of 50 and so above
    a floor of 5. *)
Lemma higher_floor_fewer_rows_witness :
  (5 <= 50)%Q /\
  In ETH (filtered (state (applyFiltersAndRender byteCompare app_js
            (input (set_apr (Some 50))
               (with_state (set_data [ETH; BTC] None) (page0 app_js)))))) /\
  In ETH (filtered (state (applyFiltersAndRender byteCompare app_js
            (input (set_apr (Some 5))
               (with_state (set_data [ETH; BTC] None) (page0 app_js)))))).
Proof.
  assert (H1 : ~ (5 == 0)%Q) by discriminate.
  assert (H2 : ~ (50 == 0)%Q) by discriminate.
  assert (H3 : (5 <= 50)%Q) by discriminate.
  assert (H4 : In ETH (filtered (state (applyFiltersAndRender byteCompare app_js
            (input (set_apr (Some 50))
               (with_state (set_data [ETH; BTC] None) (page0 app_js))))))).
  { left. reflexivity. }
  split; [exact H3|]. split; [exact H4|].
  exact (higher_floor_fewer_rows byteCompare app_js
           (with_state (set_data [ETH; BTC] None) (page0 app_js)) 5 50 ETH
           H1 H2 H3 H4).
Defined.

(** ETH at 60 and BTC at 10: the average shown is 35.00%. *)
Lemma kpi_average_rounded_witness :
  data (state (with_state (set_data [ETH; BTC] None) (page0 part_000))) = [ETH; BTC] /\
  kpiAvgApr (kpi (dom (updateKPIs noString noTime part_000
                         (with_state (set_data [ETH; BTC] None) (page0 part_000)))))
  = "35.00%".
Proof.
  split; [reflexivity|].
  exact (proj1 (kpi_average_rounded noString noTime
                  (with_state (set_data [ETH; BTC] None) (page0 part_000))
                  ETH [BTC] eq_refl)).
Defined.

(** A chart is drawn for ETH, then a row whose request fails is selected,
    then ETH again. *)
Lemma one_chart_alive_witness :
  live_charts modal0 = 0%nat /\
  (live_charts
     (selections modal0
        [("ETH", resp_json (hist_object
                    (Some [{| pt_timestamp := 2%Z; pt_net_apr := Some 60%Q;
                              pt_gate_apr := None; pt_borrow_rate := None |};
                           {| pt_timestamp := 1%Z; pt_net_apr := Some 50%Q;
                              pt_gate_apr := None; pt_borrow_rate := None |}])
                    None));
         ("BTC", resp_rejected);
         ("ETH", resp_json (hist_object
                    (Some [{| pt_timestamp := 3%Z; pt_net_apr := Some 61%Q;
                              pt_gate_apr := None; pt_borrow_rate := None |}])
                    None))]) <= 1)%nat.
Proof.
  split; [reflexivity|].
  exact (proj2 (one_chart_alive modal0 _ eq_refl)).
Defined.
